(** * openpi: Pi0-FAST predictive / observation-distilled models

    A shallow embedding of
      - [src/openpi/models/pi0_fast_obs_distilled.py]
      - [src/openpi/models/pi0_fast_predictive.py]
      - [src/openpi/policies/libero_obs_distillation_policy.py]

    Arrays are nested lists (outermost list = batch axis); integer arrays
    hold [Z], boolean arrays hold [bool], floating-point arrays hold [R]
    (rounding is abstracted away).  The transformer backbone, the vision
    encoder and the action projection are parameters of the development. *)

From Stdlib Require Import ZArith List Lia Bool Reals Lra.
From stdpp Require Import gmap strings.
Import ListNotations.

Local Open Scope Z_scope.

(** ** Array helpers shared by the modules below *)

(** Three-level indexing [m[b, i, j]]. *)
Definition idx3 {A} (m : list (list (list A))) (b i j : nat) : option A :=
  r ← m !! b; c ← r !! i; c !! j.

(** * Attention mask builder: [make_attn_mask] *)
Module AttnMask.

(** [jnp.cumsum] along the sequence axis of one row. *)
Fixpoint cumsum_from (acc : Z) (l : list Z) : list Z :=
  match l with
  | [] => []
  | x :: r => (acc + x) :: cumsum_from (acc + x) r
  end.

Definition cumsum (l : list Z) : list Z := cumsum_from 0 l.

(** The autoregressive flags are passed as a scalar, as one row or as a
    rank-2 array. *)
Inductive ar_arg :=
| ArScalar (x : Z)
| ArRow (row : list Z)
| ArBatch (rows : list (list Z)).

(** Broadcasting one row to [s] columns: a row of that length is kept, a
    row of length 1 is stretched, anything else is a shape error. *)
Definition broadcast_row (row : list Z) (s : nat) : option (list Z) :=
  if decide (length row = s) then Some row
  else match row with
       | [x] => Some (replicate s x)
       | _ => None
       end.

(** [jnp.broadcast_to(mask_ar, input_mask.shape)]; [None] is the shape
    error raised when the flags cannot be broadcast.  A batch axis of
    length 1 is stretched like a column axis of length 1. *)
Definition broadcast_to (mask_ar : ar_arg) (input_mask : list (list bool))
  : option (list (list Z)) :=
  match mask_ar with
  | ArScalar x =>
      Some ((fun v : list bool => replicate (length v) x) <$> input_mask)
  | ArRow row =>
      mapM (fun v : list bool => broadcast_row row (length v)) input_mask
  | ArBatch rows =>
      if decide (length rows = length input_mask) then
        mapM (fun rv : list Z * list bool => broadcast_row rv.1 (length rv.2))
             (zip rows input_mask)
      else
        match rows with
        | [row] =>
            mapM (fun v : list bool => broadcast_row row (length v)) input_mask
        | _ => None
        end
  end.

(** [cumsum[:, None, :] <= cumsum[:, :, None]] for one example. *)
Definition causal_part (cs : list Z) : list (list bool) :=
  (fun ci => (fun cj => cj <=? ci) <$> cs) <$> cs.

(** [input_mask[:, None, :] * input_mask[:, :, None]] for one example. *)
Definition valid_part (valid : list bool) : list (list bool) :=
  (fun vi => (fun vj => vj && vi) <$> valid) <$> valid.

(** [jnp.logical_and] of two matrices. *)
Definition logical_and2 (a b : list (list bool)) : list (list bool) :=
  zip_with (zip_with andb) a b.

Definition make_attn_mask (input_mask : list (list bool)) (mask_ar : ar_arg)
  : option (list (list (list bool))) :=
  ar ← broadcast_to mask_ar input_mask;
  Some (zip_with
          (fun valid arow => logical_and2 (causal_part (cumsum arow)) (valid_part valid))
          input_mask ar).

End AttnMask.

(** * Alignment utility: [left_to_right_align] *)
Module Align.

(** [jnp.roll(l, shift, axis=0)]: the element at index [i] of the result
    is the element at index [(i - shift) mod n] of [l]. *)
Definition roll {A} (shift : Z) (l : list A) : list A :=
  let k := Z.to_nat ((- shift) mod Z.of_nat (length l)) in
  drop k l ++ take k l.

(** [jnp.roll(m, shift, axis=(0, 1))]. *)
Definition roll2 {A} (shift : Z) (m : list (list A)) : list (list A) :=
  roll shift (roll shift <$> m).

(** [jnp.arange(n)]. *)
Definition arange (n : nat) : list Z := Z.of_nat <$> seq 0 n.

(** [input_mask * idx] with a boolean mask. *)
Definition mask_times (input_mask : list bool) (idx : list Z) : list Z :=
  zip_with (fun (v : bool) i => if v then i else 0) input_mask idx.

(** [jnp.max]; it raises on an empty array. *)
Definition jnp_max (l : list Z) : option Z :=
  match l with
  | [] => None
  | x :: r => Some (foldr Z.max x r)
  end.

(** The body of [left_to_right_align] for one example ([jax.vmap] maps it
    over the batch).  [None] stands for a failed assertion or the error
    raised by [jnp.max] on a sequence of length zero. *)
Definition left_to_right_align {E} (x : list E) (input_mask : list bool)
    (attn_mask : list (list bool))
  : option (list E * list bool * list (list bool)) :=
  if negb (length x =? length input_mask)%nat then None
  else if negb (forallb (fun r => (length r =? length attn_mask)%nat) attn_mask) then None
  else
    m ← jnp_max (mask_times input_mask (arange (length input_mask)));
    let seqlen := m + 1 in
    Some (roll (- seqlen) x, roll (- seqlen) input_mask, roll2 (- seqlen) attn_mask).

(** A validity mask that is 1 on a prefix of length [L] and 0 afterwards. *)
Definition prefix_mask (n L : nat) : list bool :=
  replicate L true ++ replicate (n - L) false.

End Align.

(** * The collaborators: observation, backbone, random-number runtime *)

(** [openpi.models.model.Observation], batched.  [images] keeps the
    declaration order of the cameras (a Python dict iterates in insertion
    order); the optional fields are the ones the models assert on. *)
Record Observation (Image : Type) := {
  images : list (string * list Image);
  image_masks : gmap string (list bool);
  state : list (list R);
  tokenized_prompt : option (list (list Z));
  tokenized_prompt_mask : option (list (list bool));
  token_ar_mask : option (list (list Z));
  token_loss_mask : option (list (list bool));
}.
Arguments images {Image} _.
Arguments image_masks {Image} _.
Arguments state {Image} _.
Arguments tokenized_prompt {Image} _.
Arguments tokenized_prompt_mask {Image} _.
Arguments token_ar_mask {Image} _.
Arguments token_loss_mask {Image} _.

(** The PaliGemma pair ([PaliGemma.img], [PaliGemma.llm]) seen through the
    calls the two model files make.  Logits are vocabulary-sized vectors of
    reals. *)
Record Backbone := {
  Image : Type;
  Emb : Type;
  PreLogit : Type;
  Cache : Type;
  (** [PaliGemma.img(image, train=False)] on one example; the number of
      tokens it returns is fixed by the encoder. *)
  img : Image -> list Emb;
  img_tokens : nat;
  img_length : forall im, length (img im) = img_tokens;
  (** [PaliGemma.llm(tokens, embed_only=True)] on one token. *)
  llm_embed : Z -> Emb;
  (** [PaliGemma.llm(embedded_prefix=, mask=, return_prelogits=True)]. *)
  llm_prelogits :
    list (list Emb) -> list (list (list bool)) -> list (list PreLogit);
  (** [PaliGemma.llm(pre_logits=)]. *)
  llm_decode_logits : list (list PreLogit) -> list (list (list R));
  (** [PaliGemma.llm(embedded_prefix=, mask=, positions=, decode=True)],
      without and with a cache. *)
  llm_prefill :
    list (list Emb) -> list (list (list bool)) -> list (list Z) ->
    list (list (list R)) * Cache;
  llm_step :
    list (list Emb) -> list (list (list bool)) -> list (list Z) -> Cache ->
    list (list (list R)) * Cache;
  vocab_size : nat;
  (** [_model.preprocess_observation(rng, obs, train=, image_keys=)];
      the flag says whether a key was passed. *)
  preprocess_observation : bool -> Observation Image -> bool -> Observation Image;
}.

(** [jax.random]: key splitting and categorical sampling of one token per
    example from a batch of logit rows. *)
Record Random := {
  Key : Type;
  split : Key -> Key * Key;
  categorical : Key -> list (list (list R)) -> list (list Z);
}.

(** * Sequence embedder: [embed_inputs], [embed_inputs_with_prev_action],
      [embed_inputs_with_current_action] *)
Module Embedder.

(** A rank-3 float array with its [shape] attribute. *)
Record Array3 := {
  shape3 : nat * nat * nat;
  data3 : list (list (list R));
}.

Definition wf_array3 (a : Array3) : Prop :=
  let '(b, h, d) := shape3 a in
  length (data3 a) = b /\
  Forall (fun rows => length rows = h /\ Forall (fun v => length v = d) rows) (data3 a).

(** [jnp.concatenate(parts, axis=1)]: the parts must agree on the batch
    size, and there must be at least one. *)
Fixpoint concatenate1 {A} (parts : list (list (list A))) : option (list (list A)) :=
  match parts with
  | [] => None
  | [p] => Some p
  | p :: rest =>
      r ← concatenate1 rest;
      if decide (length p = length r) then Some (zip_with app p r) else None
  end.

(** [einops.repeat(mask, "b -> b s", s=s)]. *)
Definition repeat_b_s (mask : list bool) (s : nat) : list (list bool) :=
  (fun v => replicate s v) <$> mask.

(** [0 * mask] on a boolean array: an integer array of zeros. *)
Definition zero_times (mask : list (list bool)) : list (list Z) :=
  (fun row : list bool => (fun v : bool => 0 * (if v then 1 else 0)) <$> row) <$> mask.

(** [einops.rearrange(a, "(b ah) e -> b ah e", b=b, ah=ah)]. *)
Fixpoint chunks {A} (b ah : nat) (flat : list A) : list (list A) :=
  match b with
  | O => []
  | S b' => take ah flat :: chunks b' ah (drop ah flat)
  end.

Definition unflatten {A} (b ah : nat) (flat : list A) : option (list (list A)) :=
  if decide (length flat = (b * ah)%nat) then Some (chunks b ah flat) else None.

Section WithBackbone.
Context (M : Backbone).

(** The three lists the embedders build up by [append]. *)
Definition Parts : Type :=
  list (list (list (Emb M))) * list (list (list bool)) * list (list (list Z)).

(** The loop [for name in obs.images]. *)
Fixpoint embed_images (ims : list (string * list (Image M)))
    (masks : gmap string (list bool)) (acc : Parts) : option Parts :=
  match ims with
  | [] => Some acc
  | (name, batch) :: rest =>
      let '(token_embeddings, input_mask, ar_mask) := acc in
      let image_token_embeddings := img M <$> batch in
      mask ← masks !! name;
      let m := repeat_b_s mask (img_tokens M) in
      embed_images rest masks
        (token_embeddings ++ [image_token_embeddings],
         input_mask ++ [m],
         ar_mask ++ [zero_times m])
  end.

(** The block guarded by [actions is not None and use_..._action_input]. *)
Definition embed_action (proj : list R -> Emb M) (use_action_input : bool)
    (actions : option Array3) (acc : Parts) : option Parts :=
  match actions with
  | Some a =>
      if use_action_input then
        let '(token_embeddings, input_mask, ar_mask) := acc in
        let '(batch_size, action_horizon, action_dim) := shape3 a in
        let actions_flat := concat (data3 a) in
        let action_emb_flat := proj <$> actions_flat in
        action_emb ← unflatten batch_size action_horizon action_emb_flat;
        Some (token_embeddings ++ [action_emb],
              input_mask ++ [replicate batch_size (replicate action_horizon true)],
              ar_mask ++ [replicate batch_size (replicate action_horizon 0)])
      else Some acc
  | None => Some acc
  end.

(** The tokenized inputs and the final concatenation. *)
Definition embed_tokens (obs : Observation (Image M)) (acc : Parts)
  : option (list (list (Emb M)) * list (list bool) * list (list Z)) :=
  let '(token_embeddings, input_mask, ar_mask) := acc in
  prompt ← tokenized_prompt obs;
  prompt_mask ← tokenized_prompt_mask obs;
  prompt_ar ← token_ar_mask obs;
  let tokenized_inputs_embeddings := (fun row : list Z => llm_embed M <$> row) <$> prompt in
  e ← concatenate1 (token_embeddings ++ [tokenized_inputs_embeddings]);
  m ← concatenate1 (input_mask ++ [prompt_mask]);
  a ← concatenate1 (ar_mask ++ [prompt_ar]);
  Some (e, m, a).

(** [embed_inputs]: images then tokens, no action span. *)
Definition embed_inputs (obs : Observation (Image M)) :=
  acc ← embed_images (images obs) (image_masks obs) ([], [], []);
  embed_tokens obs acc.

(** The body shared by [embed_inputs_with_prev_action] and
    [embed_inputs_with_current_action]. *)
Definition embed_sequence (proj : list R -> Emb M)
    (use_action_input : bool) (obs : Observation (Image M))
    (actions : option Array3) :=
  acc ← embed_images (images obs) (image_masks obs) ([], [], []);
  acc ← embed_action proj use_action_input actions acc;
  embed_tokens obs acc.

(** The decorator [@at.typecheck] of these two functions: the actions
    argument is annotated ["b ah ad"] and the three results ["b s emb"],
    ["b s"] and ["b s"], so one batch size [b] is shared by the actions
    (when given) and the three results, and one sequence length [s] by the
    three results; a result that does not fit raises. *)
Definition typecheck (actions : option Array3)
    (result : list (list (Emb M)) * list (list bool) * list (list Z))
  : option (list (list (Emb M)) * list (list bool) * list (list Z)) :=
  let '(e, m, a) := result in
  let b := length e in
  let s := match e with [] => 0%nat | row :: _ => length row end in
  let actions_ok :=
    match actions with
    | Some act => bool_decide ((shape3 act).1.1 = b)
    | None => true
    end in
  if actions_ok
     && bool_decide (length m = b) && bool_decide (length a = b)
     && bool_decide (Forall (fun row => length row = s) e)
     && bool_decide (Forall (fun row => length row = s) m)
     && bool_decide (Forall (fun row => length row = s) a)
  then Some result else None.

(** [embed_inputs_with_prev_action] and [embed_inputs_with_current_action]:
    the body under the decorator. *)
Definition embed_inputs_with_action (proj : list R -> Emb M)
    (use_action_input : bool) (obs : Observation (Image M))
    (actions : option Array3) :=
  result ← embed_sequence proj use_action_input obs actions;
  typecheck actions result.

(** ** The layout of an embedder result, used to state its properties *)

(** Row [k] of the concatenation of [parts] along the sequence axis. *)
Definition row_of {A} (parts : list (list (list A))) (k : nat) : list A :=
  concat ((fun p : list (list A) => default [] (p !! k)) <$> parts).

(** What the image loop appends to the three lists. *)
Definition image_embs (ims : list (string * list (Image M))) :=
  (fun nb : string * list (Image M) => img M <$> nb.2) <$> ims.
Definition image_valid (ims : list (string * list (Image M)))
    (masks : gmap string (list bool)) :=
  (fun nb : string * list (Image M) =>
     repeat_b_s (default [] (masks !! nb.1)) (img_tokens M)) <$> ims.

(** What the action block appends, and how long the span is. *)
Definition action_span (use_action_input : bool) (actions : option Array3) : nat :=
  match actions with
  | Some a => if use_action_input then (shape3 a).1.2 else 0%nat
  | None => 0%nat
  end.

Definition action_embs (proj : list R -> Emb M) (use_action_input : bool)
    (actions : option Array3) : list (list (list (Emb M))) :=
  match actions with
  | Some a =>
      if use_action_input
      then [(fun rows : list (list R) => proj <$> rows) <$> data3 a] else []
  | None => []
  end.

Definition action_const {A} (x : A) (use_action_input : bool)
    (actions : option Array3) : list (list (list A)) :=
  match actions with
  | Some a =>
      if use_action_input
      then [replicate (shape3 a).1.1 (replicate (shape3 a).1.2 x)] else []
  | None => []
  end.

Definition wf_actions (actions : option Array3) (b : nat) : Prop :=
  match actions with
  | Some a => wf_array3 a /\ (shape3 a).1.1 = b
  | None => True
  end.

(** A well-formed observation of batch size [b] whose prompt arrays have
    [T] columns: every camera has [b] images and a mask entry of [b] flags. *)
Definition wf_obs (obs : Observation (Image M)) (b T : nat)
    (prompt : list (list Z)) (pmask : list (list bool)) (par : list (list Z)) : Prop :=
  Forall (fun nb : string * list (Image M) =>
            length nb.2 = b /\
            exists mask, image_masks obs !! nb.1 = Some mask /\ length mask = b)
         (images obs) /\
  tokenized_prompt obs = Some prompt /\
  tokenized_prompt_mask obs = Some pmask /\
  token_ar_mask obs = Some par /\
  (length prompt = b /\ Forall (fun row => length row = T) prompt) /\
  (length pmask = b /\ Forall (fun row => length row = T) pmask) /\
  (length par = b /\ Forall (fun row => length row = T) par).

(** The layout of an embedder result for batch size [b] and prompt length
    [T]: [b] rows of length [img_tokens * num_images + action_span + T],
    each made of the image segment, the action span (validity all true,
    autoregressive flag 0) and the text tokens, in that order. *)
Definition layout (proj : list R -> Emb M) (use_action_input : bool)
    (obs : Observation (Image M)) (actions : option Array3) (b T : nat)
    (prompt : list (list Z)) (pmask : list (list bool)) (par : list (list Z))
    (result : option (list (list (Emb M)) * list (list bool) * list (list Z)))
  : Prop :=
  let span := action_span use_action_input actions in
  let nimg := length (images obs) in
  exists e m a,
    result = Some (e, m, a) /\
    length e = b /\ length m = b /\ length a = b /\
    forall k, (k < b)%nat ->
    exists erow mrow arow prow pmrow parow,
      e !! k = Some erow /\ m !! k = Some mrow /\ a !! k = Some arow /\
      prompt !! k = Some prow /\ pmask !! k = Some pmrow /\ par !! k = Some parow /\
      length erow = (img_tokens M * nimg + span + T)%nat /\
      length mrow = (img_tokens M * nimg + span + T)%nat /\
      length arow = (img_tokens M * nimg + span + T)%nat /\
      erow = row_of (image_embs (images obs)) k
               ++ row_of (action_embs proj use_action_input actions) k
               ++ (llm_embed M <$> prow) /\
      length (row_of (image_embs (images obs)) k) = (img_tokens M * nimg)%nat /\
      length (row_of (action_embs proj use_action_input actions) k) = span /\
      mrow = row_of (image_valid (images obs) (image_masks obs)) k
               ++ replicate span true ++ pmrow /\
      length (row_of (image_valid (images obs) (image_masks obs)) k)
        = (img_tokens M * nimg)%nat /\
      arow = replicate (img_tokens M * nimg) 0 ++ replicate span 0 ++ parow.

End WithBackbone.

End Embedder.

(** * Python slices used by the models *)
Module Slice.

(** [row[:-1]]. *)
Definition drop_last {A} (row : list A) : list A := take (length row - 1) row.

(** [row[1:]]. *)
Definition drop_first {A} (row : list A) : list A := drop 1 row.

(** [row[-n:]]: the last [n] elements for [n > 0]; for [n = 0] Python
    reads it as [row[0:]], the whole row, and for [n < 0] as [row[|n|:]]. *)
Definition slice_last {A} (n : Z) (row : list A) : list A :=
  if n =? 0 then row
  else if n <? 0 then drop (Z.to_nat (- n)) row
  else drop (length row - Z.to_nat n) row.

(** [arr.shape[1]] of a rank-2 (or higher) array given as its rows. *)
Definition shape1 {A} (arr : list (list A)) : nat :=
  match arr with
  | [] => 0%nat
  | row :: _ => length row
  end.

End Slice.

(** * Decode loop: [put_along_last_axis] and [sample_actions] *)
Module Decode.
Import AttnMask Align Slice.

Definition PALIGEMMA_EOS_TOKEN : Z := 1.

(** [jax.nn.one_hot(idx, n)]: compares [idx] with [arange(n)]. *)
Definition one_hot (idx : Z) (n : nat) : list Z :=
  (fun c : nat => if decide (idx = Z.of_nat c) then 1 else 0) <$> seq 0 n.

(** Token ids and their one-hot rows are [int32]: a sum that leaves
    [-2^31, 2^31) wraps around. *)
Definition wrap32 (z : Z) : Z := (z + 2 ^ 31) mod 2 ^ 32 - 2 ^ 31.

(** The sum of a list of [int32] terms; one addition per further term. *)
Fixpoint sum32 (l : list Z) : Z :=
  match l with
  | [] => 0
  | x :: r =>
      match r with
      | [] => x
      | _ :: _ => wrap32 (x + sum32 r)
      end
  end.

(** [jnp.einsum("...i,...in->...n", a, onehot)] on one row; the entries of
    [onehot] are 0 or 1, so the products are exact. *)
Definition einsum_i_in_n (a : list Z) (onehot : list (list Z)) (n : nat) : list Z :=
  (fun c : nat =>
     sum32
       (zip_with (fun ai (row : list Z) => ai * default 0 (row !! c)) a onehot))
    <$> seq 0 n.

(** [put_along_last_axis] on one row of the buffer. *)
Definition put_along_last_axis_row (arr indices values : list Z) : list Z :=
  let n := length arr in
  let onehot := (fun i : Z => one_hot i n) <$> indices in
  let put_mask := einsum_i_in_n ((fun _ : Z => 1) <$> values) onehot n in
  let put_values := einsum_i_in_n values onehot n in
  zip_with (fun (mv : Z * Z) a => if decide (mv.1 = 0) then a else mv.2)
           (zip put_mask put_values) arr.

Definition put_along_last_axis (arr indices values : list (list Z)) : list (list Z) :=
  zip_with (fun a (iv : list Z * list Z) => put_along_last_axis_row a iv.1 iv.2)
           arr (zip indices values).

(** [jnp.argmax] over the last axis: the first index holding the maximum. *)
Fixpoint argmax_from (best : R) (besti i : Z) (l : list R) : Z :=
  match l with
  | [] => besti
  | x :: r =>
      if Rlt_dec best x then argmax_from x i (i + 1) r
      else argmax_from best besti (i + 1) r
  end.

Definition argmax (l : list R) : Z :=
  match l with
  | [] => 0
  | x :: r => argmax_from x 0 1 r
  end.

Section Loop.
Context (M : Backbone) (Rnd : Random).

(** The carry of [jax.lax.while_loop]:
    [(rng, last_logit, output_tokens, cache, all_eos, step)]. *)
Record Carry := {
  c_rng : Key Rnd;
  c_last_logit : list (list (list R));
  c_output_tokens : list (list Z);
  c_cache : Cache M;
  c_all_eos : bool;
  c_step : nat;
}.

(** The quantities [step] and [cond] close over. *)
Context (temperature : R) (max_decoding_steps : nat)
        (prefill_size : nat) (prefill_len prefix_start : list Z).

(** The [jax.lax.cond] choosing between sampling and arg-max. *)
Definition select_token (rng_step : Key Rnd) (last_logit : list (list (list R)))
  : list (list Z) :=
  if Rlt_dec 0 temperature
  then categorical Rnd rng_step
         ((fun rows : list (list R) =>
             (fun row : list R => (fun x => x / temperature)%R <$> row) <$> rows)
            <$> last_logit)
  else (fun rows : list (list R) => argmax <$> rows) <$> last_logit.

(** [has_eos] and [all_eos] of one step. *)
Definition has_eos (token : list (list Z)) : list bool :=
  (fun row : list Z => existsb (fun t => t =? PALIGEMMA_EOS_TOKEN) row) <$> token.

Definition all_eos (token : list (list Z)) : bool :=
  forallb (fun v : bool => v) (has_eos token).

Definition step (carry : Carry) : Carry :=
  let last_logit := c_last_logit carry in
  let step := c_step carry in
  let '(rng, rng_step) := split Rnd (c_rng carry) in
  let token := select_token rng_step last_logit in
  let output_tokens :=
    put_along_last_axis (c_output_tokens carry)
      (replicate (length token) [Z.of_nat step]) token in
  let all_eos := all_eos token in
  let token_embedding := (fun row : list Z => llm_embed M <$> row) <$> token in
  let positions := (fun len : Z => [len + Z.of_nat step + 1]) <$> prefill_len in
  let mask :=
    (fun start : Z =>
       [(fun i : Z => (start <=? i) && (i <? Z.of_nat prefill_size + Z.of_nat step + 1))
          <$> arange (prefill_size + max_decoding_steps)])
      <$> prefix_start in
  let '(last_logit', kv_cache) :=
    llm_step M token_embedding mask positions (c_cache carry) in
  {| c_rng := rng; c_last_logit := last_logit'; c_output_tokens := output_tokens;
     c_cache := kv_cache; c_all_eos := all_eos; c_step := S step |}.

(** The token one step selects, given the carry it starts from. *)
Definition step_token (carry : Carry) : list (list Z) :=
  select_token (split Rnd (c_rng carry)).2
    (c_last_logit carry).

Definition cond (carry : Carry) : bool :=
  negb (c_all_eos carry) && (c_step carry <? max_decoding_steps)%nat.

(** [jax.lax.while_loop(cond, step, init)], with an iteration budget. *)
Fixpoint while_loop (fuel : nat) (carry : Carry) : Carry :=
  match fuel with
  | O => carry
  | S fuel' => if cond carry then while_loop fuel' (step carry) else carry
  end.

End Loop.

Arguments c_rng {M Rnd} _.
Arguments c_last_logit {M Rnd} _.
Arguments c_output_tokens {M Rnd} _.
Arguments c_cache {M Rnd} _.
Arguments c_all_eos {M Rnd} _.
Arguments c_step {M Rnd} _.

(** Every buffer row has [max_decoding_steps] columns and the columns at or
    after the step counter still hold the initial 0. *)
Definition buffer_ok (M : Backbone) (Rnd : Random) (max_decoding_steps : nat)
    (carry : Carry M Rnd) : Prop :=
  forall b row, c_output_tokens carry !! b = Some row ->
    length row = max_decoding_steps /\
    forall j, (c_step carry <= j < max_decoding_steps)%nat -> row !! j = Some 0.

(** Two carries that agree on everything but the random key. *)
Definition same_but_rng (M : Backbone) (Rnd1 Rnd2 : Random)
    (c1 : Carry M Rnd1) (c2 : Carry M Rnd2) : Prop :=
  c_last_logit c1 = c_last_logit c2 /\
  c_output_tokens c1 = c_output_tokens c2 /\
  c_cache c1 = c_cache c2 /\
  c_all_eos c1 = c_all_eos c2 /\
  c_step c1 = c_step c2.

(** [jax.vmap(left_to_right_align)]. *)
Definition vmap_left_to_right_align {E} (x : list (list E))
    (input_mask : list (list bool)) (attn_mask : list (list (list bool)))
  : option (list (list E) * list (list bool) * list (list (list bool))) :=
  if decide (length x = length input_mask /\ length x = length attn_mask) then
    rows ← mapM (fun t : list E * list bool * list (list bool) =>
                   left_to_right_align t.1.1 t.1.2 t.2)
                (zip (zip x input_mask) attn_mask);
    Some ((fun t : list E * list bool * list (list bool) => t.1.1) <$> rows,
          (fun t : list E * list bool * list (list bool) => t.1.2) <$> rows,
          (fun t : list E * list bool * list (list bool) => t.2) <$> rows)
  else None.

Section SampleActions.
Context (M : Backbone) (Rnd : Random).

(** Everything [sample_actions] computes before the loop. *)
Record Prefill := {
  p_prefill_size : nat;
  p_prefill_len : list Z;
  p_prefix_start : list Z;
  p_last_logit : list (list (list R));
  p_kv_cache : Cache M;
}.

Definition count_true (row : list bool) : Z :=
  foldr Z.add 0 ((fun v : bool => if v then 1 else 0) <$> row).

Definition prefill
    (embed : Observation (Image M) -> option Embedder.Array3 ->
             option (list (list (Emb M)) * list (list bool) * list (list Z)))
    (observation : Observation (Image M)) (actions : option Embedder.Array3)
    (max_decoding_steps : nat) : option Prefill :=
  let observation := preprocess_observation M false observation false in
  '(prefix_token_embeddings, prefix_mask, prefix_ar_mask) ← embed observation actions;
  prefix_attn_mask ← make_attn_mask prefix_mask (ArBatch prefix_ar_mask);
  '(prefix_token_embeddings, prefix_mask, prefix_attn_mask) ←
    vmap_left_to_right_align prefix_token_embeddings prefix_mask prefix_attn_mask;
  let prefill_size := shape1 prefix_token_embeddings in
  let prefill_len := count_true <$> prefix_mask in
  let prefix_start := (fun len : Z => Z.of_nat prefill_size - len) <$> prefill_len in
  let prefix_attn_mask :=
    (fun m : list (list bool) =>
       (fun row : list bool => row ++ replicate max_decoding_steps false) <$> m)
      <$> prefix_attn_mask in
  let prefix_positions :=
    (fun row : list bool =>
       (fun c : Z => c - 1) <$> cumsum ((fun v : bool => if v then 1 else 0) <$> row))
      <$> prefix_mask in
  let '(prefix_logits, kv_cache) :=
    llm_prefill M prefix_token_embeddings prefix_attn_mask prefix_positions in
  Some {| p_prefill_size := prefill_size; p_prefill_len := prefill_len;
          p_prefix_start := prefix_start;
          p_last_logit := slice_last 1 <$> prefix_logits;
          p_kv_cache := kv_cache |}.

(** The initial carry [(rng, last_logit, output_tokens, kv_cache, False, 0)]. *)
Definition init_carry (rng : Key Rnd) (p : Prefill) (max_decoding_steps : nat)
  : Carry M Rnd :=
  {| c_rng := rng; c_last_logit := p_last_logit p;
     c_output_tokens :=
       replicate (length (p_last_logit p)) (replicate max_decoding_steps 0);
     c_cache := p_kv_cache p; c_all_eos := false; c_step := 0 |}.

Definition decode_loop (rng : Key Rnd) (p : Prefill) (max_decoding_steps : nat)
    (temperature : R) : Carry M Rnd :=
  while_loop M Rnd temperature max_decoding_steps
    (p_prefill_size p) (p_prefill_len p) (p_prefix_start p)
    max_decoding_steps (init_carry rng p max_decoding_steps).

Definition sample_actions
    (embed : Observation (Image M) -> option Embedder.Array3 ->
             option (list (list (Emb M)) * list (list bool) * list (list Z)))
    (rng : Key Rnd) (observation : Observation (Image M))
    (actions : option Embedder.Array3) (max_decoding_steps : nat)
    (temperature : R) : option (list (list Z)) :=
  p ← prefill embed observation actions max_decoding_steps;
  Some (c_output_tokens (decode_loop rng p max_decoding_steps temperature)).

End SampleActions.

Arguments p_prefill_size {M} _.
Arguments p_prefill_len {M} _.
Arguments p_prefix_start {M} _.
Arguments p_last_logit {M} _.
Arguments p_kv_cache {M} _.

End Decode.

(** * Loss composer: the array arithmetic of [compute_loss] *)
Module Loss.
Local Open Scope R_scope.

Definition sumR (l : list R) : R := foldr Rplus 0 l.

(** [jax.nn.one_hot(tok, n)] as floats. *)
Definition one_hot (tok : Z) (n : nat) : list R :=
  (fun c : nat => if decide (tok = Z.of_nat c) then 1 else 0) <$> seq 0 n.

(** [jax.nn.log_softmax] and [jax.nn.softmax] over the last axis. *)
Definition log_softmax (row : list R) : list R :=
  let lse := ln (sumR (exp <$> row)) in (fun x => x - lse) <$> row.

Definition softmax (row : list R) : list R :=
  let z := sumR (exp <$> row) in (fun x => exp x / z) <$> row.

(** A boolean mask entry used as a number. *)
Definition mask_val (v : bool) : R := if v then 1 else 0.

(** [jnp.clip(x, lo)]: only a lower bound is given. *)
Definition clip_min (x lo : R) : R := Rmax x lo.

(** One axis of an elementwise operation under NumPy broadcasting: two
    operands of the same length are combined entry by entry, an operand of
    length 1 is stretched over the other, and any other pair of lengths
    raises ([None]). *)
Definition bcast {A B C} (f : A -> B -> option C) (a : list A) (b : list B)
  : option (list C) :=
  if decide (length a = length b) then
    mapM (fun ab : A * B => f ab.1 ab.2) (zip a b)
  else
    match a, b with
    | [x], _ => mapM (f x) b
    | _, [y] => mapM (fun x => f x y) a
    | _, _ => None
    end.

Definition pure2 {A B C} (f : A -> B -> C) (a : A) (b : B) : option C :=
  Some (f a b).

(** Elementwise operations on arrays of rank 1, 2 and 3. *)
Definition zip1 {A B C} (f : A -> B -> C) (a : list A) (b : list B)
  : option (list C) :=
  bcast (pure2 f) a b.

Definition zip2 {A B C} (f : A -> B -> C) (a : list (list A)) (b : list (list B))
  : option (list (list C)) :=
  bcast (bcast (pure2 f)) a b.

Definition zip3 {A B C} (f : A -> B -> C)
    (a : list (list (list A))) (b : list (list (list B)))
  : option (list (list (list C))) :=
  bcast (bcast (bcast (pure2 f))) a b.

(** Operations on one array, and the reduction of the last axis. *)
Definition map3 (f : R -> R) (a : list (list (list R))) : list (list (list R)) :=
  (fun m : list (list R) => (fun row : list R => f <$> row) <$> m) <$> a.

Definition rows3 (f : list R -> list R) (a : list (list (list R)))
  : list (list (list R)) :=
  (fun m : list (list R) => f <$> m) <$> a.

Definition sum_last3 (a : list (list (list R))) : list (list R) :=
  (fun m : list (list R) => sumR <$> m) <$> a.

(** [jnp.sum(x * loss_mask, axis=-1)]. *)
Definition masked_sum (x : list (list R)) (loss_mask : list (list bool))
  : option (list R) :=
  prod ← zip2 (fun c v => c * mask_val v) x loss_mask;
  Some (sumR <$> (prod : list (list R))).

(** [jnp.clip(jnp.sum(loss_mask, -1), 1)]. *)
Definition denominator (loss_mask : list (list bool)) : list R :=
  (fun mr : list bool => clip_min (sumR (mask_val <$> mr)) 1) <$> loss_mask.

Definition div1 (a b : list R) : option (list R) := zip1 Rdiv a b.

(** [jax.nn.one_hot(tokenized_prompt[:, 1:], vocab_size)]. *)
Definition targets_of (prompt : list (list Z)) (vocab : nat) : list (list (list R)) :=
  (fun row : list Z => (fun t : Z => one_hot t vocab) <$> Slice.drop_first row)
    <$> prompt.

(** The cross-entropy term of the distillation variant:
    [ce_loss = -jnp.sum(targets * student_logp, axis=-1)] followed by
    [jnp.sum(ce_loss * loss_mask, axis=-1) / jnp.clip(jnp.sum(loss_mask, -1), 1)]. *)
Definition ce_loss (targets logits : list (list (list R)))
    (loss_mask : list (list bool)) : option (list R) :=
  let student_logp := rows3 log_softmax logits in
  prod ← zip3 Rmult targets student_logp;
  let ce := (fun row : list R => Ropp <$> row) <$> sum_last3 prod in
  num ← masked_sum ce loss_mask;
  div1 num (denominator loss_mask).

(** The predictive variant's return expression:
    [token_pplx = jnp.sum(targets * logp, axis=-1)] and
    [-jnp.sum(token_pplx * loss_mask, axis=-1) / jnp.clip(jnp.sum(loss_mask, -1), 1)]. *)
Definition predictive_loss (targets logits : list (list (list R)))
    (loss_mask : list (list bool)) : option (list R) :=
  let logp := rows3 log_softmax logits in
  prod ← zip3 Rmult targets logp;
  let token_pplx := sum_last3 prod in
  num ← masked_sum token_pplx loss_mask;
  div1 (Ropp <$> num) (denominator loss_mask).

Definition eps : R := 1e-8.

(** An array without a single entry. *)
Definition no_entry (x : list (list (list R))) : bool :=
  forallb (forallb (fun row : list R =>
                      match row with [] => true | _ :: _ => false end)) x.

(** [logits / temperature].  Dividing by a temperature of 0 turns every
    entry into inf or NaN, and the softmax of such a row is NaN: the loss
    then has no finite value, which [None] stands for as well. *)
Definition div_temp (x : list (list (list R))) (temp : R)
  : option (list (list (list R))) :=
  if Req_EM_T temp 0 then (if no_entry x then Some x else None)
  else Some (map3 (fun v => v / temp) x).

(** The KL term: probabilities at temperature [temp], the per-position
    divergence, the mask and the normalisation. *)
Definition kl_loss (student_logits teacher_logits : list (list (list R)))
    (temp : R) (loss_mask : list (list bool)) : option (list R) :=
  student_scaled ← div_temp student_logits temp;
  teacher_scaled ← div_temp teacher_logits temp;
  let student_probs := rows3 softmax student_scaled in
  let teacher_probs := rows3 softmax teacher_scaled in
  diff ← zip3 Rminus (map3 (fun p => ln (p + eps)) teacher_probs)
                     (map3 (fun p => ln (p + eps)) student_probs);
  kl_div ← zip3 Rmult teacher_probs diff;
  let kl_div := sum_last3 kl_div in
  num ← masked_sum kl_div loss_mask;
  div1 num (denominator loss_mask).

(** [ce_loss + kl_weight * kl_loss]. *)
Definition combine (ce : list R) (kl_weight : R) (kl : list R) : option (list R) :=
  zip1 Rplus ce ((fun k => kl_weight * k) <$> kl).

End Loss.

(** * The loss operations on operands of equal shapes

    Where both operands of every elementwise operation have the same
    shape, broadcasting does nothing and the loss is a plain entry-by-entry
    computation.  These forms are what the facts about [Loss] are stated
    with. *)
Module SameShape.
Import Loss.
Local Open Scope R_scope.

(** An array of rank 2 with [b] rows of [s] entries, and one of rank 3. *)
Definition has_shape2 {A} (b s : nat) (x : list (list A)) : Prop :=
  length x = b /\ Forall (fun row => length row = s) x.

Definition has_shape3 {A} (b s v : nat) (x : list (list (list A))) : Prop :=
  length x = b /\ Forall (has_shape2 s v) x.

Definition zip3 (f : R -> R -> R) (a b : list (list (list R)))
  : list (list (list R)) :=
  zip_with (zip_with (zip_with f)) a b.

Definition masked_sum (x : list (list R)) (loss_mask : list (list bool)) : list R :=
  zip_with (fun (xr : list R) (mr : list bool) =>
              sumR (zip_with (fun c v => c * mask_val v) xr mr))
           x loss_mask.

Definition div1 (a b : list R) : list R := zip_with Rdiv a b.

Definition ce_loss (targets logits : list (list (list R)))
    (loss_mask : list (list bool)) : list R :=
  let student_logp := rows3 log_softmax logits in
  let ce := (fun row : list R => Ropp <$> row)
              <$> sum_last3 (zip3 Rmult targets student_logp) in
  div1 (masked_sum ce loss_mask) (denominator loss_mask).

Definition kl_loss (student_logits teacher_logits : list (list (list R)))
    (temp : R) (loss_mask : list (list bool)) : list R :=
  let student_probs := rows3 softmax (map3 (fun x => x / temp) student_logits) in
  let teacher_probs := rows3 softmax (map3 (fun x => x / temp) teacher_logits) in
  let kl_div :=
    zip3 Rmult teacher_probs
      (zip3 Rminus (map3 (fun p => ln (p + eps)) teacher_probs)
                   (map3 (fun p => ln (p + eps)) student_probs)) in
  let kl_div := sum_last3 kl_div in
  div1 (masked_sum kl_div loss_mask) (denominator loss_mask).

Definition combine (ce : list R) (kl_weight : R) (kl : list R) : list R :=
  zip_with Rplus ce ((fun k => kl_weight * k) <$> kl).

End SameShape.

(** * The forward pass shared by the loss functions *)
Module Forward.
Import Slice.

(** [llm(embedded_prefix=emb[:, :-1], mask=attn[:, :-1, :-1],
    return_prelogits=True)] followed by
    [llm(pre_logits=pre_logits[:, -targets_shape:])]. *)
Definition logits_of {E P}
    (prelogits : list (list E) -> list (list (list bool)) -> list (list P))
    (decode : list (list P) -> list (list (list R)))
    (token_embeddings : list (list E)) (attn_mask : list (list (list bool)))
    (targets_shape : Z) : list (list (list R)) :=
  let pre_logits :=
    prelogits (drop_last <$> token_embeddings)
      ((fun m : list (list bool) => drop_last <$> drop_last m) <$> attn_mask) in
  decode (slice_last targets_shape <$> pre_logits).

End Forward.

(** * [Pi0FASTObsDistilled] *)
Module ObsDistilled.
Import AttnMask Slice.

Record Config := {
  kl_weight : R;
  teacher_temperature : R;
  use_teacher_model : bool;
  teacher_checkpoint : option string;
  use_prev_action_input : bool;
  action_dim : nat;
  action_horizon : nat;
  max_token_len : nat;
}.

(** [openpi.models.pi0_fast.Pi0FAST], which is not among these sources,
    through the members [compute_teacher_logits] touches: its own
    [embed_inputs] and its own [PaliGemma.llm]. *)
Record Pi0FAST (Image : Type) := {
  t_Emb : Type;
  t_PreLogit : Type;
  t_embed_inputs :
    Observation Image ->
    option (list (list t_Emb) * list (list bool) * list (list Z));
  t_llm_prelogits :
    list (list t_Emb) -> list (list (list bool)) -> list (list t_PreLogit);
  t_llm_decode_logits : list (list t_PreLogit) -> list (list (list R));
}.
Arguments t_Emb {Image} _.
Arguments t_PreLogit {Image} _.
Arguments t_embed_inputs {Image} _ _.
Arguments t_llm_prelogits {Image} _ _ _.
Arguments t_llm_decode_logits {Image} _ _.

Record Model := {
  config : Config;
  PaliGemma : Backbone;
  prev_action_proj : list R -> Emb PaliGemma;
  teacher_model : option (Pi0FAST (Image PaliGemma));
}.

(** Python truthiness of [config.teacher_checkpoint]. *)
Definition truthy (s : option string) : bool :=
  match s with
  | Some EmptyString => false
  | Some _ => true
  | None => false
  end.

(** [__init__]: the student backbone and projection are what the
    constructor builds from [rngs]; [new_teacher] is [Pi0FAST(teacher_config,
    rngs=rngs)], whose checkpoint is never loaded. *)
Definition init (cfg : Config) (student : Backbone)
    (proj : list R -> Emb student) (new_teacher : Pi0FAST (Image student))
  : Model :=
  {| config := cfg; PaliGemma := student; prev_action_proj := proj;
     teacher_model :=
       if use_teacher_model cfg && truthy (teacher_checkpoint cfg)
       then Some new_teacher
       else None |}.

Section WithModel.
Context (self : Model).

Definition embed_inputs (obs : Observation (Image (PaliGemma self))) :=
  Embedder.embed_inputs (PaliGemma self) obs.

Definition embed_inputs_with_prev_action
    (obs : Observation (Image (PaliGemma self)))
    (prev_actions : option Embedder.Array3) :=
  Embedder.embed_inputs_with_action (PaliGemma self) (prev_action_proj self)
    (use_prev_action_input (config self)) obs prev_actions.

Definition compute_student_logits
    (prev_observation : Observation (Image (PaliGemma self)))
    (prev_actions : option Embedder.Array3) : option (list (list (list R))) :=
  '(token_embeddings, input_mask, ar_mask) ←
    embed_inputs_with_prev_action prev_observation prev_actions;
  attn_mask ← make_attn_mask input_mask (ArBatch ar_mask);
  prompt ← tokenized_prompt prev_observation;
  let targets_shape := Z.of_nat (shape1 prompt) - 1 in
  Some (Forward.logits_of (llm_prelogits (PaliGemma self))
          (llm_decode_logits (PaliGemma self))
          token_embeddings attn_mask targets_shape).

(** The teacher path run on the student itself. *)
Definition self_distillation_logits
    (current_observation : Observation (Image (PaliGemma self)))
  : option (list (list (list R))) :=
  '(token_embeddings, input_mask, ar_mask) ← embed_inputs current_observation;
  attn_mask ← make_attn_mask input_mask (ArBatch ar_mask);
  prompt ← tokenized_prompt current_observation;
  let targets_shape := Z.of_nat (shape1 prompt) - 1 in
  Some (Forward.logits_of (llm_prelogits (PaliGemma self))
          (llm_decode_logits (PaliGemma self))
          token_embeddings attn_mask targets_shape).

(** The teacher path run on a separate model. *)
Definition separate_teacher_logits (teacher : Pi0FAST (Image (PaliGemma self)))
    (current_observation : Observation (Image (PaliGemma self)))
  : option (list (list (list R))) :=
  '(token_embeddings, input_mask, ar_mask) ←
    t_embed_inputs teacher current_observation;
  attn_mask ← make_attn_mask input_mask (ArBatch ar_mask);
  prompt ← tokenized_prompt current_observation;
  let targets_shape := Z.of_nat (shape1 prompt) - 1 in
  Some (Forward.logits_of (t_llm_prelogits teacher) (t_llm_decode_logits teacher)
          token_embeddings attn_mask targets_shape).

Definition compute_teacher_logits
    (current_observation : Observation (Image (PaliGemma self)))
  : option (list (list (list R))) :=
  match teacher_model self with
  | None => self_distillation_logits current_observation
  | Some teacher => separate_teacher_logits teacher current_observation
  end.

Definition compute_loss (observation : Observation (Image (PaliGemma self)))
    (train : bool)
    (prev_observation : option (Observation (Image (PaliGemma self))))
    (prev_actions : option Embedder.Array3) : option (list R) :=
  let student_obs := default observation prev_observation in
  let student_obs :=
    preprocess_observation (PaliGemma self) train student_obs train in
  student_logits ← compute_student_logits student_obs prev_actions;
  prompt ← tokenized_prompt student_obs;
  let targets := Loss.targets_of prompt (vocab_size (PaliGemma self)) in
  token_loss_mask ← token_loss_mask student_obs;
  let loss_mask := drop_first <$> token_loss_mask in
  ce_loss ← Loss.ce_loss targets student_logits loss_mask;
  if use_teacher_model (config self) then
    let teacher_obs :=
      preprocess_observation (PaliGemma self) false observation false in
    teacher_logits ← compute_teacher_logits teacher_obs;
    kl_loss ←
      Loss.kl_loss student_logits teacher_logits
        (teacher_temperature (config self)) loss_mask;
    Loss.combine ce_loss (kl_weight (config self)) kl_loss
  else Some ce_loss.

Definition sample_actions (Rnd : Random) (rng : Key Rnd)
    (observation : Observation (Image (PaliGemma self)))
    (prev_actions : option Embedder.Array3) (max_decoding_steps : nat)
    (temperature : R) : option (list (list Z)) :=
  Decode.sample_actions (PaliGemma self) Rnd embed_inputs_with_prev_action
    rng observation prev_actions max_decoding_steps temperature.

End WithModel.

End ObsDistilled.

(** * [Pi0FASTPredictive] *)
Module Predictive.
Import AttnMask Slice.

Record Config := {
  use_current_action_input : bool;
  action_dim : nat;
  action_horizon : nat;
  max_token_len : nat;
}.

Record Model := {
  config : Config;
  PaliGemma : Backbone;
  current_action_proj : list R -> Emb PaliGemma;
}.

Section WithModel.
Context (self : Model).

Definition embed_inputs_with_current_action
    (obs : Observation (Image (PaliGemma self)))
    (current_actions : option Embedder.Array3) :=
  Embedder.embed_inputs_with_action (PaliGemma self) (current_action_proj self)
    (use_current_action_input (config self)) obs current_actions.

Definition compute_loss (observation : Observation (Image (PaliGemma self)))
    (train : bool) (current_actions : option Embedder.Array3)
  : option (list R) :=
  let observation :=
    preprocess_observation (PaliGemma self) true observation train in
  '(token_embeddings, input_mask, ar_mask) ←
    embed_inputs_with_current_action observation current_actions;
  attn_mask ← make_attn_mask input_mask (ArBatch ar_mask);
  prompt ← tokenized_prompt observation;
  let targets := Loss.targets_of prompt (vocab_size (PaliGemma self)) in
  let logits :=
    Forward.logits_of (llm_prelogits (PaliGemma self))
      (llm_decode_logits (PaliGemma self))
      token_embeddings attn_mask (Z.of_nat (shape1 targets)) in
  token_loss_mask ← token_loss_mask observation;
  let loss_mask := drop_first <$> token_loss_mask in
  Loss.predictive_loss targets logits loss_mask.

Definition sample_actions (Rnd : Random) (rng : Key Rnd)
    (observation : Observation (Image (PaliGemma self)))
    (current_actions : option Embedder.Array3) (max_decoding_steps : nat)
    (temperature : R) : option (list (list Z)) :=
  Decode.sample_actions (PaliGemma self) Rnd embed_inputs_with_current_action
    rng observation current_actions max_decoding_steps temperature.

End WithModel.

End Predictive.

(** * Policy transform: [ObservationDistillationTransform] *)
Module ObsTransform.

(** The Python values a data record holds.  [VArr] is a NumPy array of a
    floating dtype, [VIntArr] one of an integer dtype. *)
#[warnings="-register-all"]
Inductive Value :=
| VNone
| VBool (b : bool)
| VInt (n : Z)
| VFloat (x : R)
| VStr (s : string)
| VArr (shape : list nat) (data : list R)
| VIntArr (shape : list nat) (data : list Z)
| VList (items : list Value)
| VDict (items : gmap string Value).

Record Transform := {
  action_dim : nat;
  handle_first_timestep : string;
}.

(** [v > 0] used as a condition; [None] is the [TypeError] (or the
    ambiguous truth value of an array with several elements). *)
Definition gt_zero (v : Value) : option bool :=
  match v with
  | VInt n => Some (0 <? n)
  | VBool b => Some b
  | VFloat x => Some (if Rlt_dec 0 x then true else false)
  | VArr _ [x] => Some (if Rlt_dec 0 x then true else false)
  | VIntArr _ [n] => Some (0 <? n)
  | _ => None
  end.

(** The value of [timestep - 1]: a number or an array. *)
Inductive Index :=
| IdxInt (n : Z)
| IdxFloat (x : R)
| IdxIntArr (shape : list nat) (data : list Z)
| IdxArr (shape : list nat) (data : list R).

(** [timestep - 1]; [None] is the [TypeError] of a value that has no
    subtraction with an int. *)
Definition index_before (timestep : Value) : option Index :=
  match timestep with
  | VInt n => Some (IdxInt (n - 1))
  | VBool b => Some (IdxInt ((if b then 1 else 0) - 1))
  | VFloat x => Some (IdxFloat (x - 1))
  | VArr shape data => Some (IdxArr shape ((fun x => (x - 1)%R) <$> data))
  | VIntArr shape data => Some (IdxIntArr shape ((fun n => n - 1) <$> data))
  | _ => None
  end.

(** [v[key]] for a string key. *)
Definition getitem_str (v : Value) (key : string) : option Value :=
  match v with
  | VDict d => d !! key
  | _ => None
  end.

Definition prod_shape (shape : list nat) : nat := foldr Nat.mul 1%nat shape.

(** An integer index into a sequence of [len] items: a negative index
    counts from the end, an index outside [-len, len) is an [IndexError]. *)
Definition norm_index (n : Z) (len : nat) : option nat :=
  if (0 <=? n) && (n <? Z.of_nat len) then Some (Z.to_nat n)
  else if (n <? 0) && (- Z.of_nat len <=? n) then Some (Z.to_nat (Z.of_nat len + n))
  else None.

(** Row [n] of an array with leading axis [d] and row shape [ds]. *)
Definition array_row {A} (d : nat) (ds : list nat) (data : list A) (n : Z)
  : option (list A) :=
  i ← norm_index n d;
  Some (take (prod_shape ds) (drop (i * prod_shape ds) data)).

(** [v[n]] for an integer [n] (a Python int, or a 0-d integer array, which
    acts as one): an item of a list, a character of a string, a row of an
    array, which is a scalar when the array has one axis. *)
Definition getitem_int (v : Value) (n : Z) : option Value :=
  match v with
  | VList items => i ← norm_index n (length items); items !! i
  | VStr s =>
      i ← norm_index n (String.length s);
      c ← String.get i s;
      Some (VStr (String c EmptyString))
  | VArr (d :: ds) data =>
      row ← array_row d ds data n;
      match ds, row with
      | [], [x] => Some (VFloat x)
      | _, _ => Some (VArr ds row)
      end
  | VIntArr (d :: ds) data =>
      row ← array_row d ds data n;
      match ds, row with
      | [], [x] => Some (VInt x)
      | _, _ => Some (VIntArr ds row)
      end
  | _ => None
  end.

(** [v[i]] for the value [i] of [timestep - 1].  A float, or an array of
    floats, is no index.  An integer array with at least one axis indexes
    an array by gathering rows, and is no index of a list or a string. *)
Definition getitem_idx (v : Value) (i : Index) : option Value :=
  match i with
  | IdxInt n => getitem_int v n
  | IdxIntArr [] [n] => getitem_int v n
  | IdxIntArr shape indices =>
      match v with
      | VArr (d :: ds) data =>
          rows ← mapM (array_row d ds data) indices;
          Some (VArr (shape ++ ds) (concat rows))
      | VIntArr (d :: ds) data =>
          rows ← mapM (array_row d ds data) indices;
          Some (VIntArr (shape ++ ds) (concat rows))
      | _ => None
      end
  | IdxFloat _ | IdxArr _ _ => None
  end.

(** [np.zeros_like(v) if isinstance(v, np.ndarray) else v]. *)
Definition zeros_like_array (v : Value) : Value :=
  match v with
  | VArr shape data => VArr shape ((fun _ => 0%R) <$> data)
  | VIntArr shape data => VIntArr shape ((fun _ => 0) <$> data)
  | _ => v
  end.

(** [np.zeros(n)]. *)
Definition np_zeros (n : nat) : Value := VArr [n] (replicate n 0%R).

(** The previous action of a first timestep: zeros shaped like
    [data["actions"]] when that has two axes, [np.zeros(action_dim)]
    otherwise; [None] is the [AttributeError] of a value without [shape]. *)
Definition zero_prev_actions (self : Transform) (data : gmap string Value)
  : option Value :=
  match data !! "actions"%string with
  | Some (VArr shape d) =>
      if (length shape =? 2)%nat then Some (zeros_like_array (VArr shape d))
      else Some (np_zeros (action_dim self))
  | Some (VIntArr shape d) =>
      if (length shape =? 2)%nat then Some (zeros_like_array (VIntArr shape d))
      else Some (np_zeros (action_dim self))
  | Some _ => None
  | None => Some (np_zeros (action_dim self))
  end.

(** [ObservationDistillationTransform.__call__]. *)
Definition call (self : Transform) (data : gmap string Value)
  : option (gmap string Value) :=
  let result := data in
  has_prev ←
    match data !! "trajectory_data"%string with
    | Some _ => gt_zero (default (VInt 0) (data !! "timestep"%string))
    | None => Some false
    end;
  if (has_prev : bool) then
    trajectory ← data !! "trajectory_data"%string;
    timestep ← data !! "timestep"%string;
    observations ← getitem_str trajectory "observations";
    i ← index_before timestep;
    prev_observation ← getitem_idx observations i;
    let result := <["prev_observation"%string := prev_observation]> result in
    actions ← getitem_str trajectory "actions";
    prev_actions ← getitem_idx actions i;
    Some (<["prev_actions"%string := prev_actions]> result)
  else if decide (handle_first_timestep self = "duplicate"%string) then
    let result :=
      <["prev_observation"%string :=
          default (VDict data) (data !! "observation"%string)]> result in
    prev_actions ← zero_prev_actions self data;
    Some (<["prev_actions"%string := prev_actions]> result)
  else if decide (handle_first_timestep self = "zero"%string) then
    let result :=
      <["prev_observation"%string := VDict (zeros_like_array <$> data)]> result in
    prev_actions ← zero_prev_actions self data;
    Some (<["prev_actions"%string := prev_actions]> result)
  else if decide (handle_first_timestep self = "skip"%string) then
    Some (<["skip_sample"%string := VBool true]> result)
  else Some result.

(** [result] keeps every entry of [data] and adds at most the three keys
    the transform writes. *)
Definition frame (data result : gmap string Value) : Prop :=
  (forall k v, data !! k = Some v -> result !! k = Some v) /\
  (forall k, is_Some (result !! k) ->
     is_Some (data !! k) \/ k = "prev_observation"%string \/
     k = "prev_actions"%string \/ k = "skip_sample"%string).

End ObsTransform.

(** * Policy inputs: [LiberoObsDistillationInputs] *)
Module LiberoObsDistillationInputs.
Import ObsTransform.

(** The members of [_model.ModelType] this file names. *)
Inductive ModelType := PI0 | PI0_FAST.

Record Inputs := {
  action_dim : nat;
  model_type : ModelType;
}.

(** [d.get(k1, d.get(k2, dflt))]. *)
Definition get2 (d : gmap string Value) (k1 k2 : string) (dflt : Value) : Value :=
  default (default dflt (d !! k2)) (d !! k1).

(** [np.zeros((224, 224, 3))]. *)
Definition zeros_image : Value :=
  VArr [224; 224; 3]%nat (replicate (224 * 224 * 3) 0%R).

(** The three camera entries of [image] and of [image_mask]. *)
Definition image_dict (base wrist : list nat * list R) : Value :=
  VDict {[ "base_0_rgb"%string := VArr base.1 base.2;
           "left_wrist_0_rgb"%string := VArr wrist.1 wrist.2;
           "right_wrist_0_rgb"%string := zeros_like_array (VArr base.1 base.2) ]}.

Definition image_mask_dict (mask_padding : bool) : Value :=
  VDict {[ "base_0_rgb"%string := VBool true;
           "left_wrist_0_rgb"%string := VBool true;
           "right_wrist_0_rgb"%string := VBool (if mask_padding then false else true) ]}.

Section WithCollaborators.
(** [transforms.pad_to_dim(x, n)] belongs to another module, and
    [_parse_image] converts the pixel type and the axis order; both are
    taken as given functions that return an array or raise. *)
Context (pad_to_dim : Value -> nat -> option Value)
        (_parse_image : Value -> option (list nat * list R)).

(** The state and the two images read from one record. *)
Definition read_observation (self : Inputs) (d : gmap string Value)
  : option (Value * (list nat * list R) * (list nat * list R)) :=
  state ← pad_to_dim (get2 d "state" "observation/state" (np_zeros 8))
                     (action_dim self);
  base_image ← _parse_image (get2 d "image" "observation/image" zeros_image);
  wrist_image ←
    _parse_image (get2 d "wrist_image" "observation/wrist_image" zeros_image);
  Some (state, base_image, wrist_image).

(** [LiberoObsDistillationInputs.__call__]; a [prev_observation] that is
    not a dict has no [get] and raises. *)
Definition call (self : Inputs) (data : gmap string Value)
  : option (gmap string Value) :=
  let mask_padding :=
    match model_type self with PI0 => true | PI0_FAST => false end in
  '(current_state, current_base_image, current_wrist_image) ←
    read_observation self data;
  '(prev_state, prev_base_image, prev_wrist_image) ←
    match data !! "prev_observation"%string with
    | Some (VDict prev_data) => read_observation self prev_data
    | Some _ => None
    | None => Some (current_state, current_base_image, current_wrist_image)
    end;
  let inputs : gmap string Value :=
    {[ "state"%string := current_state;
       "image"%string := image_dict current_base_image current_wrist_image;
       "image_mask"%string := image_mask_dict mask_padding;
       "prev_state"%string := prev_state;
       "prev_image"%string := image_dict prev_base_image prev_wrist_image;
       "prev_image_mask"%string := image_mask_dict mask_padding ]} in
  prev_actions ←
    match data !! "prev_actions"%string with
    | Some prev_actions => pad_to_dim prev_actions (action_dim self)
    | None => Some (np_zeros (action_dim self))
    end;
  let inputs := <["prev_actions"%string := prev_actions]> inputs in
  inputs ←
    match data !! "actions"%string with
    | Some actions =>
        actions ← pad_to_dim actions (action_dim self);
        Some (<["actions"%string := actions]> inputs)
    | None => Some inputs
    end;
  Some (match data !! "prompt"%string with
        | Some prompt => <["prompt"%string := prompt]> inputs
        | None => inputs
        end).

End WithCollaborators.

End LiberoObsDistillationInputs.

(** * Policy inputs: [LiberoNextActionInputs] *)
Module LiberoNextActionInputs.
Import ObsTransform.

Record Inputs := {
  action_dim : nat;
  model_type : LiberoObsDistillationInputs.ModelType;
}.

Section WithCollaborators.
(** As above, with [np.asarray] as a third given function. *)
Context (pad_to_dim : Value -> nat -> option Value)
        (_parse_image : Value -> option (list nat * list R))
        (np_asarray : Value -> Value).

(** [LiberoNextActionInputs.__call__]. *)
Definition call (self : Inputs) (data : gmap string Value)
  : option (gmap string Value) :=
  let mask_padding :=
    match model_type self with
    | LiberoObsDistillationInputs.PI0 => true
    | LiberoObsDistillationInputs.PI0_FAST => false
    end in
  state ←
    pad_to_dim
      (LiberoObsDistillationInputs.get2 data "state" "observation/state" (np_zeros 8))
      (action_dim self);
  base_image ←
    _parse_image
      (LiberoObsDistillationInputs.get2 data "image" "observation/image"
         LiberoObsDistillationInputs.zeros_image);
  wrist_image ←
    _parse_image
      (LiberoObsDistillationInputs.get2 data "wrist_image" "observation/wrist_image"
         LiberoObsDistillationInputs.zeros_image);
  let inputs : gmap string Value :=
    {[ "state"%string := state;
       "image"%string :=
         LiberoObsDistillationInputs.image_dict base_image wrist_image;
       "image_mask"%string :=
         LiberoObsDistillationInputs.image_mask_dict mask_padding ]} in
  inputs ←
    match data !! "current_actions"%string with
    | Some current_actions =>
        current_actions ← pad_to_dim current_actions (action_dim self);
        Some (<["current_actions"%string := current_actions]> inputs)
    | None =>
        match data !! "actions"%string with
        | Some actions =>
            let actions := np_asarray actions in
            current_actions ← pad_to_dim actions (action_dim self);
            Some (<["current_actions"%string := current_actions]> inputs)
        | None => Some inputs
        end
    end;
  inputs ←
    match data !! "actions"%string with
    | Some actions =>
        actions ← pad_to_dim actions (action_dim self);
        Some (<["actions"%string := actions]> inputs)
    | None => Some inputs
    end;
  let inputs :=
    match data !! "next_action_mask"%string with
    | Some next_action_mask =>
        <["next_action_mask"%string := next_action_mask]> inputs
    | None => inputs
    end in
  Some (match data !! "prompt"%string with
        | Some prompt => <["prompt"%string := prompt]> inputs
        | None => inputs
        end).

End WithCollaborators.

End LiberoNextActionInputs.

(** * The distillation loss as the specification words it *)
Module LossSpec.
Local Open Scope R_scope.

(** "softmax probabilities ... each divided by a temperature
    hyperparameter before the softmax". *)
Definition probs (logits : list R) (temperature : R) : list R :=
  Loss.softmax ((fun x => x / temperature) <$> logits).

(** "KL divergence per position: sum over vocabulary of
    teacher_prob * (log(teacher_prob + eps) - log(student_prob + eps))",
    with eps = 1e-8. *)
Definition kl_position (teacher_prob student_prob : list R) : R :=
  Loss.sumR (zip_with (fun t s => t * (ln (t + 1e-8) - ln (s + 1e-8)))
               teacher_prob student_prob).

(** "Mask and normalize identically to the cross-entropy term": the masked
    sum over positions divided by the number of unmasked positions,
    clipped to at least 1. *)
Definition masked_mean (values : list R) (mask : list bool) : R :=
  Loss.sumR (zip_with (fun x (v : bool) => if v then x else 0) values mask)
  / Rmax (Loss.sumR ((fun v : bool => if v then 1 else 0) <$> mask)) 1.

(** The KL term of one example. *)
Definition kl_example (student_logits teacher_logits : list (list R))
    (temperature : R) (mask : list bool) : R :=
  masked_mean
    (zip_with (fun t s => kl_position (probs t temperature) (probs s temperature))
              teacher_logits student_logits)
    mask.

End LossSpec.

(** * Small concrete instances used to run the models *)
Module Examples.

(** Scores over a vocabulary of three tokens: after token 1 the highest
    score is on token 2, after any other token it is on token 1. *)
Definition logit_after (tok : Z) : list R :=
  if decide (tok = 1) then [0%R; 0%R; 1%R] else [0%R; 1%R; 0%R].

Definition logits_after (e : list (list Z)) : list (list (list R)) :=
  (fun row : list Z => logit_after <$> row) <$> e.

(** A backbone over integer "embeddings": every image becomes one token,
    a token embeds to itself, and the scores only depend on the token at
    the same position. *)
Definition toy_backbone : Backbone :=
  {| Image := Z; Emb := Z; PreLogit := Z; Cache := nat;
     img := fun im => [im];
     img_tokens := 1;
     img_length := fun _ => eq_refl;
     llm_embed := fun t => t;
     llm_prelogits := fun e _ => e;
     llm_decode_logits := logits_after;
     llm_prefill := fun e _ _ => (logits_after e, 0%nat);
     llm_step := fun e _ _ cache => (logits_after e, S cache);
     vocab_size := 3;
     preprocess_observation := fun _ obs _ => obs |}.

Definition toy_random : Random :=
  {| Key := unit; split := fun _ => (tt, tt); categorical := fun _ _ => [] |}.

(** An observation with one camera and a prompt of three tokens per
    example; [prompts] gives the batch. *)
Definition toy_obs (prompts : list (list Z)) : Observation Z :=
  {| images := [("base_0_rgb"%string, (fun _ : list Z => 7) <$> prompts)];
     image_masks := {[ "base_0_rgb"%string := (fun _ : list Z => true) <$> prompts ]};
     state := [];
     tokenized_prompt := Some prompts;
     tokenized_prompt_mask :=
       Some ((fun row : list Z => (fun _ : Z => true) <$> row) <$> prompts);
     token_ar_mask :=
       Some ((fun row : list Z => (fun _ : Z => 1) <$> row) <$> prompts);
     token_loss_mask :=
       Some ((fun row : list Z => (fun _ : Z => true) <$> row) <$> prompts) |}.


Definition toy_distilled_config (use_teacher : bool) (ckpt : option string)
  : ObsDistilled.Config :=
  {| ObsDistilled.kl_weight := 1%R;
     ObsDistilled.teacher_temperature := 1%R;
     ObsDistilled.use_teacher_model := use_teacher;
     ObsDistilled.teacher_checkpoint := ckpt;
     ObsDistilled.use_prev_action_input := true;
     ObsDistilled.action_dim := 1;
     ObsDistilled.action_horizon := 2;
     ObsDistilled.max_token_len := 3 |}.

(** A separately constructed teacher whose scores differ from the
    student's: it always favours token 0. *)
Definition toy_teacher : ObsDistilled.Pi0FAST Z :=
  {| ObsDistilled.t_Emb := Z; ObsDistilled.t_PreLogit := Z;
     ObsDistilled.t_embed_inputs := Embedder.embed_inputs toy_backbone;
     ObsDistilled.t_llm_prelogits := fun e _ => e;
     ObsDistilled.t_llm_decode_logits :=
       fun pre => (fun row : list Z => (fun _ : Z => [1%R; 0%R; 0%R]) <$> row) <$> pre |}.

Definition toy_distilled (use_teacher : bool) (ckpt : option string)
  : ObsDistilled.Model :=
  ObsDistilled.init (toy_distilled_config use_teacher ckpt) toy_backbone
    (fun _ => 9) toy_teacher.

(** A distillation model with a separately constructed teacher and the
    given KL weight and temperature. *)
Definition toy_weighted_config (w temp : R) : ObsDistilled.Config :=
  {| ObsDistilled.kl_weight := w;
     ObsDistilled.teacher_temperature := temp;
     ObsDistilled.use_teacher_model := true;
     ObsDistilled.teacher_checkpoint := Some "teacher.ckpt"%string;
     ObsDistilled.use_prev_action_input := true;
     ObsDistilled.action_dim := 1;
     ObsDistilled.action_horizon := 2;
     ObsDistilled.max_token_len := 3 |}.

Definition toy_weighted (w temp : R) : ObsDistilled.Model :=
  ObsDistilled.init (toy_weighted_config w temp) toy_backbone (fun _ => 9)
    toy_teacher.

Definition toy_predictive : Predictive.Model :=
  {| Predictive.config :=
       {| Predictive.use_current_action_input := true;
          Predictive.action_dim := 1;
          Predictive.action_horizon := 2;
          Predictive.max_token_len := 3 |};
     Predictive.PaliGemma := toy_backbone;
     Predictive.current_action_proj := fun _ => 9 |}.

(** An action horizon of two one-dimensional actions per example. *)
Definition toy_actions (b : nat) : Embedder.Array3 :=
  {| Embedder.shape3 := (b, 2%nat, 1%nat);
     Embedder.data3 := replicate b [[0%R]; [0%R]] |}.

(** The greedy successor of a token under the toy backbone. *)
Definition toy_next (tok : Z) : Z := if decide (tok = 1) then 2 else 1.

(** A first-timestep record: a two-step action horizon, a state vector
    and a prompt. *)
Definition toy_record : gmap string ObsTransform.Value :=
  {[ "actions"%string := ObsTransform.VArr [2%nat; 1%nat] [1%R; 2%R];
     "state"%string := ObsTransform.VArr [1%nat] [3%R];
     "prompt"%string := ObsTransform.VStr "pick up the cup" ]}.

Definition toy_transform : ObsTransform.Transform :=
  {| ObsTransform.action_dim := 7; ObsTransform.handle_first_timestep := "zero" |}.

(** Stand-ins for [transforms.pad_to_dim] and [_parse_image]: the first
    pads a vector with zeros up to [n] entries and leaves other arrays as
    they are, the second accepts any array as it is. *)
Definition toy_pad_to_dim (x : ObsTransform.Value) (n : nat)
  : option ObsTransform.Value :=
  match x with
  | ObsTransform.VArr [d] values =>
      Some (ObsTransform.VArr [Nat.max d n] (values ++ replicate (n - d) 0%R))
  | ObsTransform.VArr shape values => Some (ObsTransform.VArr shape values)
  | _ => None
  end.

Definition toy_parse_image (image : ObsTransform.Value)
  : option (list nat * list R) :=
  match image with
  | ObsTransform.VArr shape values => Some (shape, values)
  | _ => None
  end.

Definition toy_inputs : LiberoObsDistillationInputs.Inputs :=
  {| LiberoObsDistillationInputs.action_dim := 2;
     LiberoObsDistillationInputs.model_type := LiberoObsDistillationInputs.PI0_FAST |}.

(** A record with a state, two one-pixel images, an action horizon, a
    prompt and a marker left by an earlier transform. *)
Definition toy_frame : gmap string ObsTransform.Value :=
  {[ "state"%string := ObsTransform.VArr [1%nat] [3%R];
     "image"%string := ObsTransform.VArr [1; 1; 3]%nat [4%R; 5%R; 6%R];
     "wrist_image"%string := ObsTransform.VArr [1; 1; 3]%nat [7%R; 8%R; 9%R];
     "actions"%string := ObsTransform.VArr [2%nat; 1%nat] [1%R; 2%R];
     "prompt"%string := ObsTransform.VStr "pick up the cup";
     "skip_sample"%string := ObsTransform.VBool true ]}.

End Examples.

(** * Part II: theorems *)

Section AttnMaskFacts.
Import AttnMask.

Lemma cumsum_from_length acc l : length (cumsum_from acc l) = length l.
Proof. revert acc; induction l as [|x l IH]; intros acc; simpl; [done|]. by rewrite IH. Qed.

Lemma cumsum_from_lookup l : forall acc i x,
  l !! i = Some x ->
  cumsum_from acc l !! i = Some (acc + foldr Z.add 0 (take (S i) l)).
Proof.
  induction l as [|y l IH]; intros acc i x Hi; [done|].
  destruct i as [|i]; simpl in *.
  - f_equal. lia.
  - rewrite (IH _ _ _ Hi). f_equal. simpl. lia.
Qed.

Lemma causal_part_lookup cs i j ci cj :
  cs !! i = Some ci -> cs !! j = Some cj ->
  causal_part cs !! i ≫= (.!! j) = Some (cj <=? ci).
Proof.
  intros Hi Hj. unfold causal_part.
  rewrite list_lookup_fmap, Hi. simpl.
  by rewrite list_lookup_fmap, Hj.
Qed.

Lemma valid_part_lookup (valid : list bool) i j vi vj :
  valid !! i = Some vi -> valid !! j = Some vj ->
  valid_part valid !! i ≫= (.!! j) = Some (vj && vi).
Proof.
  intros Hi Hj. unfold valid_part.
  rewrite list_lookup_fmap, Hi. simpl.
  by rewrite list_lookup_fmap, Hj.
Qed.

Lemma logical_and2_lookup a b i j x y :
  a !! i ≫= (.!! j) = Some x -> b !! i ≫= (.!! j) = Some y ->
  logical_and2 a b !! i ≫= (.!! j) = Some (x && y).
Proof.
  unfold logical_and2. intros Ha Hb.
  destruct (a !! i) as [ra|] eqn:Ea; [|done].
  destruct (b !! i) as [rb|] eqn:Eb; [|done].
  simpl in *. rewrite lookup_zip_with, Ea, Eb. simpl.
  by rewrite lookup_zip_with, Ha, Hb.
Qed.

Lemma broadcast_row_length row s r :
  broadcast_row row s = Some r -> length r = s.
Proof.
  unfold broadcast_row. case_decide as Hlen; [by intros [= <-]|].
  destruct row as [|x [|y row]]; try done. intros [= <-].
  apply length_replicate.
Qed.

Lemma mapM_lookup {A B} (f : A -> option B) (l : list A) (k : list B) i x :
  mapM f l = Some k -> l !! i = Some x ->
  exists y, k !! i = Some y /\ f x = Some y.
Proof.
  intros Hk Hx. apply mapM_Some_1 in Hk.
  destruct (Forall2_lookup_l _ _ _ _ _ Hk Hx) as (y & Hy & Hf). eauto.
Qed.

Lemma broadcast_to_rows mask_ar input_mask ar b valid :
  broadcast_to mask_ar input_mask = Some ar ->
  input_mask !! b = Some valid ->
  exists arow, ar !! b = Some arow /\ length arow = length valid.
Proof.
  unfold broadcast_to. intros Har Hb. destruct mask_ar as [x|row|rows].
  - injection Har as <-. exists (replicate (length valid) x).
    rewrite list_lookup_fmap, Hb. split; [done|]. apply length_replicate.
  - destruct (mapM_lookup _ _ _ _ _ Har Hb) as (arow & Harow & Hbr).
    exists arow. split; [done|]. by eapply broadcast_row_length.
  - case_decide as Hlen.
    + destruct (lookup_lt_is_Some_2 rows b) as [r Hr];
        [rewrite Hlen; by eapply lookup_lt_Some|].
      assert (zip rows input_mask !! b = Some (r, valid)) as Hz
        by (apply lookup_zip_with_Some; eauto).
      destruct (mapM_lookup _ _ _ _ _ Har Hz) as (arow & Harow & Hbr).
      exists arow. split; [done|]. by eapply broadcast_row_length.
    + destruct rows as [|row [|row' rows]]; try done.
      destruct (mapM_lookup _ _ _ _ _ Har Hb) as (arow & Harow & Hbr).
      exists arow. split; [done|]. by eapply broadcast_row_length.
Qed.

Lemma cumsum_lookup_some arow i :
  (i < length arow)%nat -> exists ci, cumsum arow !! i = Some ci.
Proof.
  intros Hi. apply lookup_lt_is_Some. unfold cumsum.
  by rewrite cumsum_from_length.
Qed.

Lemma foldr_add_acc (l : list Z) a : foldr Z.add a l = a + foldr Z.add 0 l.
Proof. induction l as [|x l IH]; simpl; [lia | rewrite IH; lia]. Qed.

Lemma take_S_all_zero (arow : list Z) i j :
  (i <= j)%nat ->
  (forall k, (i < k <= j)%nat -> arow !! k = Some 0) ->
  foldr Z.add 0 (take (S j) arow) = foldr Z.add 0 (take (S i) arow).
Proof.
  induction 1 as [|j Hle IH]; intros Hz; [done|].
  rewrite <- IH by (intros k Hk; apply Hz; lia).
  assert (arow !! S j = Some 0) as Hj by (apply Hz; lia).
  rewrite (take_S_r _ (S j) 0 Hj), foldr_app. simpl.
  rewrite (foldr_add_acc (take (S j) arow)). lia.
Qed.

Lemma foldr_add_take_mono (arow : list Z) i j :
  (forall k x, arow !! k = Some x -> 0 <= x) ->
  (i <= j)%nat ->
  foldr Z.add 0 (take i arow) <= foldr Z.add 0 (take j arow).
Proof.
  intros Hnn. induction 1 as [|j Hle IH]; [lia|].
  destruct (arow !! j) as [x|] eqn:Ej.
  - rewrite (take_S_r _ j x Ej), foldr_app. simpl.
    assert (0 <= x) by eauto.
    rewrite (foldr_add_acc (take j arow)). lia.
  - apply lookup_ge_None in Ej.
    rewrite (take_ge arow (S j)) by lia. by rewrite (take_ge arow j) in IH by lia.
Qed.

Lemma attn_entry (valid : list bool) (arow : list Z) i j vi vj :
  length arow = length valid ->
  valid !! i = Some vi -> valid !! j = Some vj ->
  exists ci cj,
    cumsum arow !! i = Some ci /\ cumsum arow !! j = Some cj /\
    logical_and2 (causal_part (cumsum arow)) (valid_part valid) !! i ≫= (.!! j)
      = Some ((cj <=? ci) && vi && vj).
Proof.
  intros Hlen Hi Hj.
  destruct (cumsum_lookup_some arow i) as [ci Hci];
    [rewrite Hlen; by eapply lookup_lt_Some|].
  destruct (cumsum_lookup_some arow j) as [cj Hcj];
    [rewrite Hlen; by eapply lookup_lt_Some|].
  exists ci, cj. split; [done|]. split; [done|].
  rewrite (logical_and2_lookup _ _ i j (cj <=? ci) (vj && vi)).
  - f_equal. destruct (cj <=? ci), vi, vj; done.
  - by apply causal_part_lookup.
  - by apply valid_part_lookup.
Qed.

Lemma make_attn_mask_idx3 input_mask mask_ar ar m b valid arow i j :
  broadcast_to mask_ar input_mask = Some ar ->
  make_attn_mask input_mask mask_ar = Some m ->
  input_mask !! b = Some valid -> ar !! b = Some arow ->
  idx3 m b i j =
    logical_and2 (causal_part (cumsum arow)) (valid_part valid) !! i ≫= (.!! j).
Proof.
  intros Hbc Hm Hb Hab. unfold make_attn_mask in Hm. rewrite Hbc in Hm.
  simpl in Hm. injection Hm as <-. unfold idx3.
  rewrite lookup_zip_with, Hb. simpl. rewrite Hab. simpl.
  by destruct (_ !! i).
Qed.

(** C4 (as amended): for every validity mask and every integer flag
    argument that broadcasts to the validity's shape (a scalar, or an axis
    of length 1, is stretched) and whose running sums stay inside the
    [int32] range, [make_attn_mask] returns the matrix with entry
    [b,i,j] = (cumsum(ar)[b,j] <= cumsum(ar)[b,i]) AND valid[b,i] AND
    valid[b,j]; hence the diagonal entry [i,i] is valid[i] and the mask is
    symmetric between two positions that no causal flag separates.  When,
    in addition, no flag is negative, no position attends to a strictly
    later causal position (one whose flag is positive). *)
Theorem make_attn_mask_spec (input_mask : list (list bool)) (mask_ar : ar_arg)
    (ar : list (list Z)) :
  broadcast_to mask_ar input_mask = Some ar ->
  Forall (fun arow => Forall (fun c => - 2 ^ 31 <= c < 2 ^ 31) (cumsum arow)) ar ->
  exists m, make_attn_mask input_mask mask_ar = Some m /\
    forall b valid, input_mask !! b = Some valid ->
    exists arow, ar !! b = Some arow /\ length arow = length valid /\
      (forall i j vi vj, valid !! i = Some vi -> valid !! j = Some vj ->
         exists ci cj, cumsum arow !! i = Some ci /\ cumsum arow !! j = Some cj /\
           idx3 m b i j = Some ((cj <=? ci) && vi && vj)) /\
      (forall i vi, valid !! i = Some vi -> idx3 m b i i = Some vi) /\
      (forall i j, (i <= j < length valid)%nat ->
         (forall k, (i < k <= j)%nat -> arow !! k = Some 0) ->
         idx3 m b i j = idx3 m b j i) /\
      ((forall k x, arow !! k = Some x -> 0 <= x) ->
       forall i j x, (i < j < length valid)%nat -> arow !! j = Some x -> 0 < x ->
         idx3 m b i j = Some false).
Proof.
  intros Hbc _.
  assert (exists m, make_attn_mask input_mask mask_ar = Some m) as [m Hm]
    by (unfold make_attn_mask; rewrite Hbc; eauto).
  exists m. split; [done|]. intros b valid Hb.
  destruct (broadcast_to_rows _ _ _ _ _ Hbc Hb) as (arow & Hab & Hlen).
  exists arow. split; [done|]. split; [done|].
  assert (forall i j, idx3 m b i j =
    logical_and2 (causal_part (cumsum arow)) (valid_part valid) !! i ≫= (.!! j))
    as Hidx by (intros; by eapply make_attn_mask_idx3).
  assert (forall i, (i < length valid)%nat -> exists x,
    arow !! i = Some x /\
    cumsum arow !! i = Some (foldr Z.add 0 (take (S i) arow))) as Hcs.
  { intros i Hi. destruct (lookup_lt_is_Some_2 arow i) as [x Hx]; [lia|].
    exists x. split; [done|]. unfold cumsum.
    by rewrite (cumsum_from_lookup _ 0 i x Hx). }
  split; [|split; [|split]].
  - intros i j vi vj Hi Hj. rewrite Hidx. by apply attn_entry.
  - intros i vi Hi. rewrite Hidx.
    destruct (attn_entry valid arow i i vi vi Hlen Hi Hi) as (ci & cj & H1 & H2 & ->).
    rewrite H1 in H2. injection H2 as <-. f_equal.
    rewrite Z.leb_refl. by destruct vi.
  - intros i j [Hij Hj] Hz.
    destruct (lookup_lt_is_Some_2 valid i) as [vi Hvi]; [lia|].
    destruct (lookup_lt_is_Some_2 valid j) as [vj Hvj]; [lia|].
    destruct (Hcs i) as (xi & _ & Hci); [lia|].
    destruct (Hcs j) as (xj & _ & Hcj); [lia|].
    rewrite (take_S_all_zero arow i j Hij Hz) in Hcj.
    rewrite !Hidx.
    destruct (attn_entry valid arow i j vi vj Hlen Hvi Hvj) as (ci & cj & H1 & H2 & ->).
    destruct (attn_entry valid arow j i vj vi Hlen Hvj Hvi) as (cj' & ci' & H3 & H4 & ->).
    rewrite Hci in H1, H4. rewrite Hcj in H2, H3.
    injection H1 as <-. injection H2 as <-. injection H3 as <-. injection H4 as <-.
    rewrite Z.leb_refl. by destruct vi, vj.
  - intros Hflag i j x [Hij Hj] Hone Hpos.
    destruct (lookup_lt_is_Some_2 valid i) as [vi Hvi]; [lia|].
    destruct (lookup_lt_is_Some_2 valid j) as [vj Hvj]; [lia|].
    destruct (Hcs i) as (xi & _ & Hci); [lia|].
    destruct (Hcs j) as (xj & _ & Hcj); [lia|].
    rewrite Hidx.
    destruct (attn_entry valid arow i j vi vj Hlen Hvi Hvj) as (ci & cj & H1 & H2 & ->).
    rewrite Hci in H1. rewrite Hcj in H2. injection H1 as <-. injection H2 as <-.
    rewrite (take_S_r _ j x Hone), foldr_app. simpl.
    rewrite (foldr_add_acc (take j arow)).
    assert (foldr Z.add 0 (take (S i) arow) <= foldr Z.add 0 (take j arow)) as Hmono.
    { apply foldr_add_take_mono; [|lia]. intros k y Hy. by eapply Hflag. }
    replace (_ <=? _) with false; [done|].
    symmetry. apply Z.leb_gt. lia.
Qed.

(** A single flag 1 stretched over an example of length four whose last
    position is padding: every position is causal, so position 1 does not
    attend to position 2, and the two padding-free diagonal entries hold. *)
Lemma make_attn_mask_spec_witness :
  exists m,
    make_attn_mask [[true; true; true; false]] (ArRow [1]) = Some m /\
    idx3 m 0 1 1 = Some true /\ idx3 m 0 3 3 = Some false /\
    idx3 m 0 1 2 = Some false.
Proof.
  destruct (make_attn_mask_spec [[true; true; true; false]] (ArRow [1])
              [[1; 1; 1; 1]] eq_refl) as (m & Hm & Hrows).
  - repeat constructor; lia.
  - exists m. split; [exact Hm|].
    destruct (Hrows 0%nat [true; true; true; false] eq_refl)
      as (arow & Harow & _ & _ & Hdiag & _ & Hlater).
    injection Harow as <-.
    split; [exact (Hdiag 1%nat true eq_refl)|].
    split; [exact (Hdiag 3%nat false eq_refl)|].
    apply (Hlater) with (x := 1); [|simpl; lia|reflexivity|lia].
    intros k y Hy. destruct k as [|[|[|[|k]]]]; simpl in Hy;
      try discriminate; injection Hy as <-; lia.
Defined.

(** C4 (the claim as first stated fails): with the flags [0, -1, 1] on
    three valid positions the running sums are [0, -1, 0], so position 0
    attends to position 2, which is strictly later and causal (flag 1). *)
Theorem make_attn_mask_negative_flag_counterexample :
  exists m,
    make_attn_mask [[true; true; true]] (ArRow [0; -1; 1]) = Some m /\
    cumsum [0; -1; 1] = [0; -1; 0] /\
    idx3 m 0 0 2 = Some true.
Proof. eexists. split; [reflexivity|]. split; reflexivity. Qed.

End AttnMaskFacts.

Section AlignFacts.
Import Align.
Context {E : Type}.

Lemma roll_length {A} s (l : list A) : length (roll s l) = length l.
Proof.
  unfold roll. rewrite length_app, length_drop, length_take. lia.
Qed.

Lemma roll_fmap {A B} (f : A -> B) s (l : list A) : roll s (f <$> l) = f <$> roll s l.
Proof.
  unfold roll. by rewrite length_fmap, fmap_app, fmap_drop, fmap_take.
Qed.

(** Rolling by [s] undoes rolling by [-s]. *)
Lemma roll_roll_back {A} s (l : list A) : roll s (roll (- s) l) = l.
Proof.
  unfold roll at 1. rewrite roll_length. unfold roll.
  destruct l as [|a l0];
    [rewrite ?drop_nil, ?take_nil; simpl; by rewrite ?drop_nil, ?take_nil|].
  remember (a :: l0) as l eqn:El.
  assert (0 < Z.of_nat (length l)) as Hpos by (subst l; simpl; lia).
  remember (Z.of_nat (length l)) as n eqn:En.
  pose proof (Z.mod_pos_bound (- - s) n Hpos) as Hb1.
  pose proof (Z.mod_pos_bound (- s) n Hpos) as Hb2.
  assert (((- - s) mod n + (- s) mod n) mod n = 0) as Hsum.
  { rewrite <- Z.add_mod by lia. replace (- - s + - s) with 0 by lia. apply Z.mod_0_l; lia. }
  remember (Z.to_nat ((- - s) mod n)) as k1 eqn:Ek1.
  remember (Z.to_nat ((- s) mod n)) as k2 eqn:Ek2.
  assert ((k1 = 0 /\ k2 = 0)%nat \/ (k1 + k2 = length l)%nat) as [[-> ->]|Hk].
  { destruct (decide ((- - s) mod n + (- s) mod n = 0)) as [H0|H0]; [left; lia|right].
    assert ((- - s) mod n + (- s) mod n = n); [|lia].
    apply Z.mod_divide in Hsum; [|lia]. destruct Hsum as [c Hc].
    destruct (Z.le_gt_cases c 0); [nia|].
    destruct (Z.le_gt_cases 2 c); [nia|].
    assert (c = 1) as -> by lia. lia. }
  - by rewrite !drop_0, !take_0, !app_nil_r.
  - assert (length (drop k1 l) = k2) as Hd by (rewrite length_drop; lia).
    rewrite drop_app_length', take_app_length' by done.
    apply take_drop.
Qed.

Lemma roll2_roll2_back {A} s (m : list (list A)) : roll2 s (roll2 (- s) m) = m.
Proof.
  unfold roll2. rewrite roll_fmap, roll_roll_back.
  rewrite <- list_fmap_compose. rewrite <- (list_fmap_id m) at 2.
  apply list_fmap_ext. intros i r _. simpl. apply roll_roll_back.
Qed.

Lemma roll_neg_nat {A} (k : nat) (l : list A) :
  (k <= length l)%nat -> roll (- Z.of_nat k) l = drop k l ++ take k l.
Proof.
  intros Hk. unfold roll. rewrite Z.opp_involutive.
  destruct (decide (k = length l)) as [->|Hne].
  - rewrite Z_mod_same_full. simpl.
    by rewrite drop_0, take_0, drop_all, firstn_all, app_nil_r.
  - rewrite Z.mod_small by lia. by rewrite Nat2Z.id.
Qed.

Lemma foldr_max_spec x r :
  foldr Z.max x r ∈ x :: r /\ forall y, y ∈ x :: r -> y <= foldr Z.max x r.
Proof.
  induction r as [|z r [IHin IHub]]; simpl.
  - split; [apply list_elem_of_here|]. intros y Hy.
    apply list_elem_of_singleton in Hy. lia.
  - split.
    + destruct (Z.max_spec z (foldr Z.max x r)) as [[_ ->]|[_ ->]].
      * apply elem_of_cons in IHin as [Hin|Hin].
        -- rewrite Hin. apply list_elem_of_here.
        -- do 2 apply list_elem_of_further. exact Hin.
      * apply list_elem_of_further, list_elem_of_here.
    + intros y Hy. apply elem_of_cons in Hy as [->|Hy].
      * assert (x ∈ x :: r) as Hx by apply list_elem_of_here.
        specialize (IHub x Hx). lia.
      * apply elem_of_cons in Hy as [->|Hy]; [lia|].
        assert (y ∈ x :: r) as Hin by (by apply list_elem_of_further).
        specialize (IHub y Hin). lia.
Qed.

Lemma jnp_max_unique l m :
  m ∈ l -> (forall y, y ∈ l -> y <= m) -> jnp_max l = Some m.
Proof.
  destruct l as [|x r]; [by intros ?%elem_of_nil|].
  intros Hin Hub. simpl. f_equal.
  destruct (foldr_max_spec x r) as [Hin' Hub'].
  specialize (Hub _ Hin'). specialize (Hub' _ Hin). lia.
Qed.

Lemma mask_times_prefix_lookup n L i :
  (L <= n)%nat -> (i < n)%nat ->
  mask_times (prefix_mask n L) (arange n) !! i
    = Some (if decide (i < L)%nat then Z.of_nat i else 0).
Proof.
  intros HL Hi. unfold mask_times, prefix_mask, arange.
  rewrite lookup_zip_with, list_lookup_fmap, lookup_seq_lt by done. simpl.
  case_decide as Hlt.
  - rewrite lookup_app_l by (rewrite length_replicate; lia).
    by rewrite lookup_replicate_2 by done.
  - rewrite lookup_app_r by (rewrite length_replicate; lia).
    rewrite length_replicate. by rewrite lookup_replicate_2 by lia.
Qed.

Lemma mask_times_prefix_length n L :
  (L <= n)%nat -> length (mask_times (prefix_mask n L) (arange n)) = n.
Proof.
  intros HL. unfold mask_times, prefix_mask, arange.
  rewrite length_zip_with, length_app, !length_replicate, length_fmap, length_seq. lia.
Qed.

(** On a prefix mask the shift amount [seqlen] is [max L 1]. *)
Lemma seqlen_prefix n L :
  (1 <= n)%nat -> (L <= n)%nat ->
  jnp_max (mask_times (prefix_mask n L) (arange n))
    = Some (Z.of_nat (Nat.max L 1) - 1).
Proof.
  intros Hn HL. apply jnp_max_unique.
  - apply list_elem_of_lookup. exists (Nat.max L 1 - 1)%nat.
    rewrite mask_times_prefix_lookup by lia. f_equal.
    case_decide; lia.
  - intros y Hy. apply list_elem_of_lookup in Hy as [i Hi].
    assert (i < n)%nat as Hlt.
    { apply lookup_lt_Some in Hi. by rewrite mask_times_prefix_length in Hi. }
    rewrite mask_times_prefix_lookup in Hi by lia. injection Hi as <-.
    case_decide; lia.
Qed.

Lemma prefix_mask_length n L : (L <= n)%nat -> length (prefix_mask n L) = n.
Proof.
  intros HL. unfold prefix_mask. rewrite length_app, !length_replicate. lia.
Qed.

Lemma roll_prefix_mask n L :
  (1 <= n)%nat -> (L <= n)%nat ->
  roll (- Z.of_nat (Nat.max L 1)) (prefix_mask n L)
    = replicate (n - L) false ++ replicate L true.
Proof.
  intros Hn HL. rewrite roll_neg_nat by (rewrite prefix_mask_length; lia).
  unfold prefix_mask. destruct L as [|L].
  - simpl. rewrite app_nil_r, Nat.sub_0_r.
    rewrite drop_replicate, take_replicate, <- replicate_add.
    f_equal. lia.
  - replace (Nat.max (S L) 1) with (S L) by lia.
    rewrite drop_app_length', take_app_length' by (by rewrite length_replicate).
    done.
Qed.

(** C8 (as amended): on a non-empty sequence whose validity mask is 1 on a
    prefix of length [L] and 0 afterwards, [left_to_right_align] rolls the
    embeddings, the validity mask and the attention mask left by
    [max L 1] positions (by [L] whenever [L >= 1]); the valid content then
    occupies the final [L] positions, and rolling the three results back
    by the same amount gives the original structures. *)
Theorem left_to_right_align_prefix (x : list E) (attn : list (list bool))
    (n L : nat) :
  length x = n ->
  Forall (fun r => length r = length attn) attn ->
  (1 <= n)%nat -> (L <= n)%nat ->
  let s := Z.of_nat (Nat.max L 1) in
  left_to_right_align x (prefix_mask n L) attn
    = Some (roll (- s) x, roll (- s) (prefix_mask n L), roll2 (- s) attn) /\
  roll (- s) x = drop (Nat.max L 1) x ++ take (Nat.max L 1) x /\
  drop (n - L) (roll (- s) x) = take L x /\
  roll (- s) (prefix_mask n L) = replicate (n - L) false ++ replicate L true /\
  roll s (roll (- s) x) = x /\
  roll s (roll (- s) (prefix_mask n L)) = prefix_mask n L /\
  roll2 s (roll2 (- s) attn) = attn.
Proof.
  intros Hx Hsq Hn HL s.
  assert (roll (- s) x = drop (Nat.max L 1) x ++ take (Nat.max L 1) x) as Hroll
    by (apply roll_neg_nat; lia).
  split; [|split; [done|split; [|split; [|split; [|split]]]]].
  - unfold left_to_right_align.
    rewrite prefix_mask_length by done.
    rewrite Hx, Nat.eqb_refl. simpl.
    replace (forallb _ attn) with true.
    2:{ symmetry. apply forallb_forall. intros r Hr.
        rewrite Forall_forall in Hsq. apply Nat.eqb_eq, Hsq.
        by apply list_elem_of_In. }
    simpl. rewrite seqlen_prefix by done. simpl.
    by replace (Z.of_nat (Nat.max L 1) - 1 + 1) with s by (unfold s; lia).
  - rewrite Hroll. destruct L as [|L].
    + rewrite Nat.sub_0_r, take_0. apply drop_ge.
      rewrite length_app, length_drop, length_take. lia.
    + replace (Nat.max (S L) 1) with (S L) by lia.
      rewrite drop_app_length'; [done|]. rewrite length_drop. lia.
  - by apply roll_prefix_mask.
  - apply roll_roll_back.
  - apply roll_roll_back.
  - apply roll2_roll2_back.
Qed.

End AlignFacts.

(** A sequence of four embeddings of which the first two are valid. *)
Lemma left_to_right_align_prefix_witness :
  Align.left_to_right_align [10; 20; 30; 40] (Align.prefix_mask 4 2)
      (replicate 4 (replicate 4 true))
    = Some ([30; 40; 10; 20], [false; false; true; true],
            replicate 4 (replicate 4 true)).
Proof.
  destruct (left_to_right_align_prefix [10; 20; 30; 40]
              (replicate 4 (replicate 4 true)) 4 2) as [H _].
  - reflexivity.
  - repeat constructor.
  - lia.
  - lia.
  - exact H.
Defined.

(** C8 as stated fails for [L = 0]: the claimed shift is by zero positions,
    but [max(input_mask * arange) + 1] is 1 on an all-invalid mask, so the
    embeddings are rolled by one position. *)
Lemma left_to_right_align_zero_prefix_counterexample :
  Align.left_to_right_align [10; 20; 30] (Align.prefix_mask 3 0)
      (replicate 3 (replicate 3 false))
    = Some ([20; 30; 10], [false; false; false], replicate 3 (replicate 3 false)) /\
  Align.left_to_right_align [10; 20; 30] (Align.prefix_mask 3 0)
      (replicate 3 (replicate 3 false))
    <> Some (Align.roll (- Z.of_nat 0) [10; 20; 30],
             Align.roll (- Z.of_nat 0) (Align.prefix_mask 3 0),
             Align.roll2 (- Z.of_nat 0) (replicate 3 (replicate 3 false))).
Proof. split; [reflexivity|]. vm_compute. discriminate. Qed.

Section EmbedderFacts.
Import Embedder.
Context (M : Backbone).

Abbreviation image_embs := (Embedder.image_embs M).
Abbreviation image_valid := (Embedder.image_valid M).
Abbreviation action_embs := (Embedder.action_embs M).
Abbreviation wf_obs := (Embedder.wf_obs M).
Abbreviation layout := (Embedder.layout M).

Lemma concatenate1_spec {A} (parts : list (list (list A))) (b : nat) :
  parts <> [] ->
  Forall (fun p => length p = b) parts ->
  exists r, concatenate1 parts = Some r /\ length r = b /\
    forall k, (k < b)%nat -> r !! k = Some (row_of parts k).
Proof.
  induction parts as [|p rest IH]; [done|]. intros _ Hall.
  apply Forall_cons in Hall as [Hp Hrest].
  destruct rest as [|q rest'].
  - exists p. split; [done|]. split; [done|]. intros k Hk.
    destruct (lookup_lt_is_Some_2 p k) as [x Hx]; [lia|].
    unfold row_of. simpl. by rewrite Hx, app_nil_r.
  - destruct IH as (r & Hr & Hlen & Hrows); [done|done|].
    change (concatenate1 (p :: q :: rest')) with
      (r0 ← concatenate1 (q :: rest');
       if decide (length p = length r0) then Some (zip_with app p r0) else None).
    rewrite Hr. simpl. rewrite decide_True by lia.
    eexists. split; [done|]. split.
    + rewrite length_zip_with. lia.
    + intros k Hk. rewrite lookup_zip_with.
      destruct (lookup_lt_is_Some_2 p k) as [x Hx]; [lia|].
      rewrite Hx, (Hrows k Hk). simpl. unfold row_of. simpl. by rewrite Hx.
Qed.

Lemma row_of_app {A} (p1 p2 : list (list (list A))) k :
  row_of (p1 ++ p2) k = row_of p1 k ++ row_of p2 k.
Proof. unfold row_of. by rewrite fmap_app, concat_app. Qed.

Lemma chunks_concat {A} (h : nat) (data : list (list A)) :
  Forall (fun rows => length rows = h) data ->
  chunks (length data) h (concat data) = data.
Proof.
  induction 1 as [|rows data Hrows _ IH]; [done|]. simpl.
  rewrite take_app_length', drop_app_length' by done. by rewrite IH.
Qed.

Lemma length_concat_uniform {A} (h : nat) (data : list (list A)) :
  Forall (fun rows => length rows = h) data ->
  length (concat data) = (length data * h)%nat.
Proof.
  induction 1 as [|rows data Hrows _ IH]; [done|]. simpl.
  rewrite length_app, IH. lia.
Qed.

Lemma fmap_concat {A B} (f : A -> B) (data : list (list A)) :
  f <$> concat data = concat ((fun rows : list A => f <$> rows) <$> data).
Proof. induction data as [|r data IH]; [done|]. simpl. by rewrite fmap_app, IH. Qed.

Lemma unflatten_proj {B} (proj : list R -> B) (a : Array3) b h d :
  shape3 a = (b, h, d) -> wf_array3 a ->
  unflatten b h (proj <$> concat (data3 a))
    = Some ((fun rows : list (list R) => proj <$> rows) <$> data3 a).
Proof.
  unfold wf_array3. intros -> [Hb Hrows].
  assert (Forall (fun rows => length rows = h) (data3 a)) as Hh
    by (eapply Forall_impl; [exact Hrows|]; by intros ? [? _]).
  unfold unflatten. rewrite length_fmap, (length_concat_uniform h) by done.
  rewrite Hb, decide_True by done. f_equal.
  rewrite fmap_concat. rewrite <- Hb at 1.
  rewrite <- (length_fmap (fun rows : list (list R) => proj <$> rows)).
  apply chunks_concat. apply Forall_fmap.
  eapply Forall_impl; [exact Hh|]. intros rows Hr. simpl. by rewrite length_fmap.
Qed.

Lemma embed_images_spec ims masks te im ar :
  Forall (fun nb : string * list (Image M) => is_Some (masks !! nb.1)) ims ->
  embed_images M ims masks (te, im, ar)
    = Some (te ++ image_embs ims, im ++ image_valid ims masks,
            ar ++ (zero_times <$> image_valid ims masks)).
Proof.
  revert te im ar. induction ims as [|[name batch] ims IH]; intros te im ar Hall.
  - simpl. by rewrite !app_nil_r.
  - apply Forall_cons in Hall as [[mask Hmask] Hrest]. simpl in Hmask.
    cbn [embed_images]. rewrite Hmask. cbn [mbind option_bind].
    rewrite IH by done.
    unfold image_embs, image_valid. cbn [fmap list_fmap fst snd].
    rewrite Hmask. cbn [default].
    by rewrite <- !app_assoc.
Qed.

Lemma embed_action_spec proj use_action_input actions b te im ar :
  wf_actions actions b ->
  embed_action M proj use_action_input actions (te, im, ar)
    = Some (te ++ action_embs proj use_action_input actions,
            im ++ action_const true use_action_input actions,
            ar ++ action_const 0 use_action_input actions).
Proof.
  unfold embed_action, action_embs, action_const, wf_actions.
  destruct actions as [a|]; [|by rewrite !app_nil_r].
  destruct use_action_input; [|by rewrite !app_nil_r].
  intros [Hwf Hb]. destruct (shape3 a) as [[b' h] d] eqn:Hs.
  by rewrite (unflatten_proj proj a b' h d Hs Hwf).
Qed.

Lemma zero_times_row (row : list bool) :
  (fun v : bool => 0 * (if v then 1 else 0)) <$> row = replicate (length row) 0.
Proof. induction row as [|v row IH]; [done|]. simpl. by rewrite <- IH. Qed.

Lemma row_of_image_embs ims b k :
  Forall (fun nb : string * list (Image M) => length nb.2 = b) ims ->
  (k < b)%nat ->
  length (row_of (image_embs ims) k) = (img_tokens M * length ims)%nat.
Proof.
  intros Hall Hk. induction Hall as [|[name batch] ims Hb _ IH]; [simpl; lia|].
  unfold row_of, image_embs in *. cbn [fmap list_fmap concat snd length] in *.
  rewrite length_app, IH. simpl in Hb.
  destruct (lookup_lt_is_Some_2 batch k) as [im Him]; [lia|].
  rewrite list_lookup_fmap, Him. simpl. rewrite img_length. lia.
Qed.

Lemma row_of_image_valid ims masks b k :
  Forall (fun nb : string * list (Image M) =>
            exists mask, masks !! nb.1 = Some mask /\ length mask = b) ims ->
  (k < b)%nat ->
  length (row_of (image_valid ims masks) k) = (img_tokens M * length ims)%nat /\
  row_of (zero_times <$> image_valid ims masks) k
    = replicate (img_tokens M * length ims) 0.
Proof.
  intros Hall Hk.
  induction Hall as [|[name batch] ims (mask & Hm & Hb) _ [IH1 IH2]].
  { split; [simpl; lia|]. by rewrite Nat.mul_0_r. }
  unfold row_of, image_valid in *.
  cbn [fmap list_fmap concat fst length] in *. simpl in Hm.
  rewrite Hm. change (default [] (Some mask)) with mask.
  destruct (lookup_lt_is_Some_2 mask k) as [v Hv]; [lia|].
  unfold repeat_b_s at 1 3. unfold zero_times at 1.
  rewrite !list_lookup_fmap, Hv.
  change (default [] (?f <$> (?g <$> Some ?x))) with (f (g x)).
  change (default [] (?f <$> Some ?x)) with (f x). cbv beta.
  rewrite length_app, length_replicate, IH1. split; [lia|].
  rewrite IH2, zero_times_row, length_replicate, <- replicate_add.
  f_equal. lia.
Qed.

Lemma row_of_singleton {A} (p : list (list A)) k : row_of [p] k = default [] (p !! k).
Proof. unfold row_of. simpl. by rewrite app_nil_r. Qed.

Lemma row_of_action_const {A} (x : A) use_action_input actions b k :
  wf_actions actions b -> (k < b)%nat ->
  row_of (action_const x use_action_input actions) k
    = replicate (action_span use_action_input actions) x.
Proof.
  unfold action_const, action_span, wf_actions.
  destruct actions as [a|]; [|done]. destruct use_action_input; [|done].
  intros [_ Hb] Hk. rewrite row_of_singleton, lookup_replicate_2 by lia. done.
Qed.

Lemma row_of_action_embs proj use_action_input actions b k :
  wf_actions actions b -> (k < b)%nat ->
  length (row_of (action_embs proj use_action_input actions) k)
    = action_span use_action_input actions.
Proof.
  unfold action_embs, action_span, wf_actions.
  destruct actions as [a|]; [|done]. destruct use_action_input; [|done].
  intros [Hwf Hb] Hk. unfold wf_array3 in Hwf.
  destruct (shape3 a) as [[b' h] d]. simpl in *. destruct Hwf as [Hlen Hrows].
  destruct (lookup_lt_is_Some_2 (data3 a) k) as [rows Hr]; [lia|].
  rewrite row_of_singleton, list_lookup_fmap, Hr. simpl. rewrite length_fmap.
  rewrite Forall_forall in Hrows.
  apply (Hrows rows). by eapply list_elem_of_lookup_2.
Qed.

Lemma parts_batch_images ims masks b :
  Forall (fun nb : string * list (Image M) =>
            length nb.2 = b /\
            exists mask, masks !! nb.1 = Some mask /\ length mask = b) ims ->
  Forall (fun p => length p = b) (image_embs ims) /\
  Forall (fun p => length p = b) (image_valid ims masks) /\
  Forall (fun p => length p = b) (zero_times <$> image_valid ims masks).
Proof.
  induction 1 as [|[name batch] ims (Hb & mask & Hm & Hl) _ (IH1 & IH2 & IH3)];
    [by repeat split|].
  unfold image_embs, image_valid in *. cbn [fmap list_fmap fst snd] in *.
  rewrite Hm. change (default [] (Some mask)) with mask.
  repeat split; constructor; try done.
  - by rewrite length_fmap.
  - unfold repeat_b_s. by rewrite length_fmap.
  - unfold zero_times, repeat_b_s. by rewrite !length_fmap.
Qed.

Lemma parts_batch_actions proj use_action_input actions b :
  wf_actions actions b ->
  Forall (fun p => length p = b) (action_embs proj use_action_input actions) /\
  Forall (fun p => length p = b) (action_const true use_action_input actions) /\
  Forall (fun p => length p = b) (action_const 0 use_action_input actions).
Proof.
  unfold action_embs, action_const, wf_actions.
  destruct actions as [a|]; [|by repeat split].
  destruct use_action_input; [|by repeat split].
  intros [Hwf Hb]. unfold wf_array3 in Hwf.
  destruct (shape3 a) as [[b' h] d]. simpl in *. destruct Hwf as [Hlen _].
  repeat split; constructor; try done.
  - rewrite length_fmap. lia.
  - by rewrite length_replicate.
  - by rewrite length_replicate.
Qed.

Lemma lookup_uniform_row {A} (arr : list (list A)) b T k :
  length arr = b -> Forall (fun row => length row = T) arr -> (k < b)%nat ->
  exists row, arr !! k = Some row /\ length row = T.
Proof.
  intros Hb Hall Hk. destruct (lookup_lt_is_Some_2 arr k) as [row Hr]; [lia|].
  exists row. split; [done|]. rewrite Forall_forall in Hall.
  apply Hall. by eapply list_elem_of_lookup_2.
Qed.

Lemma embed_sequence_layout (proj : list R -> Emb M)
    (use_action_input : bool) (obs : Observation (Image M))
    (actions : option Array3) (b T : nat) prompt pmask par :
  wf_obs obs b T prompt pmask par ->
  wf_actions actions b ->
  layout proj use_action_input obs actions b T prompt pmask par
    (embed_sequence M proj use_action_input obs actions).
Proof.
  intros (Hims & Hp & Hpm & Hpa & [Hpb HpT] & [Hmb HmT] & [Hab HaT]) Hact.
  unfold layout.
  set (span := action_span use_action_input actions).
  set (nimg := length (images obs)).
  assert (Forall (fun nb : string * list (Image M) =>
                    is_Some (image_masks obs !! nb.1)) (images obs)) as Hsome.
  { eapply Forall_impl; [exact Hims|]. intros nb (_ & mask & -> & _). eauto. }
  assert (Forall (fun nb : string * list (Image M) => length nb.2 = b) (images obs))
    as Hlen by (eapply Forall_impl; [exact Hims|]; by intros nb [? _]).
  assert (Forall (fun nb : string * list (Image M) =>
            exists mask, image_masks obs !! nb.1 = Some mask /\ length mask = b)
            (images obs))
    as Hmask by (eapply Forall_impl; [exact Hims|]; by intros nb [_ ?]).
  destruct (parts_batch_images _ _ _ Hims) as (Bi1 & Bi2 & Bi3).
  destruct (parts_batch_actions proj use_action_input _ _ Hact) as (Ba1 & Ba2 & Ba3).
  unfold embed_sequence.
  rewrite embed_images_spec by done. cbn [mbind option_bind app].
  rewrite (embed_action_spec _ _ _ b) by done. cbn [mbind option_bind].
  unfold embed_tokens. rewrite Hp, Hpm, Hpa. cbn [mbind option_bind].
  set (tok := (fun row : list Z => llm_embed M <$> row) <$> prompt).
  destruct (concatenate1_spec
              ((image_embs (images obs) ++ action_embs proj use_action_input actions)
                 ++ [tok]) b) as (e & He & Hel & Her).
  { by intros [_ ?]%app_nil. }
  { repeat apply Forall_app_2; try done. constructor; [|done].
    unfold tok. by rewrite length_fmap. }
  destruct (concatenate1_spec
              ((image_valid (images obs) (image_masks obs)
                  ++ action_const true use_action_input actions) ++ [pmask]) b)
    as (m & Hm & Hml & Hmr).
  { by intros [_ ?]%app_nil. }
  { repeat apply Forall_app_2; try done. by constructor. }
  destruct (concatenate1_spec
              (((zero_times <$> image_valid (images obs) (image_masks obs))
                  ++ action_const 0 use_action_input actions) ++ [par]) b)
    as (a & Ha & Hal & Har).
  { by intros [_ ?]%app_nil. }
  { repeat apply Forall_app_2; try done. by constructor. }
  rewrite He, Hm, Ha. cbn [mbind option_bind].
  exists e, m, a. split; [done|]. do 3 (split; [done|]).
  intros k Hk.
  destruct (lookup_uniform_row prompt b T k Hpb HpT Hk) as (prow & Hprow & Hpl).
  destruct (lookup_uniform_row pmask b T k Hmb HmT Hk) as (pmrow & Hpmrow & Hpml).
  destruct (lookup_uniform_row par b T k Hab HaT Hk) as (parow & Hparow & Hpal).
  pose proof (row_of_image_embs _ _ k Hlen Hk) as Le.
  destruct (row_of_image_valid _ _ _ k Hmask Hk) as [Lm Lz].
  pose proof (row_of_action_embs proj use_action_input _ _ k Hact Hk) as Lae.
  pose proof (row_of_action_const true use_action_input _ _ k Hact Hk) as Lam.
  pose proof (row_of_action_const 0 use_action_input _ _ k Hact Hk) as Laa.
  fold span in Lae, Lam, Laa. fold nimg in Le, Lm, Lz.
  eexists _, _, _, prow, pmrow, parow.
  rewrite (Her k Hk), (Hmr k Hk), (Har k Hk).
  rewrite !row_of_app, !row_of_singleton, Hprow, Hpmrow, Hparow.
  unfold tok. rewrite list_lookup_fmap, Hprow.
  cbn [fmap option_fmap option_map default from_option]. unfold Datatypes.id.
  rewrite Lam, Laa, Lz, <- !app_assoc.
  repeat split; try done.
  - rewrite !length_app, Le, Lae, length_fmap. lia.
  - rewrite !length_app, Lm, !length_replicate. lia.
  - rewrite !length_app, !length_replicate. lia.
Qed.

(** Rows that all have [n] entries pass the sequence-length check. *)
Lemma uniform_rows_check {A} (x : list (list A)) (b n s : nat) :
  length x = b ->
  (forall k, (k < b)%nat -> exists row, x !! k = Some row /\ length row = n) ->
  (b <> 0%nat -> s = n) ->
  Forall (fun row => length row = s) x.
Proof.
  intros Hb Hrows Hs. apply Forall_lookup. intros k row Hk.
  pose proof (lookup_lt_Some _ _ _ Hk) as Hlt.
  destruct (Hrows k) as (row' & Hk' & Hn); [lia|].
  rewrite Hk in Hk'. injection Hk' as <-. rewrite Hs; [done|lia].
Qed.

(** On well-formed inputs the result passes the decorator's check, so the
    decorated function returns what its body returns. *)
Lemma embed_inputs_with_action_layout (proj : list R -> Emb M)
    (use_action_input : bool) (obs : Observation (Image M))
    (actions : option Array3) (b T : nat) prompt pmask par :
  wf_obs obs b T prompt pmask par ->
  wf_actions actions b ->
  layout proj use_action_input obs actions b T prompt pmask par
    (embed_inputs_with_action M proj use_action_input obs actions).
Proof.
  intros Hobs Hact.
  pose proof (embed_sequence_layout proj use_action_input obs actions b T
                prompt pmask par Hobs Hact) as Hlay.
  unfold embed_inputs_with_action.
  destruct Hlay as (e & m & a & Hres & He & Hm & Ha & Hrows).
  rewrite Hres. cbn [mbind option_bind].
  replace (typecheck M actions (e, m, a)) with (Some (e, m, a)).
  { exists e, m, a. by repeat split. }
  symmetry. unfold typecheck.
  set (n := (img_tokens M * length (images obs)
             + action_span use_action_input actions + T)%nat) in Hrows.
  set (s := match e with [] => 0%nat | row :: _ => length row end).
  assert (b <> 0%nat -> s = n) as Hs.
  { intros Hb. destruct (Hrows 0%nat) as (er & mr & ar & pr & pmr & pa & H0 & _ & _
                                           & _ & _ & _ & L & _); [lia|].
    unfold s. destruct e as [|row e]; [done|]. by injection H0 as ->. }
  assert (match actions with
          | Some act => bool_decide ((shape3 act).1.1 = length e)
          | None => true
          end = true) as ->.
  { destruct actions as [act|]; [|done]. apply bool_decide_eq_true.
    destruct Hact as [_ ->]. done. }
  rewrite !bool_decide_eq_true_2; [done|..].
  - apply (uniform_rows_check a b n s Ha); [|done].
    intros k Hk. destruct (Hrows k Hk) as (er & mr & ar & pr & pmr & pa & ? & ?
                                            & ? & ? & ? & ? & ? & ? & ? & _). eauto.
  - apply (uniform_rows_check m b n s Hm); [|done].
    intros k Hk. destruct (Hrows k Hk) as (er & mr & ar & pr & pmr & pa & ? & ?
                                            & ? & ? & ? & ? & ? & ? & ? & _). eauto.
  - apply (uniform_rows_check e b n s He); [|done].
    intros k Hk. destruct (Hrows k Hk) as (er & mr & ar & pr & pmr & pa & ? & ?
                                            & ? & ? & ? & ? & ? & ? & ? & _). eauto.
  - lia.
  - lia.
Qed.

End EmbedderFacts.

Section DecodeFacts.
Import Decode.

Lemma one_hot_lookup idx n c :
  (c < n)%nat ->
  one_hot idx n !! c = Some (if decide (idx = Z.of_nat c) then 1 else 0).
Proof.
  intros Hc. unfold one_hot. by rewrite list_lookup_fmap, lookup_seq_lt by done.
Qed.

Lemma einsum_single_lookup v idx n c :
  (c < n)%nat ->
  einsum_i_in_n [v] [one_hot idx n] n !! c
    = Some (if decide (idx = Z.of_nat c) then v else 0).
Proof.
  intros Hc. unfold einsum_i_in_n.
  rewrite list_lookup_fmap, lookup_seq_lt by done. simpl.
  rewrite one_hot_lookup by done. simpl. f_equal. case_decide; lia.
Qed.

Lemma einsum_length a oh n : length (einsum_i_in_n a oh n) = n.
Proof. unfold einsum_i_in_n. by rewrite length_fmap, length_seq. Qed.

(** Writing one value per row is a positional update of the buffer row;
    an index outside the row writes nothing. *)
Lemma put_along_last_axis_row_single arr (i : nat) v :
  put_along_last_axis_row arr [Z.of_nat i] [v] = <[i:=v]> arr.
Proof.
  apply list_eq. intros c. unfold put_along_last_axis_row.
  rewrite lookup_zip_with. simpl.
  destruct (decide (c < length arr)%nat) as [Hc|Hc].
  - rewrite lookup_zip_with, !einsum_single_lookup by done. simpl.
    destruct (lookup_lt_is_Some_2 arr c Hc) as [a Ha]. rewrite Ha. simpl.
    destruct (decide (i = c)) as [->|Hne].
    + rewrite list_lookup_insert_eq by done.
      repeat case_decide; done.
    + rewrite list_lookup_insert_ne, Ha by done.
      repeat case_decide; try done; lia.
  - assert (arr !! c = None) as Hn by (apply lookup_ge_None; lia).
    assert (<[i:=v]> arr !! c = None) as ->
      by (apply lookup_ge_None; rewrite length_insert; lia).
    rewrite Hn. by destruct (zip_with _ _ _ !! c).
Qed.

Lemma put_along_last_axis_column (arr : list (list Z)) (i : nat) (v : Z) :
  put_along_last_axis arr (replicate (length arr) [Z.of_nat i])
                      (replicate (length arr) [v])
    = (fun row : list Z => <[i:=v]> row) <$> arr.
Proof.
  unfold put_along_last_axis. induction arr as [|row arr IH]; [done|].
  simpl. by rewrite put_along_last_axis_row_single, IH.
Qed.

Context (M : Backbone) (Rnd : Random).

Section LoopFacts.
Context (temperature : R) (max_decoding_steps prefill_size : nat)
        (prefill_len prefix_start : list Z).

Abbreviation step' :=
  (step M Rnd temperature max_decoding_steps prefill_size prefill_len prefix_start).
Abbreviation cond' := (cond M Rnd max_decoding_steps).
Abbreviation while_loop' :=
  (while_loop M Rnd temperature max_decoding_steps prefill_size prefill_len
     prefix_start).
Abbreviation step_token := (Decode.step_token M Rnd temperature).

Lemma step_fields (carry : Carry M Rnd) :
  c_step (step' carry) = S (c_step carry) /\
  c_all_eos (step' carry) = all_eos (step_token carry) /\
  c_output_tokens (step' carry)
    = put_along_last_axis (c_output_tokens carry)
        (replicate (length (step_token carry)) [Z.of_nat (c_step carry)])
        (step_token carry).
Proof.
  unfold step, step_token. destruct (split Rnd _) as [rng rng_step].
  by destruct (llm_step M _ _ _ _).
Qed.

(** The loop is total: with a budget of [max_decoding_steps] iterations it
    always ends in a carry on which [cond] is false. *)
Lemma while_loop_terminates fuel (carry : Carry M Rnd) :
  (max_decoding_steps - c_step carry <= fuel)%nat ->
  cond' (while_loop' fuel carry) = false.
Proof.
  revert carry. induction fuel as [|fuel IH]; intros carry Hfuel; simpl.
  - unfold cond. apply andb_false_intro2. apply Nat.ltb_ge. lia.
  - destruct (cond' carry) eqn:Hc; [|done].
    apply IH. destruct (step_fields carry) as [-> _]. lia.
Qed.

Lemma while_loop_continue fuel (carry : Carry M Rnd) :
  cond' carry = true ->
  while_loop' (S fuel) carry = while_loop' fuel (step' carry).
Proof. intros Hc. simpl. by rewrite Hc. Qed.

(** [all_eos] looks at the tokens of the current step only. *)
Lemma all_eos_spec (token : list (list Z)) :
  all_eos token = true <->
  forall row, row ∈ token -> PALIGEMMA_EOS_TOKEN ∈ row.
Proof.
  unfold all_eos, has_eos. rewrite forallb_forall. split.
  - intros H row Hrow.
    assert (existsb (fun t => t =? PALIGEMMA_EOS_TOKEN) row = true) as Hex.
    { apply H, list_elem_of_In, list_elem_of_fmap. by exists row. }
    apply existsb_exists in Hex as (t & Ht & Heq).
    apply Z.eqb_eq in Heq as <-. by apply list_elem_of_In.
  - intros H v Hv. apply list_elem_of_In, list_elem_of_fmap in Hv as (row & -> & Hrow).
    apply existsb_exists. exists PALIGEMMA_EOS_TOKEN. split.
    + by apply list_elem_of_In, H.
    + apply Z.eqb_refl.
Qed.

End LoopFacts.

Lemma greedy_token_eos (temperature : R) rng_step (last_logit : list (list (list R))) :
  temperature = 0%R ->
  Forall (fun rows : list (list R) => argmax <$> rows = [PALIGEMMA_EOS_TOKEN]) last_logit ->
  select_token Rnd temperature rng_step last_logit
    = replicate (length last_logit) [PALIGEMMA_EOS_TOKEN].
Proof.
  intros -> Hall. unfold select_token.
  destruct (Rlt_dec 0 0) as [Hlt|_]; [lra|].
  induction Hall as [|rows l Hr _ IH]; [done|].
  cbn [length replicate]. rewrite fmap_cons. by f_equal.
Qed.

Lemma all_eos_replicate n : all_eos (replicate n [PALIGEMMA_EOS_TOKEN]) = true.
Proof.
  apply all_eos_spec. intros row Hrow.
  apply elem_of_replicate in Hrow as [-> _]. apply list_elem_of_here.
Qed.

(** When every greedy choice at step 0 is the end-of-sequence token, the
    loop body runs exactly once and writes column 0 of the buffer. *)
Lemma decode_loop_eos_at_step_0 (rng : Key Rnd) (p : Prefill M)
    (max_decoding_steps : nat) (temperature : R) :
  (0 < max_decoding_steps)%nat ->
  temperature = 0%R ->
  Forall (fun rows : list (list R) => argmax <$> rows = [PALIGEMMA_EOS_TOKEN])
         (p_last_logit p) ->
  let final := decode_loop M Rnd rng p max_decoding_steps temperature in
  c_step final = 1%nat /\
  c_output_tokens final
    = replicate (length (p_last_logit p))
        (PALIGEMMA_EOS_TOKEN :: replicate (max_decoding_steps - 1) 0).
Proof.
  intros Hmax Ht Hall final. unfold final, decode_loop.
  destruct max_decoding_steps as [|n]; [lia|].
  set (c0 := init_carry M Rnd rng p (S n)).
  assert (cond M Rnd (S n) c0 = true) as Hcond by done.
  cbn [while_loop]. rewrite Hcond.
  destruct (step_fields temperature (S n) (p_prefill_size p) (p_prefill_len p)
              (p_prefix_start p) c0) as (Hs & He & Ho).
  assert (Decode.step_token M Rnd temperature c0
          = replicate (length (p_last_logit p)) [PALIGEMMA_EOS_TOKEN]) as Htok
    by (unfold Decode.step_token; by apply greedy_token_eos).
  rewrite Htok in He, Ho. rewrite all_eos_replicate in He.
  rewrite length_replicate in Ho.
  assert (forall fuel c, c_all_eos c = true ->
            while_loop M Rnd temperature (S n) (p_prefill_size p)
              (p_prefill_len p) (p_prefix_start p) fuel c = c) as Hstop.
  { intros fuel c Hc. destruct fuel; [done|]. simpl. unfold cond. by rewrite Hc. }
  rewrite Hstop by done. split; [by rewrite Hs|].
  rewrite Ho. unfold c0. cbn [init_carry c_output_tokens c_step].
  pose proof (put_along_last_axis_column
                (replicate (length (p_last_logit p)) (replicate (S n) 0))
                0 PALIGEMMA_EOS_TOKEN) as Hput.
  rewrite length_replicate in Hput.
  rewrite Hput, fmap_replicate. simpl. by rewrite Nat.sub_0_r.
Qed.

End DecodeFacts.

(** C7: for both embedders ([embed_inputs_with_prev_action] of the
    distillation model, [embed_inputs_with_current_action] of the
    predictive model), on a well-formed observation of any batch size and
    any camera validity flags, every output row has length
    [img_tokens * num_images + action_span + T], where the action span is
    the action horizon when one is supplied and the configuration enables
    it and 0 otherwise, and [T] is the tokenized-prompt length; the row is
    the image segment, then the action span (validity all true,
    autoregressive flag 0), then the text tokens. *)
Theorem embedder_sequence_layout :
  (forall (self : ObsDistilled.Model) obs prev_actions b T prompt pmask par,
      Embedder.wf_obs (ObsDistilled.PaliGemma self) obs b T prompt pmask par ->
      Embedder.wf_actions prev_actions b ->
      Embedder.layout (ObsDistilled.PaliGemma self) (ObsDistilled.prev_action_proj self)
        (ObsDistilled.use_prev_action_input (ObsDistilled.config self))
        obs prev_actions b T prompt pmask par
        (ObsDistilled.embed_inputs_with_prev_action self obs prev_actions)) /\
  (forall (self : Predictive.Model) obs current_actions b T prompt pmask par,
      Embedder.wf_obs (Predictive.PaliGemma self) obs b T prompt pmask par ->
      Embedder.wf_actions current_actions b ->
      Embedder.layout (Predictive.PaliGemma self) (Predictive.current_action_proj self)
        (Predictive.use_current_action_input (Predictive.config self))
        obs current_actions b T prompt pmask par
        (Predictive.embed_inputs_with_current_action self obs current_actions)).
Proof.
  split; intros; by apply embed_inputs_with_action_layout.
Qed.

Lemma toy_obs_wf (prompts : list (list Z)) (T : nat) :
  Forall (fun row => length row = T) prompts ->
  Embedder.wf_obs Examples.toy_backbone (Examples.toy_obs prompts) (length prompts) T prompts
    ((fun row : list Z => (fun _ : Z => true) <$> row) <$> prompts)
    ((fun row : list Z => (fun _ : Z => 1) <$> row) <$> prompts).
Proof.
  intros HT. unfold Embedder.wf_obs, Examples.toy_obs. simpl.
  split; [|repeat split; try done].
  - constructor; [|done]. simpl. split; [by rewrite length_fmap|].
    eexists. split; [apply lookup_singleton_eq|]. by rewrite length_fmap.
  - by rewrite length_fmap.
  - apply Forall_fmap. eapply Forall_impl; [exact HT|].
    intros row Hr. simpl. by rewrite length_fmap.
  - by rewrite length_fmap.
  - apply Forall_fmap. eapply Forall_impl; [exact HT|].
    intros row Hr. simpl. by rewrite length_fmap.
Qed.

Lemma toy_actions_wf b : Embedder.wf_actions (Some (Examples.toy_actions b)) b.
Proof.
  unfold Embedder.wf_actions, Embedder.wf_array3, Examples.toy_actions. simpl.
  split; [|done]. split; [by rewrite length_replicate|].
  apply Forall_replicate. split; [done|]. by repeat constructor.
Qed.

(** A batch of two examples, one camera, an action horizon of two and a
    prompt of three tokens: rows of length 1 * 1 + 2 + 3. *)
Lemma embedder_sequence_layout_witness :
  Embedder.layout Examples.toy_backbone (fun _ => 9) true
    (Examples.toy_obs [[5; 5; 2]; [5; 5; 1]]) (Some (Examples.toy_actions 2))
    2 3 [[5; 5; 2]; [5; 5; 1]]
    [[true; true; true]; [true; true; true]] [[1; 1; 1]; [1; 1; 1]]
    (Some ([[7; 9; 9; 5; 5; 2]; [7; 9; 9; 5; 5; 1]],
           [replicate 6 true; replicate 6 true],
           [[0; 0; 0; 1; 1; 1]; [0; 0; 0; 1; 1; 1]])).
Proof.
  exact (proj1 embedder_sequence_layout (Examples.toy_distilled true None)
           (Examples.toy_obs [[5; 5; 2]; [5; 5; 1]]) (Some (Examples.toy_actions 2))
           2%nat 3%nat [[5; 5; 2]; [5; 5; 1]] _ _
           (toy_obs_wf [[5; 5; 2]; [5; 5; 1]] 3
              ltac:(repeat constructor))
           (toy_actions_wf 2)).
Defined.

(** C6: with greedy selection (temperature 0) and a prefill whose arg-max
    is the end-of-sequence token 1 for every example, the decode loop of
    [sample_actions] runs exactly one step, and the returned buffer holds
    1 in its first column and its initial 0 in every other column. *)
Theorem sample_actions_eos_at_step_0 (self : ObsDistilled.Model) (Rnd : Random)
    (rng : Key Rnd) observation prev_actions (max_decoding_steps : nat)
    (p : Decode.Prefill (ObsDistilled.PaliGemma self)) :
  Decode.prefill (ObsDistilled.PaliGemma self)
    (ObsDistilled.embed_inputs_with_prev_action self)
    observation prev_actions max_decoding_steps = Some p ->
  (0 < max_decoding_steps)%nat ->
  Forall (fun rows : list (list R) =>
            Decode.argmax <$> rows = [Decode.PALIGEMMA_EOS_TOKEN])
         (Decode.p_last_logit p) ->
  Decode.c_step (Decode.decode_loop _ Rnd rng p max_decoding_steps 0%R) = 1%nat /\
  ObsDistilled.sample_actions self Rnd rng observation prev_actions
      max_decoding_steps 0%R
    = Some (replicate (length (Decode.p_last_logit p))
              (1 :: replicate (max_decoding_steps - 1) 0)).
Proof.
  intros Hp Hmax Hall.
  destruct (decode_loop_eos_at_step_0 (ObsDistilled.PaliGemma self) Rnd rng p
              max_decoding_steps 0%R Hmax eq_refl Hall) as [Hstep Hout].
  split; [exact Hstep|].
  unfold ObsDistilled.sample_actions, Decode.sample_actions.
  rewrite Hp. simpl. by rewrite Hout.
Qed.

Lemma argmax_010 : Decode.argmax [0%R; 1%R; 0%R] = 1.
Proof.
  unfold Decode.argmax, Decode.argmax_from.
  destruct (Rlt_dec 0 1) as [_|H]; [|exfalso; lra].
  destruct (Rlt_dec 1 0) as [H|_]; [exfalso; lra|]. reflexivity.
Qed.

Lemma argmax_001 : Decode.argmax [0%R; 0%R; 1%R] = 2.
Proof.
  unfold Decode.argmax, Decode.argmax_from.
  destruct (Rlt_dec 0 0) as [H|_]; [exfalso; lra|].
  destruct (Rlt_dec 0 1) as [_|H]; [|exfalso; lra]. reflexivity.
Qed.

(** Two examples whose prompts both end in token 2, after which the toy
    backbone scores the end-of-sequence token highest. *)
Lemma sample_actions_eos_at_step_0_witness :
  ObsDistilled.sample_actions (Examples.toy_distilled true None)
      Examples.toy_random tt (Examples.toy_obs [[5; 5; 2]; [5; 1; 2]])
      (Some (Examples.toy_actions 2)) 3 0%R
    = Some [[1; 0; 0]; [1; 0; 0]].
Proof.
  refine (proj2 (sample_actions_eos_at_step_0 (Examples.toy_distilled true None)
            Examples.toy_random tt (Examples.toy_obs [[5; 5; 2]; [5; 1; 2]])
            (Some (Examples.toy_actions 2)) 3
            (Decode.Build_Prefill Examples.toy_backbone 6 [6; 6] [0; 0]
               [[[0%R; 1%R; 0%R]]; [[0%R; 1%R; 0%R]]] 0%nat) _ _ _)).
  - vm_compute. reflexivity.
  - lia.
  - constructor; [exact (f_equal (fun t => [t]) argmax_010)|].
    constructor; [exact (f_equal (fun t => [t]) argmax_010)|]. constructor.
Defined.

Section ToyDecode.
Import Decode Examples.

Lemma argmax_logit_after tok : argmax (logit_after tok) = toy_next tok.
Proof.
  unfold logit_after, toy_next. case_decide; [apply argmax_001 | apply argmax_010].
Qed.

Lemma greedy_logits_after (e : list (list Z)) :
  (fun rows : list (list R) => argmax <$> rows) <$> logits_after e
    = (fun row : list Z => toy_next <$> row) <$> e.
Proof.
  unfold logits_after. rewrite <- list_fmap_compose.
  apply list_fmap_ext. intros _ row _. simpl.
  rewrite <- list_fmap_compose. apply list_fmap_ext. intros _ t _. simpl.
  apply argmax_logit_after.
Qed.

Lemma toy_step (c : Carry toy_backbone toy_random) (e : list (list Z))
    (max_decoding_steps prefill_size : nat) (prefill_len prefix_start : list Z) :
  c_last_logit c = logits_after e ->
  let tok := (fun row : list Z => toy_next <$> row) <$> e in
  step toy_backbone toy_random 0%R max_decoding_steps prefill_size prefill_len
       prefix_start c
    = Build_Carry toy_backbone toy_random tt (logits_after tok)
        (put_along_last_axis (c_output_tokens c)
           (replicate (length tok) [Z.of_nat (c_step c)]) tok)
        (S (c_cache c)) (all_eos tok) (S (c_step c)).
Proof.
  intros Hl tok. unfold step. cbn [split toy_random].
  unfold select_token. destruct (Rlt_dec 0 0) as [H|_]; [exfalso; lra|].
  rewrite Hl, greedy_logits_after. fold tok.
  cbn [llm_step llm_embed toy_backbone].
  replace ((fun row : list Z => (fun t : Z => t) <$> row) <$> tok) with tok; [done|].
  rewrite <- (list_fmap_id tok) at 1. apply list_fmap_ext.
  intros _ row _. simpl. by rewrite list_fmap_id.
Qed.

End ToyDecode.

(** C1 (evaluation of the code where it departs from the claim).  Batch
    of two, greedy decoding, a budget of three steps: example 0 emits the
    end-of-sequence token at step 0 and example 1 at step 1.  After the
    second step every example has emitted token 1, yet [all_eos] is false
    because it is computed from the tokens of the current step only; the
    loop goes on and spends its whole budget. *)
Theorem all_eos_ignores_earlier_steps :
  let M := Examples.toy_backbone in
  let Rnd := Examples.toy_random in
  let obs := Examples.toy_obs [[5; 5; 2]; [5; 5; 1]] in
  let p := Decode.Build_Prefill M 6 [6; 6] [0; 0]
             [[[0%R; 1%R; 0%R]]; [[0%R; 0%R; 1%R]]] 0%nat in
  let step := Decode.step M Rnd 0%R 3 6 [6; 6] [0; 0] in
  let c2 := step (step (Decode.init_carry M Rnd tt p 3)) in
  Decode.prefill M (ObsDistilled.embed_inputs_with_prev_action
                      (Examples.toy_distilled true None))
      obs (Some (Examples.toy_actions 2)) 3 = Some p /\
  Decode.c_output_tokens c2 = [[1; 2; 0]; [2; 1; 0]] /\
  Decode.c_all_eos c2 = false /\
  Decode.cond M Rnd 3 c2 = true /\
  Decode.c_step (Decode.decode_loop M Rnd tt p 3 0%R) = 3%nat /\
  ObsDistilled.sample_actions (Examples.toy_distilled true None) Rnd tt obs
      (Some (Examples.toy_actions 2)) 3 0%R
    = Some [[1; 2; 1]; [2; 1; 2]].
Proof.
  intros M Rnd obs p step c2.
  assert (Decode.prefill M (ObsDistilled.embed_inputs_with_prev_action
                              (Examples.toy_distilled true None))
            obs (Some (Examples.toy_actions 2)) 3 = Some p) as Hp
    by (vm_compute; reflexivity).
  set (c0 := Decode.init_carry M Rnd tt p 3).
  assert (step c0 =
          (Decode.Build_Carry M Rnd tt (Examples.logits_after [[1]; [2]])
             [[1; 0; 0]; [2; 0; 0]] 1%nat false 1%nat)) as H1
    by (unfold step; by rewrite (toy_step c0 [[2]; [1]])).
  assert (c2 =
          (Decode.Build_Carry M Rnd tt (Examples.logits_after [[2]; [1]])
             [[1; 2; 0]; [2; 1; 0]] 2%nat false 2%nat)) as H2
    by (unfold c2; fold c0; rewrite H1; unfold step;
        by rewrite (toy_step _ [[1]; [2]])).
  assert (step c2 =
          (Decode.Build_Carry M Rnd tt (Examples.logits_after [[1]; [2]])
             [[1; 2; 1]; [2; 1; 2]] 3%nat false 3%nat)) as H3
    by (rewrite H2; unfold step; by rewrite (toy_step _ [[2]; [1]])).
  assert (Decode.decode_loop M Rnd tt p 3 0%R = step c2) as Hloop.
  { unfold Decode.decode_loop.
    change (Decode.p_prefill_size p) with 6%nat.
    change (Decode.p_prefill_len p) with [6; 6].
    change (Decode.p_prefix_start p) with [0; 0].
    fold c0.
    rewrite while_loop_continue by done. fold step.
    rewrite while_loop_continue
      by (change (Decode.cond M Rnd 3 (step c0) = true); by rewrite H1).
    fold step.
    fold c2.
    rewrite while_loop_continue
      by (change (Decode.cond M Rnd 3 c2 = true); by rewrite H2).
    done. }
  split; [exact Hp|]. rewrite H2. do 3 (split; [done|]).
  split; [by rewrite Hloop, H3|].
  unfold ObsDistilled.sample_actions, Decode.sample_actions.
  change (ObsDistilled.PaliGemma (Examples.toy_distilled true None)) with M.
  rewrite Hp. cbn [mbind option_bind]. by rewrite Hloop, H3.
Qed.

Section BroadcastFacts.
Import Loss.

Lemma mapM_fmap_res {A C D} (h : C -> D) (f : A -> option C)
    (f' : A -> option D) (l : list A) :
  (forall x, f' x = h <$> f x) -> mapM f' l = fmap h <$> mapM f l.
Proof.
  intros H. induction l as [|x l IH]; [done|]. simpl. rewrite H, IH.
  destruct (f x); simpl; [|done]. by destruct (mapM f l).
Qed.

Lemma mapM_map {A A' C D} (g : A' -> A) (h : C -> D) (f : A' -> option C)
    (f' : A -> option D) (l : list A') :
  (forall x, f' (g x) = h <$> f x) -> mapM f' (g <$> l) = fmap h <$> mapM f l.
Proof.
  intros H. induction l as [|x l IH]; [done|].
  change (g <$> x :: l) with (g x :: (g <$> l)).
  cbn [mapM]. rewrite H, IH.
  destruct (f x); simpl; [|done]. by destruct (mapM f l).
Qed.

Lemma mapM_zip_map {A A' B C D} (g : A' -> A) (h : C -> D)
    (f : A' -> B -> option C) (f' : A -> B -> option D)
    (a : list A') (b : list B) :
  (forall x y, f' (g x) y = h <$> f x y) ->
  mapM (fun ab : A * B => f' ab.1 ab.2) (zip (g <$> a) b)
    = (fmap h : list C -> list D) <$>
        mapM (fun ab : A' * B => f ab.1 ab.2) (zip a b).
Proof.
  intros H. revert b. induction a as [|x a IH]; intros [|y b]; try done.
  simpl. rewrite H, IH. destruct (f x y); simpl; [|done].
  by destruct (mapM _ (zip a b)).
Qed.

(** Mapping over the first operand and over the result commutes with
    broadcasting. *)
Lemma bcast_map {A A' B C D} (g : A' -> A) (h : C -> D)
    (f : A' -> B -> option C) (f' : A -> B -> option D)
    (a : list A') (b : list B) :
  (forall x y, f' (g x) y = h <$> f x y) ->
  bcast f' (g <$> a) b = (fmap h : list C -> list D) <$> bcast f a b.
Proof.
  intros H. unfold bcast. rewrite length_fmap. case_decide.
  - by apply mapM_zip_map.
  - destruct a as [|x [|x' a]].
    + by destruct b as [|y [|y' b]].
    + simpl. apply mapM_fmap_res. intros y. apply H.
    + destruct b as [|y [|y' b]]; try done.
      apply (mapM_map g h (fun x => f x y) (fun x => f' x y) (x :: x' :: a)).
      intros z. apply H.
Qed.

(** The length of a broadcast result. *)
Lemma bcast_length {A B C} (f : A -> B -> option C) a b c :
  bcast f a b = Some c ->
  (length a = length b /\ length c = length b) \/
  (length a = 1%nat /\ length c = length b) \/
  (length b = 1%nat /\ length c = length a).
Proof.
  unfold bcast. case_decide as Hlen.
  - intros Hc. apply length_mapM in Hc. rewrite length_zip in Hc. left. lia.
  - destruct a as [|x [|x' a]].
    + destruct b as [|y [|y' b]]; try done. intros Hc. apply length_mapM in Hc.
      right. right. done.
    + intros Hc. apply length_mapM in Hc. right. left. done.
    + destruct b as [|y [|y' b]]; try done. intros Hc. apply length_mapM in Hc.
      right. right. done.
Qed.

(** Every entry of a broadcast result is the operation applied to an entry
    of each operand. *)
Lemma bcast_Forall {A B C} (P : A -> Prop) (Q : B -> Prop) (S : C -> Prop)
    (f : A -> B -> option C) a b c :
  (forall x y z, P x -> Q y -> f x y = Some z -> S z) ->
  Forall P a -> Forall Q b -> bcast f a b = Some c -> Forall S c.
Proof.
  intros Hf Ha Hb. unfold bcast.
  assert (forall (g : B -> option C) l k,
            (forall y z, Q y -> g y = Some z -> S z) -> Forall Q l ->
            mapM g l = Some k -> Forall S k) as Hright.
  { intros g l k Hg Hl Hk. apply mapM_Some_1 in Hk.
    induction Hk as [|y z l k Hyz _ IH]; [constructor|].
    apply Forall_cons in Hl as [Hy Hl]. constructor; eauto. }
  assert (forall (g : A -> option C) l k,
            (forall x z, P x -> g x = Some z -> S z) -> Forall P l ->
            mapM g l = Some k -> Forall S k) as Hleft.
  { intros g l k Hg Hl Hk. apply mapM_Some_1 in Hk.
    induction Hk as [|y z l k Hyz _ IH]; [constructor|].
    apply Forall_cons in Hl as [Hy Hl]. constructor; eauto. }
  case_decide as Hlen.
  - intros Hc. apply mapM_Some_1 in Hc. clear Hlen Hright Hleft.
    revert b c Hb Hc. induction Ha as [|x a Hx Ha IH]; intros b c Hb Hc.
    + simpl in Hc. inversion Hc. constructor.
    + destruct Hb as [|y b Hy Hb]; simpl in Hc; inversion Hc; subst;
        constructor; eauto.
  - destruct a as [|x [|x' a]].
    + destruct b as [|y [|y' b]]; try done. intros [= <-]. constructor.
    + rewrite Forall_singleton in Ha. apply Hright; eauto.
    + destruct b as [|y [|y' b]]; try done. rewrite Forall_singleton in Hb.
      apply Hleft; eauto.
Qed.

(** Operands of the same length are combined entry by entry. *)
Lemma bcast_same {A B C} (f : A -> B -> option C) (g : A -> B -> C) a b :
  Forall2 (fun x y => f x y = Some (g x y)) a b ->
  bcast f a b = Some (zip_with g a b).
Proof.
  intros H. unfold bcast. rewrite decide_True by (by eapply Forall2_length).
  apply mapM_Some_2. induction H; constructor; done.
Qed.

Lemma zip1_same {A B C} (f : A -> B -> C) a b :
  length a = length b -> zip1 f a b = Some (zip_with f a b).
Proof. intros H. apply bcast_same. by apply Forall2_true. Qed.

Lemma zip_with_Forall {A B C} (P : A -> Prop) (Q : B -> Prop) (S : C -> Prop)
    (f : A -> B -> C) a b :
  (forall x y, P x -> Q y -> S (f x y)) ->
  Forall P a -> Forall Q b -> Forall S (zip_with f a b).
Proof.
  intros Hf Ha. revert b. induction Ha as [|x a Hx _ IH]; intros b Hb; [constructor|].
  destruct Hb as [|y b Hy Hb]; simpl; constructor; eauto.
Qed.

Lemma fmap_zip_with_r {A B C D} (h : C -> D) (f : A -> B -> C) a b :
  h <$> zip_with f a b = zip_with (fun x y => h (f x y)) a b.
Proof. revert b. induction a as [|x a IH]; intros [|y b]; simpl; f_equal; auto. Qed.

End BroadcastFacts.

Section ShapeFacts.
Import Loss SameShape.
Local Open Scope R_scope.

Lemma has_shape2_rows {A B} (b s : nat) (x : list (list A)) (y : list (list B)) :
  has_shape2 b s x -> has_shape2 b s y ->
  Forall2 (fun r r' => length r = length r') x y.
Proof.
  intros [Hx Fx] [Hy Fy]. apply Forall2_same_length_lookup_2; [congruence|].
  intros i r r' H1 H2. rewrite Forall_lookup in Fx. rewrite Forall_lookup in Fy.
  by rewrite (Fx _ _ H1), (Fy _ _ H2).
Qed.

Lemma has_shape3_rows {A B} (b s v : nat) (x : list (list (list A)))
    (y : list (list (list B))) :
  has_shape3 b s v x -> has_shape3 b s v y ->
  Forall2 (fun m m' => has_shape2 s v m /\ has_shape2 s v m') x y.
Proof.
  intros [Hx Fx] [Hy Fy]. apply Forall2_same_length_lookup_2; [congruence|].
  intros i r r' H1 H2. rewrite Forall_lookup in Fx. rewrite Forall_lookup in Fy.
  split; eauto.
Qed.

Lemma zip2_same {A B C} (f : A -> B -> C) (b s : nat) x y :
  has_shape2 b s x -> has_shape2 b s y ->
  Loss.zip2 f x y = Some (zip_with (zip_with f) x y).
Proof.
  intros Hx Hy. apply bcast_same.
  eapply Forall2_impl; [by eapply has_shape2_rows|].
  intros r r' Hlen. simpl. by apply zip1_same.
Qed.

Lemma zip3_same (f : R -> R -> R) (b s v : nat) x y :
  has_shape3 b s v x -> has_shape3 b s v y ->
  Loss.zip3 f x y = Some (SameShape.zip3 f x y).
Proof.
  intros Hx Hy. apply bcast_same.
  eapply Forall2_impl; [by eapply has_shape3_rows|].
  intros m m' [Hm Hm']. simpl. by eapply (zip2_same f).
Qed.

Lemma has_shape3_rows3 (f : list R -> list R) (b s v : nat) x :
  (forall row, length (f row) = length row) ->
  has_shape3 b s v x -> has_shape3 b s v (rows3 f x).
Proof.
  intros Hf [Hx Fx]. split; [by unfold rows3; rewrite length_fmap|].
  apply Forall_fmap. eapply Forall_impl; [exact Fx|].
  intros m [Hm Fm]. split; [by rewrite length_fmap|].
  apply Forall_fmap. eapply Forall_impl; [exact Fm|].
  intros row Hrow. simpl. by rewrite Hf.
Qed.

Lemma has_shape3_map3 (f : R -> R) (b s v : nat) x :
  has_shape3 b s v x -> has_shape3 b s v (map3 f x).
Proof.
  intros H. apply (has_shape3_rows3 (fmap f)); [|done].
  intros row. by rewrite length_fmap.
Qed.

Lemma has_shape3_zip3 (f : R -> R -> R) (b s v : nat) x y :
  has_shape3 b s v x -> has_shape3 b s v y ->
  has_shape3 b s v (SameShape.zip3 f x y).
Proof.
  intros [Hx Fx] [Hy Fy]. split.
  { unfold SameShape.zip3. rewrite length_zip_with. lia. }
  apply (zip_with_Forall (has_shape2 s v) (has_shape2 s v)); [|done|done].
  intros m m' [Hm Fm] [Hm' Fm']. split; [rewrite length_zip_with; lia|].
  apply (zip_with_Forall (fun r => length r = v) (fun r => length r = v));
    [|done|done].
  intros r r' Hr Hr'. rewrite length_zip_with. lia.
Qed.

Lemma has_shape2_sum_last3 (b s v : nat) x :
  has_shape3 b s v x -> has_shape2 b s (sum_last3 x).
Proof.
  intros [Hx Fx]. split; [by unfold sum_last3; rewrite length_fmap|].
  apply Forall_fmap. eapply Forall_impl; [exact Fx|].
  intros m [Hm _]. simpl. by rewrite length_fmap.
Qed.

Lemma has_shape2_fmap {A B} (f : A -> B) (b s : nat) (x : list (list A)) :
  has_shape2 b s x -> has_shape2 b s ((fun row : list A => f <$> row) <$> x).
Proof.
  intros [Hx Fx]. split; [by rewrite length_fmap|].
  apply Forall_fmap. eapply Forall_impl; [exact Fx|].
  intros row Hrow. simpl. by rewrite length_fmap.
Qed.

Lemma has_shape2_drop_first {A} (b T : nat) (x : list (list A)) :
  has_shape2 b T x -> has_shape2 b (T - 1) (Slice.drop_first <$> x).
Proof.
  intros [Hx Fx]. split; [by rewrite length_fmap|].
  apply Forall_fmap. eapply Forall_impl; [exact Fx|].
  intros row Hrow. unfold compose, Slice.drop_first. simpl in Hrow.
  rewrite length_drop. lia.
Qed.

Lemma has_shape3_targets_of (b T : nat) (prompt : list (list Z)) (vocab : nat) :
  has_shape2 b T prompt -> has_shape3 b (T - 1) vocab (targets_of prompt vocab).
Proof.
  intros [Hx Fx]. split; [by unfold targets_of; rewrite length_fmap|].
  apply Forall_fmap. eapply Forall_impl; [exact Fx|].
  intros row Hrow. unfold compose. simpl in Hrow. split.
  - rewrite length_fmap. unfold Slice.drop_first. rewrite length_drop. lia.
  - apply Forall_fmap, Forall_forall. intros t _. unfold compose.
    unfold one_hot. by rewrite length_fmap, length_seq.
Qed.

Lemma log_softmax_length row : length (log_softmax row) = length row.
Proof. unfold log_softmax. by rewrite length_fmap. Qed.

Lemma softmax_length row : length (softmax row) = length row.
Proof. unfold softmax. by rewrite length_fmap. Qed.

Lemma denominator_length (loss_mask : list (list bool)) :
  length (denominator loss_mask) = length loss_mask.
Proof. unfold denominator. by rewrite length_fmap. Qed.

Lemma masked_sum_length x (loss_mask : list (list bool)) :
  length (SameShape.masked_sum x loss_mask)
    = Nat.min (length x) (length loss_mask).
Proof. unfold SameShape.masked_sum. by rewrite length_zip_with. Qed.

(** On operands of equal shapes the loss operations are the entry-by-entry
    forms. *)
Lemma masked_sum_same (b s : nat) x (loss_mask : list (list bool)) :
  has_shape2 b s x -> has_shape2 b s loss_mask ->
  Loss.masked_sum x loss_mask = Some (SameShape.masked_sum x loss_mask).
Proof.
  intros Hx Hm. unfold Loss.masked_sum.
  rewrite (zip2_same _ b s x loss_mask Hx Hm). cbn [mbind option_bind].
  f_equal. apply fmap_zip_with_r.
Qed.

Lemma div1_same a b :
  length a = length b -> Loss.div1 a b = Some (SameShape.div1 a b).
Proof. apply zip1_same. Qed.

Lemma ce_loss_same (b s v : nat) targets logits (loss_mask : list (list bool)) :
  has_shape3 b s v targets -> has_shape3 b s v logits ->
  has_shape2 b s loss_mask ->
  Loss.ce_loss targets logits loss_mask
    = Some (SameShape.ce_loss targets logits loss_mask) /\
  length (SameShape.ce_loss targets logits loss_mask) = b.
Proof.
  intros Ht Hl Hm.
  pose proof (has_shape3_rows3 log_softmax b s v logits log_softmax_length Hl) as Hlp.
  pose proof (has_shape2_fmap Ropp b s _
                (has_shape2_sum_last3 b s v _
                   (has_shape3_zip3 Rmult b s v _ _ Ht Hlp))) as Hce.
  assert (length (SameShape.masked_sum
                    ((fun row : list R => Ropp <$> row) <$>
                       sum_last3 (SameShape.zip3 Rmult targets
                                    (rows3 log_softmax logits))) loss_mask)
          = length (denominator loss_mask)) as Hlen.
  { rewrite masked_sum_length, denominator_length.
    destruct Hce as [-> _], Hm as [-> _]. lia. }
  split.
  - unfold Loss.ce_loss.
    rewrite (zip3_same Rmult b s v _ _ Ht Hlp). cbn [mbind option_bind].
    rewrite (masked_sum_same b s _ _ Hce Hm). cbn [mbind option_bind].
    by apply div1_same.
  - unfold SameShape.ce_loss, SameShape.div1.
    rewrite length_zip_with, <- Hlen, masked_sum_length.
    destruct Hce as [-> _], Hm as [-> _]. lia.
Qed.

Lemma kl_loss_same (b s v : nat) student_logits teacher_logits (temp : R)
    (loss_mask : list (list bool)) :
  temp <> 0 ->
  has_shape3 b s v student_logits -> has_shape3 b s v teacher_logits ->
  has_shape2 b s loss_mask ->
  Loss.kl_loss student_logits teacher_logits temp loss_mask
    = Some (SameShape.kl_loss student_logits teacher_logits temp loss_mask) /\
  length (SameShape.kl_loss student_logits teacher_logits temp loss_mask) = b.
Proof.
  intros Htemp Hs Ht Hm.
  pose proof (has_shape3_rows3 softmax b s v _ softmax_length
                (has_shape3_map3 (fun x => x / temp) b s v _ Hs)) as Hsp.
  pose proof (has_shape3_rows3 softmax b s v _ softmax_length
                (has_shape3_map3 (fun x => x / temp) b s v _ Ht)) as Htp.
  pose proof (has_shape3_map3 (fun p => ln (p + eps)) b s v _ Hsp) as Hsl.
  pose proof (has_shape3_map3 (fun p => ln (p + eps)) b s v _ Htp) as Htl.
  pose proof (has_shape3_zip3 Rminus b s v _ _ Htl Hsl) as Hdiff.
  pose proof (has_shape2_sum_last3 b s v _
                (has_shape3_zip3 Rmult b s v _ _ Htp Hdiff)) as Hkl.
  split.
  - unfold Loss.kl_loss, div_temp.
    destruct (Req_EM_T temp 0) as [|_]; [done|]. cbn [mbind option_bind].
    rewrite (zip3_same Rminus b s v _ _ Htl Hsl). cbn [mbind option_bind].
    rewrite (zip3_same Rmult b s v _ _ Htp Hdiff). cbn [mbind option_bind].
    rewrite (masked_sum_same b s _ _ Hkl Hm). cbn [mbind option_bind].
    apply div1_same. rewrite masked_sum_length, denominator_length.
    destruct Hkl as [-> _], Hm as [-> _]. lia.
  - unfold SameShape.kl_loss, SameShape.div1.
    rewrite length_zip_with, masked_sum_length, denominator_length.
    destruct Hkl as [-> _], Hm as [-> _]. lia.
Qed.

Lemma combine_same ce w kl :
  length ce = length kl ->
  Loss.combine ce w kl = Some (SameShape.combine ce w kl).
Proof. intros H. apply zip1_same. by rewrite length_fmap. Qed.

(** A zero temperature leaves no finite KL term as soon as the student's
    logits have an entry. *)
Lemma kl_loss_temperature_zero student_logits teacher_logits
    (loss_mask : list (list bool)) :
  no_entry student_logits = false ->
  Loss.kl_loss student_logits teacher_logits 0 loss_mask = None.
Proof.
  intros H. unfold Loss.kl_loss, div_temp.
  destruct (Req_EM_T 0 0) as [_|Hne]; [|done]. by rewrite H.
Qed.

Lemma no_entry_shape (b s v : nat) (x : list (list (list R))) :
  has_shape3 b s v x -> (0 < b)%nat -> (0 < s)%nat -> (0 < v)%nat ->
  no_entry x = false.
Proof.
  intros [Hx Fx] Hb Hs Hv.
  destruct x as [|m x]; [simpl in Hx; lia|].
  apply Forall_cons in Fx as [[Hm Fm] _].
  destruct m as [|row m]; [simpl in Hm; lia|].
  apply Forall_cons in Fm as [Hrow _].
  destruct row as [|c row]; [simpl in Hrow; lia|]. done.
Qed.

End ShapeFacts.

Section LossFacts.
Import Loss SameShape.
Local Open Scope R_scope.







End LossFacts.

Section ReductionFacts.
Import Loss.
Local Open Scope R_scope.

Lemma sumR_opp (l : list R) : sumR (Ropp <$> l) = - sumR l.
Proof.
  induction l as [|x l IH]; [simpl; lra|].
  change (sumR (Ropp <$> x :: l)) with (- x + sumR (Ropp <$> l)).
  change (sumR (x :: l)) with (x + sumR l). rewrite IH. lra.
Qed.

(** Negating the per-token values negates the masked sums. *)
Lemma masked_sum_opp (x : list (list R)) (loss_mask : list (list bool)) :
  masked_sum ((fun row : list R => Ropp <$> row) <$> x) loss_mask
    = (fmap Ropp : list R -> list R) <$> masked_sum x loss_mask.
Proof.
  unfold masked_sum, zip2.
  rewrite (bcast_map (fmap Ropp) (fmap Ropp)
             (bcast (pure2 (fun c v => c * mask_val v)))
             (bcast (pure2 (fun c v => c * mask_val v)))).
  2:{ intros r mr.
      apply (bcast_map Ropp Ropp (pure2 (fun c v => c * mask_val v))
               (pure2 (fun c v => c * mask_val v))).
      intros c v. unfold pure2. simpl. f_equal. ring. }
  destruct (bcast _ x loss_mask) as [prod|]; [|done]. simpl. f_equal.
  rewrite <- !list_fmap_compose. apply list_fmap_ext. intros i r _. simpl.
  apply sumR_opp.
Qed.

(** The predictive return expression is the cross-entropy term. *)
Lemma predictive_loss_eq_ce (targets logits : list (list (list R)))
    (loss_mask : list (list bool)) :
  predictive_loss targets logits loss_mask = ce_loss targets logits loss_mask.
Proof.
  unfold predictive_loss, ce_loss.
  destruct (zip3 Rmult targets (rows3 log_softmax logits)) as [prod|]; [|done].
  cbn [mbind option_bind]. rewrite masked_sum_opp.
  by destruct (masked_sum (sum_last3 prod) loss_mask).
Qed.

End ReductionFacts.




(** C2 (what the code computes).  The value returned by the predictive
    [compute_loss] is the same reduction as the cross-entropy term of the
    distillation variant: the masked token log-likelihoods are summed over
    the token axis and divided by the clipped mask count, which leaves one
    scalar per example and no action-horizon axis. *)
Theorem predictive_loss_is_per_example
    (targets logits : list (list (list R))) (loss_mask : list (list bool)) :
  Loss.predictive_loss targets logits loss_mask
    = Loss.ce_loss targets logits loss_mask /\
  (forall loss,
     Loss.predictive_loss targets logits loss_mask = Some loss ->
     length loss = length loss_mask \/ length loss_mask = 1%nat) /\
  (forall b s v : nat,
     SameShape.has_shape3 b s v targets -> SameShape.has_shape3 b s v logits ->
     SameShape.has_shape2 b s loss_mask ->
     exists loss,
       Loss.predictive_loss targets logits loss_mask = Some loss /\
       length loss = b).
Proof.
  split; [apply predictive_loss_eq_ce|]. split.
  - intros loss. unfold Loss.predictive_loss.
    destruct (Loss.zip3 _ _ _) as [prod|]; [|done]. cbn [mbind option_bind].
    destruct (Loss.masked_sum _ _) as [num|]; [|done]. cbn [mbind option_bind].
    intros Hloss. apply bcast_length in Hloss. rewrite denominator_length in Hloss.
    lia.
  - intros b s v Ht Hl Hm. rewrite predictive_loss_eq_ce.
    destruct (ce_loss_same b s v targets logits loss_mask Ht Hl Hm) as [Hce Hlen].
    eauto.
Qed.

(** A batch of one example with two target positions over a vocabulary of
    three tokens. *)
Lemma predictive_loss_is_per_example_witness :
  exists loss,
    Loss.predictive_loss (Loss.targets_of [[5; 5; 2]] 3)
      [[[0%R; 1%R; 0%R]; [0%R; 1%R; 0%R]]] [[true; true]] = Some loss /\
    length loss = 1%nat.
Proof.
  apply (proj2 (proj2 (predictive_loss_is_per_example
                         (Loss.targets_of [[5; 5; 2]] 3)
                         [[[0%R; 1%R; 0%R]; [0%R; 1%R; 0%R]]] [[true; true]]))
           1%nat 2%nat 3%nat).
  - apply (has_shape3_targets_of 1 3 [[5; 5; 2]] 3).
    split; [reflexivity|]. repeat constructor.
  - split; [reflexivity|]. repeat constructor.
  - split; [reflexivity|]. repeat constructor.
Defined.

Section KLFacts.
Import Loss SameShape.
Local Open Scope R_scope.

Lemma kl_row (f : R -> R) (tp sp : list R) :
  zip_with Rmult tp (zip_with Rminus (f <$> tp) (f <$> sp))
    = zip_with (fun t s => t * (f t - f s)) tp sp.
Proof.
  revert sp. induction tp as [|t tp IH]; intros [|s sp]; simpl; try done.
  by rewrite IH.
Qed.

Lemma kl_rows (temp : R) (trows srows : list (list R)) :
  sumR <$>
    zip_with (zip_with Rmult)
      (softmax <$> ((fun row : list R => (fun x => x / temp) <$> row) <$> trows))
      (zip_with (zip_with Rminus)
         ((fun row : list R => (fun p => ln (p + eps)) <$> row) <$>
            (softmax <$> ((fun row : list R => (fun x => x / temp) <$> row) <$> trows)))
         ((fun row : list R => (fun p => ln (p + eps)) <$> row) <$>
            (softmax <$> ((fun row : list R => (fun x => x / temp) <$> row) <$> srows))))
  = zip_with (fun t s => LossSpec.kl_position (LossSpec.probs t temp)
                            (LossSpec.probs s temp)) trows srows.
Proof.
  revert srows. induction trows as [|t trows IH]; intros [|s srows]; simpl; try done.
  rewrite IH. f_equal. unfold LossSpec.kl_position, LossSpec.probs.
  by rewrite kl_row.
Qed.

Lemma masked_row_spec (values : list R) (mask : list bool) :
  sumR (zip_with (fun c v => c * mask_val v) values mask)
    / clip_min (sumR (mask_val <$> mask)) 1
  = LossSpec.masked_mean values mask.
Proof.
  unfold LossSpec.masked_mean, clip_min. f_equal.
  revert mask. induction values as [|x values IH]; intros [|v mask]; simpl; try done.
  rewrite IH. destruct v; unfold mask_val; ring.
Qed.

(** The KL term of example [k] as computed by the array code is the
    specification's formula on that example's rows. *)
Lemma kl_loss_lookup student_logits teacher_logits temp loss_mask k srows trows mrow :
  student_logits !! k = Some srows -> teacher_logits !! k = Some trows ->
  loss_mask !! k = Some mrow ->
  kl_loss student_logits teacher_logits temp loss_mask !! k
    = Some (LossSpec.kl_example srows trows temp mrow).
Proof.
  intros Hs Ht Hm. unfold kl_loss, div1, masked_sum, denominator.
  rewrite !lookup_zip_with, list_lookup_fmap, Hm.
  unfold sum_last3, zip3, rows3, map3.
  rewrite !list_lookup_fmap, !lookup_zip_with, !list_lookup_fmap.
  rewrite Hs, Ht.
  change (Some (sumR (zip_with (fun c v => c * mask_val v)
            (sumR <$> zip_with (zip_with Rmult)
               (softmax <$> ((fun row : list R => (fun x => x / temp) <$> row) <$> trows))
               (zip_with (zip_with Rminus)
                  ((fun row : list R => (fun p => ln (p + eps)) <$> row) <$>
                     (softmax <$> ((fun row : list R => (fun x => x / temp) <$> row) <$> trows)))
                  ((fun row : list R => (fun p => ln (p + eps)) <$> row) <$>
                     (softmax <$> ((fun row : list R => (fun x => x / temp) <$> row) <$> srows)))))
            mrow)
          / clip_min (sumR (mask_val <$> mrow)) 1)
          = Some (LossSpec.kl_example srows trows temp mrow)).
  f_equal. rewrite kl_rows. apply masked_row_spec.
Qed.

End KLFacts.

(** C5: once the student logits, the prompt and the loss mask are
    available with matching shapes, the distillation [compute_loss] returns
    the cross-entropy term alone when [use_teacher_model] is disabled; when
    it is enabled, with teacher logits of the same shape and a nonzero
    [teacher_temperature], the loss of every example is
    [ce_loss + kl_weight * kl_loss], the KL term being the specification's
    formula (softmax of logits divided by [teacher_temperature],
    per-position divergence summed over the vocabulary with eps = 1e-8,
    masked and normalised like the cross-entropy term).  At a temperature
    of 0 the division leaves no finite loss. *)
Theorem compute_loss_ce_plus_weighted_kl (self : ObsDistilled.Model)
    observation (train : bool) prev_observation prev_actions
    (student_logits : list (list (list R))) prompt tlm (b T : nat) :
  let M := ObsDistilled.PaliGemma self in
  let student_obs :=
    preprocess_observation M train (default observation prev_observation) train in
  let teacher_obs := preprocess_observation M false observation false in
  let loss_mask := Slice.drop_first <$> tlm in
  let targets := Loss.targets_of prompt (vocab_size M) in
  let temp := ObsDistilled.teacher_temperature (ObsDistilled.config self) in
  ObsDistilled.compute_student_logits self student_obs prev_actions
    = Some student_logits ->
  tokenized_prompt student_obs = Some prompt ->
  token_loss_mask student_obs = Some tlm ->
  SameShape.has_shape2 b T prompt ->
  SameShape.has_shape2 b T tlm ->
  SameShape.has_shape3 b (T - 1) (vocab_size M) student_logits ->
  exists ce_loss,
    Loss.ce_loss targets student_logits loss_mask = Some ce_loss /\
    length ce_loss = b /\
    (ObsDistilled.use_teacher_model (ObsDistilled.config self) = false ->
     ObsDistilled.compute_loss self observation train prev_observation
       prev_actions = Some ce_loss) /\
    (ObsDistilled.use_teacher_model (ObsDistilled.config self) = true ->
     forall teacher_logits,
       ObsDistilled.compute_teacher_logits self teacher_obs
         = Some teacher_logits ->
       SameShape.has_shape3 b (T - 1) (vocab_size M) teacher_logits ->
       (temp <> 0%R ->
        exists losses,
          ObsDistilled.compute_loss self observation train prev_observation
            prev_actions = Some losses /\
          length losses = b /\
          forall (k : nat) ce srows trows mrow,
            ce_loss !! k = Some ce ->
            student_logits !! k = Some srows ->
            teacher_logits !! k = Some trows ->
            loss_mask !! k = Some mrow ->
            losses !! k =
              Some (ce + ObsDistilled.kl_weight (ObsDistilled.config self)
                         * LossSpec.kl_example srows trows temp mrow)%R) /\
       (temp = 0%R -> (0 < b)%nat -> (0 < T - 1)%nat ->
        (0 < vocab_size M)%nat ->
        ObsDistilled.compute_loss self observation train prev_observation
          prev_actions = None)).
Proof.
  intros M student_obs teacher_obs loss_mask targets temp Hs Hp Hm Hps Hms Hls.
  pose proof (has_shape2_drop_first b T tlm Hms) as Hms'.
  pose proof (has_shape3_targets_of b T prompt (vocab_size M) Hps) as Hts.
  destruct (ce_loss_same b (T - 1)%nat (vocab_size M) targets student_logits
              loss_mask Hts Hls Hms') as [Hce Hcelen].
  eexists. split; [exact Hce|]. split; [exact Hcelen|].
  unfold ObsDistilled.compute_loss. cbv zeta.
  fold M. fold student_obs. fold teacher_obs.
  rewrite Hs. cbn [mbind option_bind]. rewrite Hp. cbn [mbind option_bind].
  rewrite Hm. cbn [mbind option_bind]. fold targets. fold loss_mask.
  rewrite Hce. cbn [mbind option_bind].
  split; intros Hu; rewrite Hu; [done|].
  intros teacher_logits Ht Hts'. rewrite Ht. cbn [mbind option_bind]. fold temp.
  split.
  - intros Htemp.
    destruct (kl_loss_same b (T - 1)%nat (vocab_size M) student_logits
                teacher_logits temp loss_mask Htemp Hls Hts' Hms')
      as [Hkl Hkllen].
    rewrite Hkl. cbn [mbind option_bind]. rewrite combine_same by congruence.
    eexists. split; [done|]. split.
    { unfold SameShape.combine. rewrite length_zip_with, length_fmap. lia. }
    intros k ce srows trows mrow Hc Hsr Htr Hmr.
    unfold SameShape.combine. rewrite lookup_zip_with, list_lookup_fmap, Hc.
    by rewrite (kl_loss_lookup _ _ _ _ k srows trows mrow Hsr Htr Hmr).
  - intros -> Hb HT HV. rewrite kl_loss_temperature_zero; [done|].
    by eapply no_entry_shape.
Qed.

(** One example, a separate teacher, a KL weight of 1/2 and a temperature
    of 2: the student scores the two target positions with [[0; 1; 0]], the
    teacher with [[1; 0; 0]]. *)
Lemma compute_loss_ce_plus_weighted_kl_witness :
  exists losses ce_loss,
    Loss.ce_loss (Loss.targets_of [[5; 5; 2]] 3)
      [[[0%R; 1%R; 0%R]; [0%R; 1%R; 0%R]]] [[true; true]] = Some ce_loss /\
    ObsDistilled.compute_loss (Examples.toy_weighted (1 / 2) 2)
      (Examples.toy_obs [[5; 5; 2]]) false None (Some (Examples.toy_actions 1))
      = Some losses /\
    length losses = 1%nat /\
    forall ce,
      ce_loss !! 0%nat = Some ce ->
      losses !! 0%nat =
        Some (ce + 1 / 2 * LossSpec.kl_example
                             [[0%R; 1%R; 0%R]; [0%R; 1%R; 0%R]]
                             [[1%R; 0%R; 0%R]; [1%R; 0%R; 0%R]] 2 [true; true])%R.
Proof.
  destruct (compute_loss_ce_plus_weighted_kl (Examples.toy_weighted (1 / 2) 2)
              (Examples.toy_obs [[5; 5; 2]]) false None
              (Some (Examples.toy_actions 1))
              [[[0%R; 1%R; 0%R]; [0%R; 1%R; 0%R]]] [[5; 5; 2]]
              [[true; true; true]] 1%nat 3%nat eq_refl eq_refl eq_refl)
    as (ce_loss & Hce & _ & _ & H).
  - split; [reflexivity|]. repeat constructor.
  - split; [reflexivity|]. repeat constructor.
  - split; [reflexivity|]. repeat constructor.
  - destruct (H eq_refl [[[1%R; 0%R; 0%R]; [1%R; 0%R; 0%R]]] eq_refl)
      as [Hkl _].
    { split; [reflexivity|]. repeat constructor. }
    destruct Hkl as (losses & Hl & Hlen & Hk); [simpl; lra|].
    exists losses, ce_loss. split; [exact Hce|]. split; [exact Hl|].
    split; [exact Hlen|].
    intros ce Hc. by apply Hk.
Defined.

(** C3 (as amended): with [use_teacher_model] true, the constructor decides
    on [teacher_checkpoint].  When no checkpoint is configured (it is [None]
    or empty), [teacher_model] stays [None] and [compute_teacher_logits] is
    the self-distillation path: the student's own [embed_inputs] (no action
    span) and the student's own backbone on the current observation.  When
    a checkpoint path is configured, nothing is loaded, but [teacher_model]
    is the separately constructed model and [compute_teacher_logits] runs
    that model's [embed_inputs] and backbone. *)
Theorem teacher_logits_self_distillation (cfg : ObsDistilled.Config)
    (student : Backbone) (proj : list R -> Emb student)
    (new_teacher : ObsDistilled.Pi0FAST (Image student))
    (current_observation : Observation (Image student)) :
  ObsDistilled.use_teacher_model cfg = true ->
  let self := ObsDistilled.init cfg student proj new_teacher in
  (ObsDistilled.truthy (ObsDistilled.teacher_checkpoint cfg) = false ->
   ObsDistilled.teacher_model self = None /\
   ObsDistilled.compute_teacher_logits self current_observation
     = ('(token_embeddings, input_mask, ar_mask) ←
          Embedder.embed_inputs student current_observation;
        attn_mask ← AttnMask.make_attn_mask input_mask (AttnMask.ArBatch ar_mask);
        prompt ← tokenized_prompt current_observation;
        Some (Forward.logits_of (llm_prelogits student) (llm_decode_logits student)
                token_embeddings attn_mask (Z.of_nat (Slice.shape1 prompt) - 1)))) /\
  (ObsDistilled.truthy (ObsDistilled.teacher_checkpoint cfg) = true ->
   ObsDistilled.teacher_model self = Some new_teacher /\
   ObsDistilled.compute_teacher_logits self current_observation
     = ('(token_embeddings, input_mask, ar_mask) ←
          ObsDistilled.t_embed_inputs new_teacher current_observation;
        attn_mask ← AttnMask.make_attn_mask input_mask (AttnMask.ArBatch ar_mask);
        prompt ← tokenized_prompt current_observation;
        Some (Forward.logits_of (ObsDistilled.t_llm_prelogits new_teacher)
                (ObsDistilled.t_llm_decode_logits new_teacher)
                token_embeddings attn_mask (Z.of_nat (Slice.shape1 prompt) - 1)))).
Proof.
  intros Hu self. split; intros Hc.
  - assert (ObsDistilled.teacher_model self = None) as Hnone.
    { unfold self, ObsDistilled.init. simpl. by rewrite Hu, Hc. }
    split; [exact Hnone|].
    unfold ObsDistilled.compute_teacher_logits. rewrite Hnone. reflexivity.
  - assert (ObsDistilled.teacher_model self = Some new_teacher) as Hsome.
    { unfold self, ObsDistilled.init. simpl. by rewrite Hu, Hc. }
    split; [exact Hsome|].
    unfold ObsDistilled.compute_teacher_logits. rewrite Hsome. reflexivity.
Qed.

(** The toy student without a checkpoint is its own teacher; with a
    checkpoint path the separately built teacher answers. *)
Lemma teacher_logits_self_distillation_witness :
  ObsDistilled.compute_teacher_logits (Examples.toy_distilled true None)
      (Examples.toy_obs [[5; 5; 2]])
    = Some [[[0%R; 1%R; 0%R]; [0%R; 1%R; 0%R]]] /\
  ObsDistilled.compute_teacher_logits
      (Examples.toy_distilled true (Some "teacher.ckpt"%string))
      (Examples.toy_obs [[5; 5; 2]])
    = Some [[[1%R; 0%R; 0%R]; [1%R; 0%R; 0%R]]].
Proof.
  split.
  - destruct (teacher_logits_self_distillation
                (Examples.toy_distilled_config true None) Examples.toy_backbone
                (fun _ => 9) Examples.toy_teacher (Examples.toy_obs [[5; 5; 2]])
                eq_refl) as [H _].
    destruct (H eq_refl) as [_ H']. exact H'.
  - destruct (teacher_logits_self_distillation
                (Examples.toy_distilled_config true (Some "teacher.ckpt"%string))
                Examples.toy_backbone (fun _ => 9) Examples.toy_teacher
                (Examples.toy_obs [[5; 5; 2]]) eq_refl) as [_ H].
    destruct (H eq_refl) as [_ H']. exact H'.
Defined.

(** C3 as stated fails when a checkpoint path is configured: the checkpoint
    is never loaded, but the constructor still builds a separate teacher
    model, and [compute_teacher_logits] runs that model's embedder and
    backbone instead of the student's. *)
Lemma teacher_checkpoint_counterexample :
  ObsDistilled.use_teacher_model
    (ObsDistilled.config
       (Examples.toy_distilled true (Some "teacher.ckpt"%string))) = true /\
  ObsDistilled.compute_teacher_logits
      (Examples.toy_distilled true (Some "teacher.ckpt"%string))
      (Examples.toy_obs [[5; 5; 2]])
    = Some [[[1%R; 0%R; 0%R]; [1%R; 0%R; 0%R]]] /\
  ObsDistilled.self_distillation_logits
      (Examples.toy_distilled true (Some "teacher.ckpt"%string))
      (Examples.toy_obs [[5; 5; 2]])
    = Some [[[0%R; 1%R; 0%R]; [0%R; 1%R; 0%R]]] /\
  ObsDistilled.compute_teacher_logits
      (Examples.toy_distilled true (Some "teacher.ckpt"%string))
      (Examples.toy_obs [[5; 5; 2]])
    <> ObsDistilled.self_distillation_logits
         (Examples.toy_distilled true (Some "teacher.ckpt"%string))
         (Examples.toy_obs [[5; 5; 2]]).
Proof.
  assert (ObsDistilled.compute_teacher_logits
            (Examples.toy_distilled true (Some "teacher.ckpt"%string))
            (Examples.toy_obs [[5; 5; 2]])
          = Some [[[1%R; 0%R; 0%R]; [1%R; 0%R; 0%R]]]) as H1 by reflexivity.
  assert (ObsDistilled.self_distillation_logits
            (Examples.toy_distilled true (Some "teacher.ckpt"%string))
            (Examples.toy_obs [[5; 5; 2]])
          = Some [[[0%R; 1%R; 0%R]; [0%R; 1%R; 0%R]]]) as H2 by reflexivity.
  split; [reflexivity|]. split; [exact H1|]. split; [exact H2|].
  rewrite H1, H2. intros [= H _]. lra.
Qed.

Section TransformFacts.
Import ObsTransform.

Lemma frame_refl data : frame data data.
Proof. split; auto. Qed.

Lemma frame_insert data result key x :
  frame data result ->
  data !! key = None ->
  key = "prev_observation"%string \/ key = "prev_actions"%string \/
    key = "skip_sample"%string ->
  frame data (<[key := x]> result).
Proof.
  intros [Hkeep Hnew] Hfresh Hkey. split.
  - intros k v Hk. destruct (decide (key = k)) as [->|Hne].
    + rewrite Hfresh in Hk. discriminate.
    + rewrite lookup_insert_ne by done. by apply Hkeep.
  - intros k Hk. destruct (decide (key = k)) as [<-|Hne].
    + right. exact Hkey.
    + rewrite lookup_insert_ne in Hk by done. by apply Hnew.
Qed.

End TransformFacts.

(** C10: on a record that does not yet hold [prev_observation],
    [prev_actions] or [skip_sample], whenever the transform returns, every
    key of the input is mapped to the value it had, and the only keys that
    can be new are those three; the observation fields and the [actions]
    entry are therefore unchanged. *)
Theorem transform_preserves_input (self : ObsTransform.Transform)
    (data result : gmap string ObsTransform.Value) :
  data !! "prev_observation"%string = None ->
  data !! "prev_actions"%string = None ->
  data !! "skip_sample"%string = None ->
  ObsTransform.call self data = Some result ->
  (forall k v, data !! k = Some v -> result !! k = Some v) /\
  (forall k, is_Some (result !! k) ->
     is_Some (data !! k) \/ k = "prev_observation"%string \/
     k = "prev_actions"%string \/ k = "skip_sample"%string).
Proof.
  intros Hpo Hpa Hss Hcall. change (ObsTransform.frame data result).
  unfold ObsTransform.call in Hcall. cbv zeta in Hcall.
  destruct (match data !! "trajectory_data"%string with
            | Some _ => _ | None => _ end) as [[|]|]; [| |done];
    cbn [mbind option_bind] in Hcall.
  - destruct (data !! "trajectory_data"%string) as [trajectory|]; [|done].
    destruct (data !! "timestep"%string) as [timestep|]; [|done].
    cbn [mbind option_bind] in Hcall.
    destruct (ObsTransform.getitem_str trajectory "observations") as [obs|]; [|done].
    cbn [mbind option_bind] in Hcall.
    destruct (ObsTransform.index_before timestep) as [i|]; [|done].
    cbn [mbind option_bind] in Hcall.
    destruct (ObsTransform.getitem_idx obs i) as [po|]; [|done].
    cbn [mbind option_bind] in Hcall.
    destruct (ObsTransform.getitem_str trajectory "actions") as [acts|]; [|done].
    cbn [mbind option_bind] in Hcall.
    destruct (ObsTransform.getitem_idx acts i) as [pa|]; [|done].
    cbn [mbind option_bind] in Hcall. injection Hcall as <-.
    apply frame_insert; [|done|auto].
    apply frame_insert; [apply frame_refl|done|auto].
  - repeat case_decide.
    + destruct (ObsTransform.zero_prev_actions self data) as [pa|]; [|done].
      cbn [mbind option_bind] in Hcall. injection Hcall as <-.
      apply frame_insert; [|done|auto].
      apply frame_insert; [apply frame_refl|done|auto].
    + destruct (ObsTransform.zero_prev_actions self data) as [pa|]; [|done].
      cbn [mbind option_bind] in Hcall. injection Hcall as <-.
      apply frame_insert; [|done|auto].
      apply frame_insert; [apply frame_refl|done|auto].
    + injection Hcall as <-. apply frame_insert; [apply frame_refl|done|auto].
    + injection Hcall as <-. apply frame_refl.
Qed.

(** The first-timestep record under the default mode ["zero"]: the
    [actions] entry comes back unchanged. *)
Lemma transform_preserves_input_witness :
  exists result,
    ObsTransform.call Examples.toy_transform Examples.toy_record = Some result /\
    result !! "actions"%string
      = Some (ObsTransform.VArr [2%nat; 1%nat] [1%R; 2%R]).
Proof.
  eexists. split; [reflexivity|].
  exact (proj1 (transform_preserves_input Examples.toy_transform
                  Examples.toy_record _ eq_refl eq_refl eq_refl eq_refl)
           "actions"%string _ eq_refl).
Defined.

(** * Part III: further properties of the modelled code *)

Section ScatterFacts.
Import Decode.

Lemma wrap32_small z : - 2 ^ 31 <= z < 2 ^ 31 -> wrap32 z = z.
Proof. intros Hz. unfold wrap32. rewrite Z.mod_small; lia. Qed.

Lemma wrap32_range z : - 2 ^ 31 <= wrap32 z < 2 ^ 31.
Proof.
  unfold wrap32. pose proof (Z.mod_pos_bound (z + 2 ^ 31) (2 ^ 32)). lia.
Qed.

Lemma wrap32_add_r x y : wrap32 (x + wrap32 y) = wrap32 (x + y).
Proof.
  unfold wrap32.
  replace (x + ((y + 2 ^ 31) mod 2 ^ 32 - 2 ^ 31) + 2 ^ 31)
    with (x + (y + 2 ^ 31) mod 2 ^ 32) by lia.
  rewrite Zplus_mod_idemp_r. f_equal. f_equal. lia.
Qed.

(** On terms that are [int32] values the wrapping sum is the mathematical
    sum reduced into the [int32] range. *)
Lemma sum32_spec (l : list Z) :
  Forall (fun x => - 2 ^ 31 <= x < 2 ^ 31) l ->
  sum32 l = wrap32 (foldr Z.add 0 l).
Proof.
  induction 1 as [|x l Hx Hl IH]; [done|].
  destruct l as [|y l].
  - simpl. rewrite Z.add_0_r. symmetry. by apply wrap32_small.
  - change (sum32 (x :: y :: l)) with (wrap32 (x + sum32 (y :: l))).
    rewrite IH, wrap32_add_r. done.
Qed.

Lemma sum32_zeros (l : list Z) : Forall (fun x => x = 0) l -> sum32 l = 0.
Proof.
  induction 1 as [|x l -> Hl IH]; [done|].
  destruct l as [|y l]; [done|].
  change (sum32 (0 :: y :: l)) with (wrap32 (0 + sum32 (y :: l))).
  rewrite IH. done.
Qed.

Lemma einsum_onehot_lookup (a indices : list Z) (n c : nat) :
  (c < n)%nat ->
  einsum_i_in_n a ((fun i : Z => one_hot i n) <$> indices) n !! c
    = Some (sum32
              (zip_with (fun ai (i : Z) => if decide (i = Z.of_nat c) then ai else 0)
                        a indices)).
Proof.
  intros Hc. unfold einsum_i_in_n.
  rewrite list_lookup_fmap, lookup_seq_lt by done. simpl. f_equal.
  rewrite zip_with_fmap_r. f_equal. apply zip_with_ext; [|done..].
  intros ai i. rewrite one_hot_lookup by done. simpl. case_decide; lia.
Qed.

Lemma indicator_sum_nonneg (values indices : list Z) (t : Z) :
  0 <= foldr Z.add 0
         (zip_with (fun (_ : Z) (i : Z) => if decide (i = t) then 1 else 0)
                   values indices)
    <= Z.of_nat (length indices).
Proof.
  revert indices. induction values as [|v values IH]; intros [|i indices]; simpl;
    try lia.
  specialize (IH indices). case_decide; lia.
Qed.

Lemma indicator_sum_zero (values indices : list Z) (t : Z) :
  length indices = length values ->
  foldr Z.add 0
    (zip_with (fun (_ : Z) (i : Z) => if decide (i = t) then 1 else 0) values indices)
    = 0 <->
  Forall (fun i => i <> t) indices.
Proof.
  revert indices. induction values as [|v values IH]; intros [|i indices] Hlen;
    simpl in *; try discriminate.
  - split; [constructor|done].
  - injection Hlen as Hlen. specialize (IH indices Hlen).
    pose proof (indicator_sum_nonneg values indices t) as Hnn.
    rewrite Forall_cons. case_decide as Hi.
    + split; [lia|]. by intros [? _].
    + rewrite <- IH. split; [intros H; split; [done|lia]|intros [_ H]; lia].
Qed.

Lemma indicator_terms_range (values indices : list Z) (t : Z) :
  Forall (fun x => - 2 ^ 31 <= x < 2 ^ 31)
         (zip_with (fun (_ : Z) (i : Z) => if decide (i = t) then 1 else 0)
                   values indices).
Proof.
  revert indices. induction values as [|v values IH]; intros [|i indices]; simpl;
    try constructor; [case_decide; lia|apply IH].
Qed.

Lemma selected_terms_range (values indices : list Z) (t : Z) :
  Forall (fun x => - 2 ^ 31 <= x < 2 ^ 31) values ->
  Forall (fun x => - 2 ^ 31 <= x < 2 ^ 31)
         (zip_with (fun v (i : Z) => if decide (i = t) then v else 0)
                   values indices).
Proof.
  intros Hv. revert indices.
  induction Hv as [|v values Hr _ IH]; intros [|i indices]; simpl;
    try constructor; [case_decide; lia|apply IH].
Qed.

Lemma put_along_last_axis_row_length arr indices values :
  length (put_along_last_axis_row arr indices values) = length arr.
Proof.
  unfold put_along_last_axis_row.
  rewrite !length_zip_with, !einsum_length. lia.
Qed.

(** A column no index points at keeps its entry. *)
Lemma put_row_miss (arr indices values : list Z) (c : nat) :
  Forall (fun i => i <> Z.of_nat c) indices ->
  put_along_last_axis_row arr indices values !! c = arr !! c.
Proof.
  intros Hmiss.
  destruct (arr !! c) as [a|] eqn:Ha.
  - assert (c < length arr)%nat as Hc by (by eapply lookup_lt_Some).
    unfold put_along_last_axis_row.
    rewrite !lookup_zip_with, !einsum_onehot_lookup, Ha by done. simpl. f_equal.
    rewrite decide_True; [done|]. apply sum32_zeros.
    rewrite zip_with_fmap_l. clear Ha. revert values.
    induction Hmiss as [|i indices Hi _ IH]; intros [|v values]; simpl;
      try constructor; [by rewrite decide_False|apply IH].
  - apply lookup_ge_None. rewrite put_along_last_axis_row_length.
    by apply lookup_ge_None.
Qed.

Lemma put_row_lookup_general (arr indices values : list Z) (c : nat) (a : Z) :
  length indices = length values ->
  Z.of_nat (length indices) < 2 ^ 31 ->
  Forall (fun v => - 2 ^ 31 <= v < 2 ^ 31) values ->
  arr !! c = Some a ->
  length (put_along_last_axis_row arr indices values) = length arr /\
  put_along_last_axis_row arr indices values !! c
    = Some (if decide (Forall (fun i => i <> Z.of_nat c) indices) then a
            else wrap32
                   (foldr Z.add 0
                      (zip_with (fun v (i : Z) => if decide (i = Z.of_nat c) then v else 0)
                                values indices))).
Proof.
  intros Hlen Hsmall Hrange Ha. split; [apply put_along_last_axis_row_length|].
  destruct (decide (Forall (fun i => i <> Z.of_nat c) indices)) as [Hall|Hall].
  { by rewrite put_row_miss. }
  assert (c < length arr)%nat as Hc by (by eapply lookup_lt_Some).
  unfold put_along_last_axis_row.
  rewrite !lookup_zip_with, !einsum_onehot_lookup, Ha by done. simpl. f_equal.
  rewrite zip_with_fmap_l.
  rewrite (sum32_spec _ (indicator_terms_range values indices (Z.of_nat c))).
  pose proof (indicator_sum_nonneg values indices (Z.of_nat c)) as Hnn.
  pose proof (indicator_sum_zero values indices (Z.of_nat c) Hlen) as Hm.
  rewrite wrap32_small by lia.
  rewrite decide_False by (intros Hz; by apply Hall, Hm).
  by apply sum32_spec, selected_terms_range.
Qed.

End ScatterFacts.

(** X1: entry [c] of a buffer row after [put_along_last_axis], for
    [int32] values: it is the old entry when no index equals [c], and
    otherwise the sum, wrapped into the [int32] range, of all values whose
    index equals [c] (repeated indices accumulate; they do not overwrite
    each other).  The row keeps its length. *)
Theorem put_along_last_axis_row_lookup (arr indices values : list Z) (c : nat) (a : Z) :
  length indices = length values ->
  Z.of_nat (length indices) < 2 ^ 31 ->
  Forall (fun v => - 2 ^ 31 <= v < 2 ^ 31) values ->
  arr !! c = Some a ->
  length (Decode.put_along_last_axis_row arr indices values) = length arr /\
  Decode.put_along_last_axis_row arr indices values !! c
    = Some (if decide (Forall (fun i => i <> Z.of_nat c) indices) then a
            else Decode.wrap32
                   (foldr Z.add 0
                      (zip_with (fun v (i : Z) => if decide (i = Z.of_nat c) then v else 0)
                                values indices))).
Proof.
  intros Hlen Hsmall Hrange Ha.
  by apply put_row_lookup_general.
Qed.

(** Two writes to index 1 add up, here past the largest [int32], so the
    sum wraps to the smallest one; index 7 is out of range and is
    dropped. *)
Lemma put_along_last_axis_row_lookup_witness :
  Decode.put_along_last_axis_row [0; 0; 0] [1; 7; 1] [2147483647; 9; 1] !! 1%nat
    = Some (- 2147483648).
Proof.
  destruct (put_along_last_axis_row_lookup [0; 0; 0] [1; 7; 1] [2147483647; 9; 1]
              1 0 eq_refl) as [_ H].
  - reflexivity.
  - repeat constructor; lia.
  - reflexivity.
  - exact H.
Defined.

(** X2: writing a single value at index [idx] replaces exactly that entry
    of the row; a negative index or one past the end writes nothing. *)
Theorem put_along_last_axis_row_one (arr : list Z) (idx v : Z) :
  Decode.put_along_last_axis_row arr [idx] [v]
    = if decide (0 <= idx < Z.of_nat (length arr))
      then <[Z.to_nat idx := v]> arr else arr.
Proof.
  destruct (decide (0 <= idx)) as [Hpos|Hneg].
  - replace idx with (Z.of_nat (Z.to_nat idx)) at 1 by lia.
    rewrite put_along_last_axis_row_single.
    case_decide; [done|]. apply list_insert_ge. lia.
  - rewrite decide_False by lia.
    apply list_eq. intros c.
    destruct (arr !! c) as [a|] eqn:Ha.
    + rewrite put_row_miss, Ha; [done|]. constructor; [lia|constructor].
    + apply lookup_ge_None. rewrite put_along_last_axis_row_length.
      by apply lookup_ge_None.
Qed.

Section DecodeLoopFacts.
Import Decode.
Context (M : Backbone).

Lemma while_loop_step_bound (Rnd : Random) temperature max_decoding_steps
    prefill_size prefill_len prefix_start fuel (carry : Carry M Rnd) :
  (c_step carry <= max_decoding_steps)%nat ->
  (c_step (while_loop M Rnd temperature max_decoding_steps prefill_size
             prefill_len prefix_start fuel carry) <= max_decoding_steps)%nat.
Proof.
  revert carry. induction fuel as [|fuel IH]; intros carry Hle; simpl; [done|].
  destruct (cond M Rnd max_decoding_steps carry) eqn:Hc; [|done].
  apply IH.
  destruct (step_fields M Rnd temperature max_decoding_steps prefill_size
              prefill_len prefix_start carry) as [-> _].
  unfold cond in Hc. apply andb_true_iff in Hc as [_ Hlt].
  apply Nat.ltb_lt in Hlt. lia.
Qed.

(** A write at column [s] leaves every other column of the row alone,
    whatever the values are. *)
Lemma put_row_other_column (arr values : list Z) (s j : nat) :
  j <> s ->
  put_along_last_axis_row arr [Z.of_nat s] values !! j = arr !! j.
Proof.
  intros Hne. destruct values as [|v values].
  - unfold put_along_last_axis_row. rewrite lookup_zip_with. simpl.
    destruct (decide (j < length arr)%nat) as [Hj|Hj].
    + rewrite lookup_zip_with.
      unfold einsum_i_in_n. rewrite !list_lookup_fmap, !lookup_seq_lt by done.
      simpl. by destruct (arr !! j).
    + assert (arr !! j = None) as -> by (apply lookup_ge_None; lia).
      by destruct (zip_with _ _ _ !! j).
  - assert (forall (a : list Z) (x : Z) oh n,
              einsum_i_in_n (x :: a) [oh] n = einsum_i_in_n [x] [oh] n) as Hone.
    { intros a x oh n. unfold einsum_i_in_n. apply list_fmap_ext.
      intros _ c _. simpl. by rewrite zip_with_nil_r. }
    assert (put_along_last_axis_row arr [Z.of_nat s] (v :: values)
            = put_along_last_axis_row arr [Z.of_nat s] [v]) as ->.
    { unfold put_along_last_axis_row. cbn [fmap list_fmap].
      by rewrite (Hone ((fun _ : Z => 1) <$> values) 1), (Hone values v). }
    rewrite put_along_last_axis_row_single. by apply list_lookup_insert_ne.
Qed.

End DecodeLoopFacts.

(** X3: the decode loop always stops, after at most [max_decoding_steps]
    steps, and when it stops either the last step saw the end-of-sequence
    token in every example or the step budget is used up.  With a budget of
    at least one step it runs at least once. *)
Theorem decode_loop_exit (M : Backbone) (Rnd : Random) (rng : Key Rnd)
    (p : Decode.Prefill M) (max_decoding_steps : nat) (temperature : R) :
  let final := Decode.decode_loop M Rnd rng p max_decoding_steps temperature in
  Decode.cond M Rnd max_decoding_steps final = false /\
  (Decode.c_step final <= max_decoding_steps)%nat /\
  (Decode.c_all_eos final = true \/ Decode.c_step final = max_decoding_steps) /\
  (Nat.min 1 max_decoding_steps <= Decode.c_step final)%nat.
Proof.
  intros final.
  assert (Decode.cond M Rnd max_decoding_steps final = false) as Hc.
  { apply while_loop_terminates. simpl. lia. }
  assert (Decode.c_step final <= max_decoding_steps)%nat as Hle.
  { apply while_loop_step_bound. simpl. lia. }
  split; [done|]. split; [done|]. split.
  - unfold Decode.cond in Hc. apply andb_false_iff in Hc as [Hc|Hc].
    + left. by destruct (Decode.c_all_eos final).
    + right. apply Nat.ltb_ge in Hc. lia.
  - unfold final, Decode.decode_loop.
    destruct max_decoding_steps as [|n]; [simpl; lia|].
    rewrite while_loop_continue by done.
    set (c1 := Decode.step _ _ _ _ _ _ _ _).
    assert (Decode.c_step c1 = 1%nat) as H1.
    { unfold c1.
      by destruct (step_fields M Rnd temperature (S n) (Decode.p_prefill_size p)
                     (Decode.p_prefill_len p) (Decode.p_prefix_start p)
                     (Decode.init_carry M Rnd rng p (S n))) as [-> _]. }
    assert (forall fuel c, (1 <= Decode.c_step c)%nat ->
              (1 <= Decode.c_step
                      (Decode.while_loop M Rnd temperature (S n)
                         (Decode.p_prefill_size p) (Decode.p_prefill_len p)
                         (Decode.p_prefix_start p) fuel c))%nat) as Hmono.
    { induction fuel as [|fuel IH]; intros c Hc1; simpl; [done|].
      destruct (Decode.cond M Rnd (S n) c); [|done]. apply IH.
      destruct (step_fields M Rnd temperature (S n) (Decode.p_prefill_size p)
                  (Decode.p_prefill_len p) (Decode.p_prefix_start p) c) as [-> _].
      lia. }
    replace (Nat.min 1 (S n)) with 1%nat by lia. apply Hmono. lia.
Qed.

Section BufferInvariant.
Import Decode.
Context (M : Backbone) (Rnd : Random) (temperature : R)
        (max_decoding_steps prefill_size : nat) (prefill_len prefix_start : list Z).

Abbreviation buffer_ok := (Decode.buffer_ok M Rnd max_decoding_steps).

Lemma buffer_ok_step (carry : Carry M Rnd) :
  buffer_ok carry ->
  buffer_ok (step M Rnd temperature max_decoding_steps prefill_size prefill_len
               prefix_start carry).
Proof.
  intros Hok b row Hrow.
  destruct (step_fields M Rnd temperature max_decoding_steps prefill_size
              prefill_len prefix_start carry) as (Hs & _ & Ho).
  rewrite Ho in Hrow. unfold put_along_last_axis in Hrow.
  apply lookup_zip_with_Some in Hrow as (a & [i v] & -> & Ha & Hiv).
  apply lookup_zip_with_Some in Hiv as (i' & v' & [= <- <-] & Hi & _).
  apply lookup_replicate in Hi as [-> _]. simpl.
  destruct (Hok b a Ha) as [Hlen Hzero]. split.
  - by rewrite put_along_last_axis_row_length.
  - intros j Hj. rewrite Hs in Hj.
    rewrite put_row_other_column by lia. apply Hzero. lia.
Qed.

Lemma buffer_ok_while fuel (carry : Carry M Rnd) :
  buffer_ok carry ->
  buffer_ok (while_loop M Rnd temperature max_decoding_steps prefill_size
               prefill_len prefix_start fuel carry).
Proof.
  revert carry. induction fuel as [|fuel IH]; intros carry Hok; simpl; [done|].
  destruct (cond M Rnd max_decoding_steps carry); [|done].
  by apply IH, buffer_ok_step.
Qed.

End BufferInvariant.

(** X4: in the buffer [sample_actions] returns, every row has
    [max_decoding_steps] columns and every column the loop did not reach
    (index at or after the final step counter) still holds the initial 0. *)
Theorem decode_loop_untouched_columns (M : Backbone) (Rnd : Random)
    (rng : Key Rnd) (p : Decode.Prefill M) (max_decoding_steps : nat)
    (temperature : R) (b j : nat) (row : list Z) :
  let final := Decode.decode_loop M Rnd rng p max_decoding_steps temperature in
  Decode.c_output_tokens final !! b = Some row ->
  (Decode.c_step final <= j < max_decoding_steps)%nat ->
  length row = max_decoding_steps /\ row !! j = Some 0.
Proof.
  intros final Hrow Hj.
  assert (Decode.buffer_ok M Rnd max_decoding_steps final) as Hok.
  { apply buffer_ok_while. intros b' row' Hr. simpl in Hr.
    apply lookup_replicate in Hr as [-> _]. split.
    - apply length_replicate.
    - intros j' Hj'. apply lookup_replicate_2. lia. }
  destruct (Hok b row Hrow) as [Hlen Hz]. split; [done|]. by apply Hz.
Qed.

(** The loop run of the toy backbone on two prompts that end in token 2:
    it stops after one step, so columns 1 and 2 are never written. *)
Lemma decode_loop_untouched_columns_witness :
  let final :=
    Decode.decode_loop Examples.toy_backbone Examples.toy_random tt
      (Decode.Build_Prefill Examples.toy_backbone 6 [6; 6] [0; 0]
         [[[0%R; 1%R; 0%R]]; [[0%R; 1%R; 0%R]]] 0%nat) 3 0%R in
  Decode.c_output_tokens final !! 1%nat = Some [1; 0; 0] /\
  (Decode.c_step final <= 2 < 3)%nat /\
  length [1; 0; 0] = 3%nat /\ [1; 0; 0] !! 2%nat = Some 0.
Proof.
  intros final.
  destruct (decode_loop_eos_at_step_0 Examples.toy_backbone Examples.toy_random tt
              (Decode.Build_Prefill Examples.toy_backbone 6 [6; 6] [0; 0]
                 [[[0%R; 1%R; 0%R]]; [[0%R; 1%R; 0%R]]] 0%nat) 3 0%R)
    as [Hstep Hout].
  - lia.
  - reflexivity.
  - constructor; [exact (f_equal (fun t => [t]) argmax_010)|].
    constructor; [exact (f_equal (fun t => [t]) argmax_010)|]. constructor.
  - fold final in Hstep, Hout.
    assert (Decode.c_output_tokens final !! 1%nat = Some [1; 0; 0]) as Hrow
      by (by rewrite Hout).
    assert (Decode.c_step final <= 2 < 3)%nat as Hj by (rewrite Hstep; lia).
    split; [exact Hrow|]. split; [exact Hj|].
    exact (decode_loop_untouched_columns Examples.toy_backbone Examples.toy_random tt
             (Decode.Build_Prefill Examples.toy_backbone 6 [6; 6] [0; 0]
                [[[0%R; 1%R; 0%R]]; [[0%R; 1%R; 0%R]]] 0%nat) 3 0%R 1 2 [1; 0; 0]
             Hrow Hj).
Defined.

Section GreedyFacts.
Import Decode.
Context (M : Backbone) (Rnd1 Rnd2 : Random) (temperature : R)
        (max_decoding_steps prefill_size : nat) (prefill_len prefix_start : list Z).
Hypothesis Hgreedy : (temperature <= 0)%R.

Abbreviation same_but_rng := (Decode.same_but_rng M Rnd1 Rnd2).

Lemma same_but_rng_step c1 c2 :
  same_but_rng c1 c2 ->
  same_but_rng
    (step M Rnd1 temperature max_decoding_steps prefill_size prefill_len
       prefix_start c1)
    (step M Rnd2 temperature max_decoding_steps prefill_size prefill_len
       prefix_start c2).
Proof.
  intros (Hl & Ho & Hc & He & Hs). unfold step.
  destruct (split Rnd1 (c_rng c1)) as [r1 k1].
  destruct (split Rnd2 (c_rng c2)) as [r2 k2].
  unfold select_token.
  destruct (Rlt_dec 0 temperature) as [H|_]; [exfalso; lra|].
  rewrite Hl, Ho, Hc, Hs.
  destruct (llm_step M _ _ _ _) as [l' kv]. by repeat split.
Qed.

Lemma same_but_rng_while fuel c1 c2 :
  same_but_rng c1 c2 ->
  same_but_rng
    (while_loop M Rnd1 temperature max_decoding_steps prefill_size prefill_len
       prefix_start fuel c1)
    (while_loop M Rnd2 temperature max_decoding_steps prefill_size prefill_len
       prefix_start fuel c2).
Proof.
  revert c1 c2. induction fuel as [|fuel IH]; intros c1 c2 Hsame; simpl; [done|].
  assert (cond M Rnd1 max_decoding_steps c1 = cond M Rnd2 max_decoding_steps c2)
    as Hcond.
  { destruct Hsame as (_ & _ & _ & He & Hs). unfold cond. by rewrite He, Hs. }
  rewrite Hcond. destruct (cond M Rnd2 max_decoding_steps c2); [|done].
  by apply IH, same_but_rng_step.
Qed.

End GreedyFacts.

(** X5: with a temperature that is not positive the decoder is greedy and
    its output does not depend on the random key, nor on how keys are split
    or sampled from: two runs on the same inputs return the same tokens. *)
Theorem greedy_sample_actions_ignores_rng (M : Backbone) (Rnd1 Rnd2 : Random)
    (rng1 : Key Rnd1) (rng2 : Key Rnd2)
    (embed : Observation (Image M) -> option Embedder.Array3 ->
             option (list (list (Emb M)) * list (list bool) * list (list Z)))
    (observation : Observation (Image M)) (actions : option Embedder.Array3)
    (max_decoding_steps : nat) (temperature : R) :
  (temperature <= 0)%R ->
  Decode.sample_actions M Rnd1 embed rng1 observation actions max_decoding_steps
      temperature
    = Decode.sample_actions M Rnd2 embed rng2 observation actions
        max_decoding_steps temperature.
Proof.
  intros Ht. unfold Decode.sample_actions.
  destruct (Decode.prefill M embed observation actions max_decoding_steps)
    as [p|]; [|done].
  cbn [mbind option_bind]. f_equal. unfold Decode.decode_loop.
  by destruct (same_but_rng_while M Rnd1 Rnd2 temperature max_decoding_steps
                 (Decode.p_prefill_size p) (Decode.p_prefill_len p)
                 (Decode.p_prefix_start p) Ht max_decoding_steps
                 (Decode.init_carry M Rnd1 rng1 p max_decoding_steps)
                 (Decode.init_carry M Rnd2 rng2 p max_decoding_steps))
    as (_ & Ho & _).
Qed.

(** Greedy decoding of the toy model with the constant key source and with
    a counter as key whose sampler would always answer token 0. *)
Lemma greedy_sample_actions_ignores_rng_witness :
  (0 <= 0)%R /\
  ObsDistilled.sample_actions (Examples.toy_distilled true None)
      Examples.toy_random tt (Examples.toy_obs [[5; 5; 2]; [5; 5; 1]])
      (Some (Examples.toy_actions 2)) 3 0%R
    = ObsDistilled.sample_actions (Examples.toy_distilled true None)
        {| Key := nat; split := fun k => (S k, k);
           categorical := fun _ l => (fun _ => [0]) <$> l |}
        7%nat (Examples.toy_obs [[5; 5; 2]; [5; 5; 1]])
        (Some (Examples.toy_actions 2)) 3 0%R.
Proof.
  split; [lra|].
  apply (greedy_sample_actions_ignores_rng Examples.toy_backbone). lra.
Defined.

Section AttnMaskMore.
Import AttnMask.

Lemma make_attn_mask_Some_inv input_mask mask_ar m :
  make_attn_mask input_mask mask_ar = Some m ->
  exists ar, broadcast_to mask_ar input_mask = Some ar.
Proof.
  unfold make_attn_mask. destruct (broadcast_to mask_ar input_mask) as [ar|]; [|done].
  eauto.
Qed.

(** Every entry of a mask row: the causal comparison and both validity
    bits. *)
Lemma make_attn_mask_entry input_mask mask_ar m b valid i j vi vj :
  make_attn_mask input_mask mask_ar = Some m ->
  input_mask !! b = Some valid ->
  valid !! i = Some vi -> valid !! j = Some vj ->
  exists arow ci cj,
    length arow = length valid /\
    (forall ar, broadcast_to mask_ar input_mask = Some ar -> ar !! b = Some arow) /\
    cumsum arow !! i = Some ci /\ cumsum arow !! j = Some cj /\
    idx3 m b i j = Some ((cj <=? ci) && vi && vj).
Proof.
  intros Hm Hb Hi Hj.
  destruct (make_attn_mask_Some_inv _ _ _ Hm) as [ar Hbc].
  destruct (broadcast_to_rows _ _ _ _ _ Hbc Hb) as (arow & Hab & Hlen).
  destruct (attn_entry valid arow i j vi vj Hlen Hi Hj) as (ci & cj & H1 & H2 & H3).
  exists arow, ci, cj. split; [done|]. split.
  - intros ar' Har'. rewrite Hbc in Har'. by injection Har' as <-.
  - split; [done|]. split; [done|].
    by rewrite (make_attn_mask_idx3 _ _ _ _ _ _ _ i j Hbc Hm Hb Hab).
Qed.

Lemma sum_replicate_zero (p : nat) : foldr Z.add 0 (replicate p 0) = 0.
Proof. induction p as [|p IH]; simpl; [done|]. by rewrite IH. Qed.

Lemma sum_replicate_one (q : nat) : foldr Z.add 0 (replicate q 1) = Z.of_nat q.
Proof. induction q as [|q IH]; simpl; [done|]. rewrite IH. lia. Qed.

(** The running sum of [p] zeros followed by [q] ones. *)
Lemma cumsum_prefix_lm (p q i : nat) :
  (i < p + q)%nat ->
  cumsum (replicate p 0 ++ replicate q 1) !! i = Some (Z.of_nat (S i - p)).
Proof.
  intros Hi. unfold cumsum.
  destruct (lookup_lt_is_Some_2 (replicate p 0 ++ replicate q 1) i) as [x Hx].
  { rewrite length_app, !length_replicate. lia. }
  rewrite (cumsum_from_lookup _ 0 i x Hx). f_equal.
  rewrite take_app, length_replicate, !take_replicate, foldr_app.
  rewrite (foldr_add_acc (replicate _ 0)), sum_replicate_zero, sum_replicate_one.
  lia.
Qed.

End AttnMaskMore.

(** X6: with autoregressive flags that are 0 on the first [p] positions and
    1 on the remaining [q] (a bidirectional prefix followed by causal
    tokens), position [i] attends to position [j] exactly when [j] lies in
    the prefix or [j <= i], and both positions are valid. *)
Theorem make_attn_mask_prefix_lm (input_mask : list (list bool)) (p q : nat) :
  Forall (fun valid : list bool => length valid = (p + q)%nat) input_mask ->
  exists m,
    AttnMask.make_attn_mask input_mask
      (AttnMask.ArRow (replicate p 0 ++ replicate q 1)) = Some m /\
    forall b valid i j vi vj,
      input_mask !! b = Some valid ->
      valid !! i = Some vi -> valid !! j = Some vj ->
      idx3 m b i j = Some (((j <? p)%nat || (j <=? i)%nat) && vi && vj).
Proof.
  intros Hlen.
  set (row := replicate p 0 ++ replicate q 1).
  assert (length row = (p + q)%nat) as Hrow
    by (unfold row; rewrite length_app, !length_replicate; lia).
  assert (AttnMask.broadcast_to (AttnMask.ArRow row) input_mask
          = Some ((fun _ => row) <$> input_mask)) as Hbc.
  { unfold AttnMask.broadcast_to. apply mapM_Some_2.
    apply Forall2_fmap_r, Forall_Forall2_diag.
    eapply Forall_impl; [exact Hlen|]. intros v Hv. cbv beta.
    unfold AttnMask.broadcast_row. by rewrite decide_True by congruence. }
  assert (exists m, AttnMask.make_attn_mask input_mask (AttnMask.ArRow row) = Some m)
    as [m Hm] by (unfold AttnMask.make_attn_mask; rewrite Hbc; eauto).
  exists m. split; [done|]. intros b valid i j vi vj Hb Hi Hj.
  destruct (make_attn_mask_entry _ _ _ _ _ _ _ _ _ Hm Hb Hi Hj)
    as (arow & ci & cj & Hl & Har & Hci & Hcj & ->).
  specialize (Har _ Hbc). rewrite list_lookup_fmap, Hb in Har.
  injection Har as <-.
  assert (length valid = (p + q)%nat) as Hv.
  { rewrite Forall_forall in Hlen. apply Hlen. by eapply list_elem_of_lookup_2. }
  apply lookup_lt_Some in Hi, Hj.
  unfold row in Hci, Hcj.
  rewrite cumsum_prefix_lm in Hci, Hcj by lia.
  injection Hci as <-. injection Hcj as <-. do 3 f_equal.
  destruct (Nat.ltb_spec j p), (Nat.leb_spec j i); simpl;
    first [apply Z.leb_le; lia | apply Z.leb_gt; lia].
Qed.

(** Two prefix positions and two causal ones, the last one padding: the
    first causal token sees the prefix, the prefix does not see it. *)
Lemma make_attn_mask_prefix_lm_witness :
  exists m,
    AttnMask.make_attn_mask [[true; true; true; false]]
      (AttnMask.ArRow [0; 0; 1; 1]) = Some m /\
    idx3 m 0 2 1 = Some true /\ idx3 m 0 1 2 = Some false /\
    idx3 m 0 0 1 = Some true /\ idx3 m 0 3 3 = Some false.
Proof.
  destruct (make_attn_mask_prefix_lm [[true; true; true; false]] 2 2)
    as (m & Hm & Hent).
  - by constructor.
  - exists m. split; [exact Hm|].
    split; [exact (Hent 0%nat [true; true; true; false] 2%nat 1%nat true true
                     eq_refl eq_refl eq_refl)|].
    split; [exact (Hent 0%nat [true; true; true; false] 1%nat 2%nat true true
                     eq_refl eq_refl eq_refl)|].
    split; [exact (Hent 0%nat [true; true; true; false] 0%nat 1%nat true true
                     eq_refl eq_refl eq_refl)|].
    exact (Hent 0%nat [true; true; true; false] 3%nat 3%nat false false
             eq_refl eq_refl eq_refl).
Defined.

(** X7: a padding position is cut out of the attention mask in both
    directions: its whole row and its whole column are false, whatever the
    autoregressive flags are. *)
Theorem make_attn_mask_padding (input_mask : list (list bool))
    (mask_ar : AttnMask.ar_arg) (m : list (list (list bool)))
    (b i j : nat) (valid : list bool) :
  AttnMask.make_attn_mask input_mask mask_ar = Some m ->
  input_mask !! b = Some valid ->
  valid !! i = Some false ->
  (j < length valid)%nat ->
  idx3 m b i j = Some false /\ idx3 m b j i = Some false.
Proof.
  intros Hm Hb Hi Hj.
  destruct (lookup_lt_is_Some_2 valid j Hj) as [vj Hvj].
  destruct (make_attn_mask_entry _ _ _ _ _ _ _ _ _ Hm Hb Hi Hvj)
    as (_ & ci & cj & _ & _ & _ & _ & ->).
  destruct (make_attn_mask_entry _ _ _ _ _ _ _ _ _ Hm Hb Hvj Hi)
    as (_ & cj' & ci' & _ & _ & _ & _ & ->).
  split; f_equal.
  - by rewrite andb_false_r.
  - by rewrite andb_false_r.
Qed.

Lemma make_attn_mask_padding_witness :
  idx3 [[[true; true; false]; [true; true; false]; [false; false; false]]]
       0 2 1 = Some false /\
  idx3 [[[true; true; false]; [true; true; false]; [false; false; false]]]
       0 1 2 = Some false.
Proof.
  apply (make_attn_mask_padding [[true; true; false]] (AttnMask.ArRow [0; 0; 0])
           _ 0 2 1 [true; true; false]).
  - reflexivity.
  - reflexivity.
  - reflexivity.
  - simpl. lia.
Defined.

Section AlignMore.
Import Align.

Lemma mask_times_length (mask : list bool) :
  length (mask_times mask (arange (length mask))) = length mask.
Proof.
  unfold mask_times, arange. rewrite length_zip_with, length_fmap, length_seq. lia.
Qed.

Lemma mask_times_lookup (mask : list bool) (i : nat) (v : bool) :
  mask !! i = Some v ->
  mask_times mask (arange (length mask)) !! i
    = Some (if v then Z.of_nat i else 0).
Proof.
  intros Hi. unfold mask_times, arange.
  rewrite lookup_zip_with, Hi, list_lookup_fmap. simpl.
  rewrite lookup_seq_lt by (by eapply lookup_lt_Some). done.
Qed.

(** The shift amount: one more than the index of the last valid position
    (1 when no position after the first is valid). *)
Lemma seqlen_spec (mask : list bool) :
  mask <> [] ->
  exists s : nat,
    jnp_max (mask_times mask (arange (length mask))) = Some (Z.of_nat s - 1) /\
    (1 <= s <= length mask)%nat /\
    (forall i, (s <= i < length mask)%nat -> mask !! i = Some false) /\
    ((1 < s)%nat -> mask !! (s - 1)%nat = Some true).
Proof.
  intros Hne.
  destruct (mask_times mask (arange (length mask))) as [|y r] eqn:El.
  { exfalso. apply Hne, length_zero_iff_nil.
    by rewrite <- mask_times_length, El. }
  destruct (foldr_max_spec y r) as [Hin Hub].
  rewrite <- El in Hin, Hub. simpl.
  apply list_elem_of_lookup in Hin as [k Hk].
  assert (k < length mask)%nat as Hklt.
  { apply lookup_lt_Some in Hk. by rewrite mask_times_length in Hk. }
  destruct (lookup_lt_is_Some_2 mask k Hklt) as [vk Hvk].
  rewrite (mask_times_lookup mask k vk Hvk) in Hk. injection Hk as Hk.
  assert (forall i, (i < length mask)%nat -> mask !! i = Some true ->
            Z.of_nat i <= foldr Z.max y r) as Hle.
  { intros i Hi Hv. apply Hub. apply list_elem_of_lookup. exists i.
    by rewrite (mask_times_lookup mask i true Hv). }
  destruct vk.
  - exists (S k). split; [f_equal; lia|]. split; [lia|]. split.
    + intros i Hi. destruct (lookup_lt_is_Some_2 mask i) as [[|] Hv]; [lia| |done].
      specialize (Hle i (proj2 Hi) Hv). lia.
    + intros _. by replace (S k - 1)%nat with k by lia.
  - exists 1%nat. split; [f_equal; lia|]. split; [destruct mask; simpl in *; [done|lia]|].
    split; [|lia].
    intros i Hi. destruct (lookup_lt_is_Some_2 mask i) as [[|] Hv]; [lia| |done].
    specialize (Hle i (proj2 Hi) Hv). lia.
Qed.

Lemma roll_Permutation {A} s (l : list A) : roll s l ≡ₚ l.
Proof.
  unfold roll. rewrite Permutation_app_comm. by rewrite take_drop.
Qed.

End AlignMore.

(** X8: for any validity mask (holes allowed) on a non-empty sequence,
    [left_to_right_align] rotates the three arrays left by [s], one more
    than the index of the last valid position: everything from [s] on is
    padding and moves to the front, the last valid position becomes the
    last position, and nothing is lost or duplicated. *)
Theorem left_to_right_align_last_valid {E : Type} (x : list E)
    (input_mask : list bool) (attn_mask : list (list bool)) :
  length x = length input_mask ->
  Forall (fun r : list bool => length r = length attn_mask) attn_mask ->
  input_mask <> [] ->
  exists s : nat,
    (1 <= s <= length input_mask)%nat /\
    (forall i, (s <= i < length input_mask)%nat -> input_mask !! i = Some false) /\
    ((1 < s)%nat -> input_mask !! (s - 1)%nat = Some true) /\
    Align.left_to_right_align x input_mask attn_mask
      = Some (drop s x ++ take s x,
              replicate (length input_mask - s) false ++ take s input_mask,
              Align.roll2 (- Z.of_nat s) attn_mask) /\
    drop s x ++ take s x ≡ₚ x.
Proof.
  intros Hx Hsq Hne.
  destruct (seqlen_spec input_mask Hne) as (s & Hmax & Hs & Hpad & Hlast).
  exists s. split; [done|]. split; [done|]. split; [done|]. split.
  - unfold Align.left_to_right_align.
    rewrite Hx, Nat.eqb_refl. simpl.
    replace (forallb _ attn_mask) with true.
    2:{ symmetry. apply forallb_forall. intros r Hr.
        rewrite Forall_forall in Hsq. apply Nat.eqb_eq, Hsq.
        by apply list_elem_of_In. }
    simpl. rewrite Hmax. simpl.
    replace (Z.of_nat s - 1 + 1) with (Z.of_nat s) by lia.
    rewrite !roll_neg_nat by lia.
    assert (drop s input_mask = replicate (length input_mask - s) false) as ->;
      [|done].
    apply list_eq. intros i.
    destruct (decide (i < length input_mask - s)%nat) as [Hi|Hi].
    + rewrite lookup_replicate_2 by done.
      rewrite lookup_drop. apply Hpad. lia.
    + rewrite lookup_ge_None_2; [|rewrite length_drop; lia].
      symmetry. apply lookup_ge_None_2. rewrite length_replicate. lia.
  - rewrite Permutation_app_comm. by rewrite take_drop.
Qed.

(** A mask with a hole: positions 0 and 2 are valid, so the shift is 3. *)
Lemma left_to_right_align_last_valid_witness :
  Align.left_to_right_align [10; 20; 30; 40] [true; false; true; false]
      (replicate 4 (replicate 4 true))
    = Some ([40; 10; 20; 30], [false; true; false; true],
            replicate 4 (replicate 4 true)).
Proof.
  destruct (left_to_right_align_last_valid [10; 20; 30; 40]
              [true; false; true; false] (replicate 4 (replicate 4 true)))
    as (s & Hs & Hpad & Hlast & Heq & _).
  - reflexivity.
  - by repeat constructor.
  - discriminate.
  - assert (s = 3%nat) as ->.
    { destruct (decide (s <= 2)%nat) as [H2|H2].
      - assert (s <= 2 < 4)%nat as H4 by (simpl; lia).
        specialize (Hpad 2%nat H4). discriminate.
      - destruct (decide (s = 4%nat)) as [->|H4]; [|simpl in Hs; lia].
        assert (1 < 4)%nat as H1 by lia. specialize (Hlast H1). discriminate. }
    exact Heq.
Defined.

(** X9: [left_to_right_align] succeeds exactly when the embeddings and the
    validity mask have the same length, the attention mask is square and
    the sequence is not empty; every other input is rejected. *)
Theorem left_to_right_align_defined {E : Type} (x : list E)
    (input_mask : list bool) (attn_mask : list (list bool)) :
  is_Some (Align.left_to_right_align x input_mask attn_mask) <->
  length x = length input_mask /\
  Forall (fun r : list bool => length r = length attn_mask) attn_mask /\
  input_mask <> [].
Proof.
  split.
  - intros [res Hres]. unfold Align.left_to_right_align in Hres.
    destruct (length x =? length input_mask)%nat eqn:Hx; [|done].
    simpl in Hres.
    destruct (forallb _ attn_mask) eqn:Hsq; [|done]. simpl in Hres.
    split; [by apply Nat.eqb_eq|]. split.
    + apply Forall_forall. intros r Hr. apply Nat.eqb_eq.
      rewrite forallb_forall in Hsq. apply Hsq. by apply list_elem_of_In.
    + intros ->. done.
  - intros (Hx & Hsq & Hne).
    destruct (seqlen_spec input_mask Hne) as (s & Hmax & _).
    unfold Align.left_to_right_align.
    rewrite Hx, Nat.eqb_refl. simpl.
    replace (forallb _ attn_mask) with true.
    2:{ symmetry. apply forallb_forall. intros r Hr.
        rewrite Forall_forall in Hsq. apply Nat.eqb_eq, Hsq.
        by apply list_elem_of_In. }
    simpl. rewrite Hmax. simpl. eauto.
Qed.

Section LossMore.
Import Loss.
Local Open Scope R_scope.

Lemma sumR_nonneg (l : list R) : Forall (fun x => 0 <= x) l -> 0 <= sumR l.
Proof. induction 1 as [|x l Hx _ IH]; simpl; lra. Qed.

Lemma sumR_elem_le (l : list R) (x : R) :
  Forall (fun y => 0 <= y) l -> x ∈ l -> x <= sumR l.
Proof.
  induction 1 as [|y l Hy Hl IH]; intros Hin; [by apply elem_of_nil in Hin|].
  simpl. pose proof (sumR_nonneg l Hl).
  apply elem_of_cons in Hin as [->|Hin]; [lra|]. specialize (IH Hin). lra.
Qed.

(** Log-probabilities are never positive. *)
Lemma log_softmax_nonpos (row : list R) :
  Forall (fun x => x <= 0) (log_softmax row).
Proof.
  unfold log_softmax. apply Forall_fmap, Forall_forall. intros y Hy. simpl.
  assert (exp y <= sumR (exp <$> row)) as Hle.
  { apply sumR_elem_le.
    - apply Forall_fmap, Forall_forall. intros z _. simpl. left. apply exp_pos.
    - by apply list_elem_of_fmap_2. }
  assert (y <= ln (sumR (exp <$> row))); [|lra].
  rewrite <- (ln_exp y) at 1. destruct Hle as [Hlt|<-]; [|lra].
  left. apply ln_increasing; [apply exp_pos|done].
Qed.

Lemma one_hot_nonneg (tok : Z) (n : nat) : Forall (fun t => 0 <= t) (one_hot tok n).
Proof.
  unfold one_hot. apply Forall_fmap, Forall_forall. intros c _. simpl.
  case_decide; lra.
Qed.

Lemma sumR_nonpos (l : list R) : Forall (fun x => x <= 0) l -> sumR l <= 0.
Proof. induction 1 as [|x l Hx _ IH]; simpl; lra. Qed.

Lemma targets_of_nonneg (prompt : list (list Z)) (vocab : nat) :
  Forall (Forall (Forall (fun t => 0 <= t))) (targets_of prompt vocab).
Proof.
  unfold targets_of. apply Forall_fmap, Forall_forall. intros row _.
  unfold compose. apply Forall_fmap, Forall_forall. intros t _.
  apply one_hot_nonneg.
Qed.

Lemma log_softmax_rows_nonpos (logits : list (list (list R))) :
  Forall (Forall (Forall (fun x => x <= 0))) (rows3 log_softmax logits).
Proof.
  unfold rows3. apply Forall_fmap, Forall_forall. intros m _.
  unfold compose. apply Forall_fmap, Forall_forall. intros row _.
  apply log_softmax_nonpos.
Qed.

Lemma denominator_ge_1 (loss_mask : list (list bool)) :
  Forall (fun d => 1 <= d) (denominator loss_mask).
Proof.
  unfold denominator. apply Forall_fmap, Forall_forall. intros mr _.
  unfold compose, clip_min. apply Rmax_r.
Qed.

(** A masked sum of non-negative per-token values is non-negative, whatever
    the broadcasting does. *)
Lemma masked_sum_nonneg (x : list (list R)) (loss_mask : list (list bool)) num :
  Forall (Forall (fun c => 0 <= c)) x ->
  masked_sum x loss_mask = Some num -> Forall (fun s => 0 <= s) num.
Proof.
  intros Hx. unfold masked_sum.
  destruct (zip2 _ x loss_mask) as [prod|] eqn:Hprod; [|done].
  intros [= <-]. apply Forall_fmap.
  assert (Forall (Forall (fun c => 0 <= c)) prod) as Hp.
  { revert Hprod. unfold zip2.
    apply (bcast_Forall (Forall (fun c => 0 <= c)) (fun _ => True));
      [|done|by apply Forall_true].
    intros r mr z Hr _.
    apply (bcast_Forall (fun c => 0 <= c) (fun _ => True));
      [|done|by apply Forall_true].
    intros c v p Hc _ [= <-]. unfold mask_val. destruct v; lra. }
  eapply Forall_impl; [exact Hp|]. intros r Hr. by apply sumR_nonneg.
Qed.

(** The cross-entropy term is never negative. *)
Lemma ce_loss_nonneg (prompt : list (list Z)) (vocab : nat)
    (logits : list (list (list R))) (loss_mask : list (list bool)) loss :
  ce_loss (targets_of prompt vocab) logits loss_mask = Some loss ->
  Forall (fun l => 0 <= l) loss.
Proof.
  unfold ce_loss.
  destruct (zip3 Rmult _ _) as [prod|] eqn:Hprod; [|done].
  cbn [mbind option_bind].
  destruct (masked_sum _ loss_mask) as [num|] eqn:Hnum; [|done].
  cbn [mbind option_bind]. intros Hloss.
  assert (Forall (Forall (Forall (fun x => x <= 0))) prod) as Hp.
  { revert Hprod. unfold zip3.
    apply (bcast_Forall (Forall (Forall (fun t => 0 <= t)))
             (Forall (Forall (fun x => x <= 0))));
      [|apply targets_of_nonneg|apply log_softmax_rows_nonpos].
    intros m m' z Hm Hm'.
    apply (bcast_Forall (Forall (fun t => 0 <= t)) (Forall (fun x => x <= 0)));
      [|done|done].
    intros r r' z' Hr Hr'.
    apply (bcast_Forall (fun t => 0 <= t) (fun x => x <= 0)); [|done|done].
    intros t x p Ht Hx [= <-]. nra. }
  assert (Forall (fun s => 0 <= s) num) as Hn.
  { eapply masked_sum_nonneg; [|exact Hnum].
    apply Forall_fmap. unfold sum_last3. apply Forall_fmap.
    eapply Forall_impl; [exact Hp|]. intros m Hm. unfold compose.
    apply Forall_fmap, Forall_fmap.
    eapply Forall_impl; [exact Hm|]. intros r Hr. unfold compose.
    pose proof (sumR_nonpos r Hr). lra. }
  revert Hloss. unfold div1, zip1.
  apply (bcast_Forall (fun s => 0 <= s) (fun d => 1 <= d));
    [|done|apply denominator_ge_1].
  intros s d q Hs Hd [= <-].
  apply Rmult_le_pos; [done|]. left. apply Rinv_0_lt_compat. lra.
Qed.

End LossMore.

(** X10: the loss the predictive model returns is never negative: each
    example's value is a masked mean of token cross-entropies, and a
    log-probability is never positive. *)
Theorem predictive_loss_nonneg (self : Predictive.Model)
    (observation : Observation (Image (Predictive.PaliGemma self))) (train : bool)
    (current_actions : option Embedder.Array3) (loss : list R) :
  Predictive.compute_loss self observation train current_actions = Some loss ->
  Forall (fun l => (0 <= l)%R) loss.
Proof.
  unfold Predictive.compute_loss. intros Hloss.
  destruct (Predictive.embed_inputs_with_current_action self _ current_actions)
    as [[[e m] a]|]; [|done].
  cbn [mbind option_bind] in Hloss.
  destruct (AttnMask.make_attn_mask m (AttnMask.ArBatch a)); [|done].
  cbn [mbind option_bind] in Hloss.
  destruct (tokenized_prompt _) as [prompt|]; [|done].
  cbn [mbind option_bind] in Hloss.
  destruct (token_loss_mask _) as [lm|]; [|done].
  cbn [mbind option_bind] in Hloss.
  rewrite predictive_loss_eq_ce in Hloss. by eapply ce_loss_nonneg.
Qed.

(** The toy predictive model on one example with a prompt of three tokens. *)
Lemma predictive_loss_nonneg_witness :
  exists loss,
    Predictive.compute_loss Examples.toy_predictive (Examples.toy_obs [[5; 5; 2]])
      false (Some (Examples.toy_actions 1)) = Some loss /\
    Forall (fun l => (0 <= l)%R) loss.
Proof.
  eexists. split; [reflexivity|].
  apply (predictive_loss_nonneg Examples.toy_predictive
           (Examples.toy_obs [[5; 5; 2]]) false (Some (Examples.toy_actions 1))).
  reflexivity.
Defined.

Section SelfKL.
Import Loss SameShape.
Local Open Scope R_scope.







End SelfKL.






Section EmbedderMore.
Import Embedder.
Context (M : Backbone).

(** A successful concatenation along the sequence axis means every part
    had the batch size of the result. *)
Lemma concatenate1_lengths {A} (parts : list (list (list A))) r :
  concatenate1 parts = Some r -> Forall (fun p => length p = length r) parts.
Proof.
  revert r. induction parts as [|p rest IH]; intros r Hr; [done|].
  destruct rest as [|q rest'].
  - injection Hr as <-. by constructor.
  - change (concatenate1 (p :: q :: rest')) with
      (r0 ← concatenate1 (q :: rest');
       if decide (length p = length r0) then Some (zip_with app p r0) else None)
      in Hr.
    destruct (concatenate1 (q :: rest')) as [r0|]; [|done].
    cbn [mbind option_bind] in Hr. case_decide as Hlen; [|done].
    injection Hr as <-.
    assert (length (zip_with app p r0) = length r0) as Hz
      by (rewrite length_zip_with; lia).
    constructor; [lia|]. rewrite Hz. by apply IH.
Qed.

Lemma embed_images_Some_inv ims masks acc acc' :
  embed_images M ims masks acc = Some acc' ->
  Forall (fun nb : string * list (Image M) => is_Some (masks !! nb.1)) ims.
Proof.
  revert acc. induction ims as [|[name batch] ims IH]; intros acc Hacc; [done|].
  cbn [embed_images] in Hacc. destruct acc as [[te im] ar].
  destruct (masks !! name) as [mask|] eqn:Hmask; [|done].
  cbn [mbind option_bind] in Hacc.
  constructor; [by exists mask|]. by eapply IH.
Qed.

Lemma chunks_length {A} (b ah : nat) (flat : list A) : length (chunks b ah flat) = b.
Proof. revert flat. induction b as [|b IH]; intros flat; simpl; [done|]. by rewrite IH. Qed.

End EmbedderMore.

(** What a successful run of the embedder body implies. *)
Lemma embed_sequence_requires (M : Backbone)
    (proj : list R -> Emb M) (use_action_input : bool)
    (obs : Observation (Image M)) (actions : option Embedder.Array3)
    (e : list (list (Emb M))) (m : list (list bool)) (a : list (list Z)) :
  Embedder.embed_sequence M proj use_action_input obs actions
    = Some (e, m, a) ->
  exists prompt pmask par,
    tokenized_prompt obs = Some prompt /\
    tokenized_prompt_mask obs = Some pmask /\
    token_ar_mask obs = Some par /\
    length e = length prompt /\ length m = length pmask /\ length a = length par /\
    Forall (fun nb : string * list (Image M) =>
              length nb.2 = length prompt /\
              exists mask, image_masks obs !! nb.1 = Some mask /\
                           length mask = length pmask)
           (images obs) /\
    (forall act, actions = Some act -> use_action_input = true ->
       (Embedder.shape3 act).1.1 = length prompt /\
       (Embedder.shape3 act).1.1 = length pmask).
Proof.
  unfold Embedder.embed_sequence. intros H.
  destruct (Embedder.embed_images M (images obs) (image_masks obs) ([], [], []))
    as [acc|] eqn:Himg; [|done].
  cbn [mbind option_bind] in H.
  pose proof (embed_images_Some_inv M _ _ _ _ Himg) as Hmasks.
  rewrite (embed_images_spec M _ _ [] [] [] Hmasks) in Himg.
  injection Himg as <-. cbn [app] in H.
  destruct (Embedder.embed_action M proj use_action_input actions _)
    as [[[te im] ar]|] eqn:Hact; [|done].
  cbn [mbind option_bind] in H. unfold Embedder.embed_tokens in H.
  destruct (tokenized_prompt obs) as [prompt|]; [|done].
  destruct (tokenized_prompt_mask obs) as [pmask|]; [|done].
  destruct (token_ar_mask obs) as [par|]; [|done].
  cbn [mbind option_bind] in H.
  destruct (Embedder.concatenate1 (te ++ _)) as [e'|] eqn:He; [|done].
  destruct (Embedder.concatenate1 (im ++ _)) as [m'|] eqn:Hm; [|done].
  destruct (Embedder.concatenate1 (ar ++ _)) as [a'|] eqn:Ha; [|done].
  cbn [mbind option_bind] in H. injection H as <- <- <-.
  apply concatenate1_lengths in He, Hm, Ha.
  apply Forall_app in He as [Hte He], Hm as [Him Hm], Ha as [Har Ha].
  rewrite Forall_singleton in He. rewrite Forall_singleton in Hm.
  rewrite Forall_singleton in Ha.
  rewrite length_fmap in He.
  exists prompt, pmask, par. do 3 (split; [done|]).
  split; [done|]. split; [done|]. split; [done|].
  assert (exists te0 im0,
            te = Embedder.image_embs M (images obs) ++ te0 /\
            im = Embedder.image_valid M (images obs) (image_masks obs) ++ im0 /\
            (forall act, actions = Some act -> use_action_input = true ->
               exists emb, te0 = [emb] /\ length emb = (Embedder.shape3 act).1.1 /\
                 im0 = [replicate (Embedder.shape3 act).1.1
                          (replicate (Embedder.shape3 act).1.2 true)]))
    as (te0 & im0 & -> & -> & Hshape).
  { unfold Embedder.embed_action in Hact. destruct actions as [act|].
    - destruct use_action_input.
      + destruct (Embedder.shape3 act) as [[b ah] d] eqn:Hs.
        destruct (Embedder.unflatten b ah _) as [emb|] eqn:Hun; [|done].
        cbn [mbind option_bind] in Hact. injection Hact as <- <- <-.
        eexists _, _. split; [done|]. split; [done|].
        intros act' [= <-] _. rewrite Hs. eexists. split; [done|]. split; [|done].
        unfold Embedder.unflatten in Hun. case_decide; [|done].
        injection Hun as <-. apply chunks_length.
      + injection Hact as <- <- <-. exists [], []. rewrite !app_nil_r.
        split; [done|]. split; [done|]. intros _ _ [=].
    - injection Hact as <- <- <-. exists [], []. rewrite !app_nil_r.
      split; [done|]. split; [done|]. intros _ [=]. }
  apply Forall_app in Hte as [Hte Hte0], Him as [Him Him0]. split.
  - apply Forall_forall. intros [name batch] Hin. simpl.
    rewrite Forall_forall in Hmasks. destruct (Hmasks _ Hin) as [mask Hmask].
    simpl in Hmask. split.
    + rewrite Forall_forall in Hte.
      assert (img M <$> batch ∈ Embedder.image_embs M (images obs)) as Hb.
      { unfold Embedder.image_embs.
        by apply (list_elem_of_fmap_2
                    (fun nb : string * list (Image M) => img M <$> nb.2) _ _ Hin). }
      specialize (Hte _ Hb). rewrite length_fmap in Hte. lia.
    + exists mask. split; [done|].
      rewrite Forall_forall in Him.
      assert (Embedder.repeat_b_s mask (img_tokens M)
                ∈ Embedder.image_valid M (images obs) (image_masks obs)) as Hb.
      { unfold Embedder.image_valid.
        apply list_elem_of_fmap. exists (name, batch). split; [|done].
        simpl. by rewrite Hmask. }
      specialize (Him _ Hb). unfold Embedder.repeat_b_s in Him.
      rewrite length_fmap in Him. lia.
  - intros act Hact' Hflag.
    destruct (Hshape act Hact' Hflag) as (emb & -> & Hemb & ->).
    rewrite Forall_singleton in Hte0. rewrite Forall_singleton in Him0.
    rewrite length_replicate in Him0. lia.
Qed.


Lemma typecheck_Some_inv (M : Backbone) (actions : option Embedder.Array3)
    (result result' : list (list (Emb M)) * list (list bool) * list (list Z)) :
  Embedder.typecheck M actions result = Some result' ->
  result' = result /\
  exists s : nat,
    length result.1.2 = length result.1.1 /\
    length result.2 = length result.1.1 /\
    Forall (fun row => length row = s) result.1.1 /\
    Forall (fun row => length row = s) result.1.2 /\
    Forall (fun row => length row = s) result.2 /\
    (forall act, actions = Some act ->
       (Embedder.shape3 act).1.1 = length result.1.1).
Proof.
  destruct result as [[e m] a]. unfold Embedder.typecheck. cbn [fst snd].
  destruct (_ && _) eqn:Hcheck; [|done]. intros [= <-]. split; [done|].
  repeat (apply andb_true_iff in Hcheck as [Hcheck ?]).
  repeat match goal with
         | H : bool_decide _ = true |- _ => apply bool_decide_eq_true in H
         end.
  eexists. do 5 (split; [done|]).
  intros act ->. by apply bool_decide_eq_true in Hcheck.
Qed.

(** X13: what a successful call of the embedder implies.  The three
    tokenized fields are present, every camera has a mask entry, and one
    batch size is shared by everything: the three results, the prompt and
    its two masks, each camera's image batch and mask, and the action array
    whenever one is passed (even when the configuration does not embed it).
    The three results also share one sequence length.  Any other input
    makes the embedder raise. *)
Theorem embed_inputs_with_action_requires (M : Backbone)
    (proj : list R -> Emb M) (use_action_input : bool)
    (obs : Observation (Image M)) (actions : option Embedder.Array3)
    (e : list (list (Emb M))) (m : list (list bool)) (a : list (list Z)) :
  Embedder.embed_inputs_with_action M proj use_action_input obs actions
    = Some (e, m, a) ->
  exists prompt pmask par (s : nat),
    tokenized_prompt obs = Some prompt /\
    tokenized_prompt_mask obs = Some pmask /\
    token_ar_mask obs = Some par /\
    length m = length e /\ length a = length e /\
    length prompt = length e /\ length pmask = length e /\
    length par = length e /\
    Forall (fun row => length row = s) e /\
    Forall (fun row => length row = s) m /\
    Forall (fun row => length row = s) a /\
    Forall (fun nb : string * list (Image M) =>
              length nb.2 = length e /\
              exists mask, image_masks obs !! nb.1 = Some mask /\
                           length mask = length e)
           (images obs) /\
    (forall act, actions = Some act -> (Embedder.shape3 act).1.1 = length e).
Proof.
  unfold Embedder.embed_inputs_with_action. intros H.
  destruct (Embedder.embed_sequence M proj use_action_input obs actions)
    as [[[e0 m0] a0]|] eqn:Hseq; [|done].
  cbn [mbind option_bind] in H.
  apply typecheck_Some_inv in H as ([= <- <- <-] & s & Hm & Ha & Hes & Hms & Has
                                    & Hact).
  cbn [fst snd] in *.
  destruct (embed_sequence_requires M proj use_action_input obs actions e m a Hseq)
    as (prompt & pmask & par & Hp & Hpm & Hpa & He' & Hm' & Ha' & Hims & _).
  exists prompt, pmask, par, s. do 3 (split; [done|]).
  split; [done|]. split; [done|]. split; [lia|]. split; [lia|]. split; [lia|].
  do 3 (split; [done|]). split; [|done].
  eapply Forall_impl; [exact Hims|]. intros nb (Hb & mask & Hmask & Hl).
  split; [lia|]. exists mask. split; [done|]. lia.
Qed.

(** The toy backbone on a batch of two with an action horizon of two. *)
Lemma embed_inputs_with_action_requires_witness :
  exists prompt,
    tokenized_prompt (Examples.toy_obs [[5; 5; 2]; [5; 1; 2]]) = Some prompt /\
    length prompt = 2%nat /\
    (Embedder.shape3 (Examples.toy_actions 2)).1.1 = 2%nat.
Proof.
  destruct (embed_inputs_with_action_requires Examples.toy_backbone (fun _ => 9)
              true (Examples.toy_obs [[5; 5; 2]; [5; 1; 2]])
              (Some (Examples.toy_actions 2))
              [[7; 9; 9; 5; 5; 2]; [7; 9; 9; 5; 1; 2]]
              (replicate 2 (replicate 6 true))
              (replicate 2 [0; 0; 0; 1; 1; 1]) eq_refl)
    as (prompt & pmask & par & s & Hp & _ & _ & _ & _ & Hlp & _ & _ & _ & _ & _
        & _ & Hact).
  exists prompt. split; [exact Hp|]. split; [exact Hlp|].
  exact (Hact _ eq_refl).
Defined.

Section TransformMore.
Import ObsTransform.

(** Without a usable previous step the transform only depends on
    [handle_first_timestep]. *)
Lemma call_no_prev (self : Transform) (data : gmap string Value) :
  data !! "trajectory_data"%string = None \/
    gt_zero (default (VInt 0) (data !! "timestep"%string)) = Some false ->
  call self data =
    if decide (handle_first_timestep self = "duplicate"%string) then
      prev_actions ← zero_prev_actions self data;
      Some (<["prev_actions"%string := prev_actions]>
              (<["prev_observation"%string :=
                   default (VDict data) (data !! "observation"%string)]> data))
    else if decide (handle_first_timestep self = "zero"%string) then
      prev_actions ← zero_prev_actions self data;
      Some (<["prev_actions"%string := prev_actions]>
              (<["prev_observation"%string := VDict (zeros_like_array <$> data)]>
                 data))
    else if decide (handle_first_timestep self = "skip"%string) then
      Some (<["skip_sample"%string := VBool true]> data)
    else Some data.
Proof.
  intros Hno. unfold call. cbv zeta.
  destruct Hno as [Hno|Hno].
  - by rewrite Hno.
  - destruct (data !! "trajectory_data"%string); [|done]. by rewrite Hno.
Qed.

Lemma fmap_zero_replicate (l : list R) :
  (fun _ : R => 0%R) <$> l = replicate (length l) 0%R.
Proof. induction l as [|x l IH]; [done|]. simpl. f_equal. exact IH. Qed.

Lemma fmap_zeroZ_replicate (l : list Z) :
  (fun _ : Z => 0) <$> l = replicate (length l) 0.
Proof. induction l as [|x l IH]; [done|]. simpl. f_equal. exact IH. Qed.

End TransformMore.

(** X14: when the record carries [trajectory_data] and an integer
    [timestep] above 0, the transform takes the previous observation and the
    previous action from index [timestep - 1] of the trajectory, whatever
    [handle_first_timestep] says; a timestep past the end of either list
    makes the call fail. *)
Theorem transform_uses_previous_step (self : ObsTransform.Transform)
    (data traj : gmap string ObsTransform.Value) (t : Z)
    (observations actions : list ObsTransform.Value) :
  data !! "trajectory_data"%string = Some (ObsTransform.VDict traj) ->
  data !! "timestep"%string = Some (ObsTransform.VInt t) ->
  0 < t ->
  traj !! "observations"%string = Some (ObsTransform.VList observations) ->
  traj !! "actions"%string = Some (ObsTransform.VList actions) ->
  ObsTransform.call self data =
    match observations !! Z.to_nat (t - 1), actions !! Z.to_nat (t - 1) with
    | Some prev_observation, Some prev_actions =>
        Some (<["prev_actions"%string := prev_actions]>
                (<["prev_observation"%string := prev_observation]> data))
    | _, _ => None
    end.
Proof.
  intros Htraj Ht Hpos Hobs Hact.
  assert (ObsTransform.gt_zero (ObsTransform.VInt t) = Some true) as Hgt
    by (simpl; f_equal; apply Z.ltb_lt; lia).
  assert (forall items,
            ObsTransform.getitem_idx (ObsTransform.VList items)
              (ObsTransform.IdxInt (t - 1))
            = items !! Z.to_nat (t - 1)) as Hidx.
  { intros items. cbn [ObsTransform.getitem_idx ObsTransform.getitem_int].
    unfold ObsTransform.norm_index.
    replace (0 <=? t - 1) with true by (symmetry; apply Z.leb_le; lia).
    replace (t - 1 <? 0) with false by (symmetry; apply Z.ltb_ge; lia).
    destruct (Z.ltb_spec (t - 1) (Z.of_nat (length items))) as [Hlt|Hge]; [done|].
    cbn [andb mbind option_bind]. symmetry. apply lookup_ge_None. lia. }
  unfold ObsTransform.call. cbv zeta. rewrite Htraj, Ht.
  change (default (ObsTransform.VInt 0) (Some (ObsTransform.VInt t)))
    with (ObsTransform.VInt t).
  rewrite Hgt. cbn [mbind option_bind ObsTransform.getitem_str
                    ObsTransform.index_before].
  rewrite Hobs, Hact. cbn [mbind option_bind]. rewrite !Hidx.
  destruct (observations !! Z.to_nat (t - 1)) as [po|]; [|done].
  cbn [mbind option_bind].
  by destruct (actions !! Z.to_nat (t - 1)).
Qed.

(** A trajectory of three steps read at timestep 2: the entries at index 1
    are taken. *)
Lemma transform_uses_previous_step_witness :
  let observations :=
    [ObsTransform.VStr "o0"; ObsTransform.VStr "o1"; ObsTransform.VStr "o2"] in
  let actions :=
    [ObsTransform.VArr [1%nat] [0.5%R]; ObsTransform.VArr [1%nat] [1.5%R];
     ObsTransform.VArr [1%nat] [2.5%R]] in
  let traj : gmap string ObsTransform.Value :=
    {[ "observations"%string := ObsTransform.VList observations;
       "actions"%string := ObsTransform.VList actions ]} in
  let data : gmap string ObsTransform.Value :=
    {[ "trajectory_data"%string := ObsTransform.VDict traj;
       "timestep"%string := ObsTransform.VInt 2 ]} in
  ObsTransform.call Examples.toy_transform data
    = Some (<["prev_actions"%string := ObsTransform.VArr [1%nat] [1.5%R]]>
              (<["prev_observation"%string := ObsTransform.VStr "o1"]> data)).
Proof.
  intros observations actions traj data.
  exact (transform_uses_previous_step Examples.toy_transform data traj 2
           observations actions eq_refl eq_refl eq_refl eq_refl eq_refl).
Defined.

(** X15: at a first timestep the modes ["zero"] and ["duplicate"] both
    store an all-zero [prev_actions]: with the shape (and the dtype kind) of
    [data["actions"]] when that array has exactly two axes, and of shape
    [(action_dim,)] when [actions] is missing or has another rank.  An
    [actions] entry that is not an array makes the call fail. *)
Theorem first_timestep_prev_actions (self : ObsTransform.Transform)
    (data : gmap string ObsTransform.Value) :
  data !! "trajectory_data"%string = None \/
    ObsTransform.gt_zero
      (default (ObsTransform.VInt 0) (data !! "timestep"%string)) = Some false ->
  ObsTransform.handle_first_timestep self = "zero"%string \/
    ObsTransform.handle_first_timestep self = "duplicate"%string ->
  let flat := ObsTransform.VArr [ObsTransform.action_dim self]
                (replicate (ObsTransform.action_dim self) 0%R) in
  match data !! "actions"%string with
  | Some (ObsTransform.VArr shape values) =>
      exists result,
        ObsTransform.call self data = Some result /\
        result !! "prev_actions"%string =
          Some (if (length shape =? 2)%nat
                then ObsTransform.VArr shape (replicate (length values) 0%R)
                else flat)
  | Some (ObsTransform.VIntArr shape values) =>
      exists result,
        ObsTransform.call self data = Some result /\
        result !! "prev_actions"%string =
          Some (if (length shape =? 2)%nat
                then ObsTransform.VIntArr shape (replicate (length values) 0)
                else flat)
  | Some _ => ObsTransform.call self data = None
  | None =>
      exists result,
        ObsTransform.call self data = Some result /\
        result !! "prev_actions"%string = Some flat
  end.
Proof.
  intros Hno Hmode flat. rewrite (call_no_prev self data Hno).
  assert (forall po,
    (if decide (ObsTransform.handle_first_timestep self = "duplicate"%string) then
       prev_actions ← ObsTransform.zero_prev_actions self data;
       Some (<["prev_actions"%string := prev_actions]>
               (<["prev_observation"%string :=
                    default (ObsTransform.VDict data) (data !! "observation"%string)]>
                  data))
     else if decide (ObsTransform.handle_first_timestep self = "zero"%string) then
       prev_actions ← ObsTransform.zero_prev_actions self data;
       Some (<["prev_actions"%string := prev_actions]>
               (<["prev_observation"%string :=
                    ObsTransform.VDict (ObsTransform.zeros_like_array <$> data)]>
                  data))
     else po) =
    (prev_actions ← ObsTransform.zero_prev_actions self data;
     Some (<["prev_actions"%string := prev_actions]>
             (<["prev_observation"%string :=
                  if decide (ObsTransform.handle_first_timestep self
                             = "duplicate"%string)
                  then default (ObsTransform.VDict data) (data !! "observation"%string)
                  else ObsTransform.VDict (ObsTransform.zeros_like_array <$> data)]>
                data)))) as ->.
  { intros po. destruct Hmode as [Hm|Hm]; rewrite Hm; by repeat case_decide. }
  unfold ObsTransform.zero_prev_actions.
  destruct (data !! "actions"%string) as [[| | | | |shape values|shape values| |]|];
    cbn [mbind option_bind]; try done.
  - destruct (length shape =? 2)%nat; cbn [mbind option_bind];
      eexists; (split; [done|]); rewrite lookup_insert_eq; [|done].
    unfold ObsTransform.zeros_like_array. by rewrite fmap_zero_replicate.
  - destruct (length shape =? 2)%nat; cbn [mbind option_bind];
      eexists; (split; [done|]); rewrite lookup_insert_eq; [|done].
    unfold ObsTransform.zeros_like_array. by rewrite fmap_zeroZ_replicate.
  - eexists. split; [done|]. by rewrite lookup_insert_eq.
Qed.

(** The first-timestep record of the examples: a 2 x 1 action horizon. *)
Lemma first_timestep_prev_actions_witness :
  exists result,
    ObsTransform.call Examples.toy_transform Examples.toy_record = Some result /\
    result !! "prev_actions"%string
      = Some (ObsTransform.VArr [2%nat; 1%nat] [0%R; 0%R]).
Proof.
  exact (first_timestep_prev_actions Examples.toy_transform Examples.toy_record
           (or_introl eq_refl) (or_introl eq_refl)).
Defined.

(** X16: in mode ["zero"] at a first timestep, [prev_observation] is a
    zeroed copy of the whole input record: it has exactly the keys of the
    input, every array entry (the [actions] entry included) is replaced by
    zeros of the same shape and size, and every other entry is kept as it
    is. *)
Theorem first_timestep_zero_observation (self : ObsTransform.Transform)
    (data result : gmap string ObsTransform.Value) :
  data !! "trajectory_data"%string = None \/
    ObsTransform.gt_zero
      (default (ObsTransform.VInt 0) (data !! "timestep"%string)) = Some false ->
  ObsTransform.handle_first_timestep self = "zero"%string ->
  ObsTransform.call self data = Some result ->
  exists prev : gmap string ObsTransform.Value,
    result !! "prev_observation"%string = Some (ObsTransform.VDict prev) /\
    (forall k, prev !! k = None <-> data !! k = None) /\
    (forall k v, data !! k = Some v ->
       prev !! k = Some (match v with
                         | ObsTransform.VArr shape values =>
                             ObsTransform.VArr shape (replicate (length values) 0%R)
                         | ObsTransform.VIntArr shape values =>
                             ObsTransform.VIntArr shape (replicate (length values) 0)
                         | _ => v
                         end)).
Proof.
  intros Hno Hmode Hcall. rewrite (call_no_prev self data Hno), Hmode in Hcall.
  rewrite decide_False, decide_True in Hcall by done.
  destruct (ObsTransform.zero_prev_actions self data) as [pa|]; [|done].
  cbn [mbind option_bind] in Hcall. injection Hcall as <-.
  exists (ObsTransform.zeros_like_array <$> data). split; [|split].
  - rewrite lookup_insert_ne by done. by rewrite lookup_insert_eq.
  - intros k. rewrite lookup_fmap. by destruct (data !! k).
  - intros k v Hk. rewrite lookup_fmap, Hk. simpl. f_equal.
    destruct v; try done; simpl.
    + by rewrite fmap_zero_replicate.
    + by rewrite fmap_zeroZ_replicate.
Qed.

Lemma first_timestep_zero_observation_witness :
  exists result prev,
    ObsTransform.call Examples.toy_transform Examples.toy_record = Some result /\
    result !! "prev_observation"%string = Some (ObsTransform.VDict prev) /\
    prev !! "state"%string = Some (ObsTransform.VArr [1%nat] [0%R]) /\
    prev !! "prompt"%string = Some (ObsTransform.VStr "pick up the cup").
Proof.
  eexists.
  destruct (first_timestep_zero_observation Examples.toy_transform
              Examples.toy_record _ (or_introl eq_refl) eq_refl eq_refl)
    as (prev & Hprev & _ & Hkeys).
  exists prev. split; [reflexivity|]. split; [exact Hprev|]. split.
  - exact (Hkeys "state"%string (ObsTransform.VArr [1%nat] [3%R]) eq_refl).
  - exact (Hkeys "prompt"%string (ObsTransform.VStr "pick up the cup") eq_refl).
Defined.

(** X17: at a first timestep, mode ["skip"] only adds
    [skip_sample = True], and a mode string that is none of ["duplicate"],
    ["zero"] and ["skip"] returns the record unchanged without raising; in
    both cases no [prev_observation] or [prev_actions] entry is written. *)
Theorem first_timestep_skip_or_unknown (self : ObsTransform.Transform)
    (data : gmap string ObsTransform.Value) :
  data !! "trajectory_data"%string = None \/
    ObsTransform.gt_zero
      (default (ObsTransform.VInt 0) (data !! "timestep"%string)) = Some false ->
  ObsTransform.handle_first_timestep self <> "duplicate"%string ->
  ObsTransform.handle_first_timestep self <> "zero"%string ->
  exists result,
    ObsTransform.call self data = Some result /\
    result = (if decide (ObsTransform.handle_first_timestep self = "skip"%string)
              then <["skip_sample"%string := ObsTransform.VBool true]> data
              else data) /\
    result !! "prev_observation"%string = data !! "prev_observation"%string /\
    result !! "prev_actions"%string = data !! "prev_actions"%string.
Proof.
  intros Hno Hd Hz. rewrite (call_no_prev self data Hno).
  rewrite !decide_False by done.
  case_decide; eexists; (split; [done|]); (split; [done|]).
  - by rewrite !lookup_insert_ne.
  - done.
Qed.

(** A misspelt mode on the example record. *)
Lemma first_timestep_skip_or_unknown_witness :
  ObsTransform.call
    {| ObsTransform.action_dim := 7; ObsTransform.handle_first_timestep := "zeros" |}
    Examples.toy_record = Some Examples.toy_record.
Proof.
  destruct (first_timestep_skip_or_unknown
              {| ObsTransform.action_dim := 7;
                 ObsTransform.handle_first_timestep := "zeros" |}
              Examples.toy_record (or_introl eq_refl))
    as (result & Hcall & Hres & _).
  - discriminate.
  - discriminate.
  - rewrite Hcall, Hres. reflexivity.
Defined.

Section PrefillFacts.
Import AttnMask Align Decode.

(** One example's mask is a square of the sequence length. *)
Lemma attn_square (valid : list bool) (arow : list Z) (n : nat) :
  length valid = n -> length arow = n ->
  length (logical_and2 (causal_part (cumsum arow)) (valid_part valid)) = n /\
  Forall (fun r : list bool => length r = n)
         (logical_and2 (causal_part (cumsum arow)) (valid_part valid)).
Proof.
  intros Hv Ha.
  assert (length (cumsum arow) = n) as Hc
    by (unfold cumsum; by rewrite cumsum_from_length).
  unfold logical_and2, causal_part, valid_part. split.
  - rewrite length_zip_with, !length_fmap. lia.
  - apply Forall_lookup. intros i r Hr.
    apply lookup_zip_with_Some in Hr as (x & y & -> & Hx & Hy).
    rewrite list_lookup_fmap in Hx. rewrite list_lookup_fmap in Hy.
    destruct (cumsum arow !! i); [|done]. destruct (valid !! i); [|done].
    injection Hx as <-. injection Hy as <-.
    rewrite length_zip_with, !length_fmap. lia.
Qed.

Lemma left_to_right_align_is_Some {E} (x : list E) (input_mask : list bool)
    (attn_mask : list (list bool)) :
  length x = length input_mask ->
  Forall (fun r : list bool => length r = length attn_mask) attn_mask ->
  input_mask <> [] ->
  is_Some (left_to_right_align x input_mask attn_mask).
Proof.
  intros Hx Hsq Hne.
  destruct (seqlen_spec input_mask Hne) as (s & Hmax & _).
  unfold left_to_right_align. rewrite Hx, Nat.eqb_refl. simpl.
  replace (forallb _ attn_mask) with true.
  2:{ symmetry. apply forallb_forall. intros r Hr.
      rewrite Forall_forall in Hsq. apply Nat.eqb_eq, Hsq.
      by apply list_elem_of_In. }
  simpl. rewrite Hmax. simpl. eauto.
Qed.

(** On a rectangular, non-empty batch the mask builder and the alignment
    both succeed, and the aligned embeddings keep the batch size. *)
Lemma align_batch_Some {E} (e : list (list E)) (m : list (list bool))
    (a : list (list Z)) (b n : nat) :
  length e = b -> length m = b -> length a = b ->
  Forall (fun r => length r = n) e -> Forall (fun r => length r = n) m ->
  Forall (fun r => length r = n) a -> (1 <= n)%nat ->
  exists attn e' m' attn',
    make_attn_mask m (ArBatch a) = Some attn /\
    vmap_left_to_right_align e m attn = Some (e', m', attn') /\
    length e' = b.
Proof.
  intros He Hm Ha Hen Hmn Han Hn.
  assert (length <$> a = length <$> m) as Hshape.
  { apply list_eq_same_length with b; rewrite ?length_fmap; try done.
    intros i x y Hi Hx Hy. rewrite list_lookup_fmap in Hx.
    rewrite list_lookup_fmap in Hy.
    destruct (a !! i) as [ai|] eqn:Hai; [|done].
    destruct (m !! i) as [mi|] eqn:Hmi; [|done].
    injection Hx as <-. injection Hy as <-.
    rewrite Forall_lookup in Han. rewrite Forall_lookup in Hmn.
    by rewrite (Han _ _ Hai), (Hmn _ _ Hmi). }
  set (attn := zip_with
                 (fun valid arow =>
                    logical_and2 (causal_part (cumsum arow)) (valid_part valid))
                 m a).
  assert (broadcast_to (ArBatch a) m = Some a) as Hbc.
  { unfold broadcast_to. rewrite decide_True by lia. apply mapM_Some_2.
    apply Forall2_same_length_lookup_2; [rewrite length_zip; lia|].
    intros i [ai mi] ai' Hz Hai'.
    apply lookup_zip_with_Some in Hz as (ai0 & mi0 & [= -> ->] & Hai & Hmi).
    rewrite Hai in Hai'. injection Hai' as <-. simpl.
    unfold broadcast_row. rewrite decide_True; [done|].
    rewrite Forall_lookup in Han. rewrite Forall_lookup in Hmn.
    by rewrite (Han _ _ Hai), (Hmn _ _ Hmi). }
  assert (make_attn_mask m (ArBatch a) = Some attn) as Hattn.
  { unfold make_attn_mask. by rewrite Hbc. }
  assert (length attn = b) as Hlen
    by (unfold attn; rewrite length_zip_with; lia).
  exists attn.
  assert (exists e' m' attn',
            vmap_left_to_right_align e m attn = Some (e', m', attn') /\
            length e' = b) as (e' & m' & attn' & Hv & Hl);
    [|by exists e', m', attn'].
  unfold vmap_left_to_right_align.
  rewrite decide_True by (split; lia).
  destruct (mapM_is_Some_2
              (fun t : list E * list bool * list (list bool) =>
                 left_to_right_align t.1.1 t.1.2 t.2)
              (zip (zip e m) attn)) as [rows Hrows].
  { apply Forall_lookup. intros i [[xi mi] ai] Hi. simpl.
    apply lookup_zip_with_Some in Hi as (xm & ai' & Heq & Hxm & Hai).
    apply lookup_zip_with_Some in Hxm as (xi' & mi' & -> & Hxi & Hmi).
    injection Heq as -> -> ->.
    unfold attn in Hai.
    apply lookup_zip_with_Some in Hai as (v & ar & -> & Hv & Har).
    rewrite Hmi in Hv. injection Hv as <-.
    rewrite Forall_lookup in Hen. rewrite Forall_lookup in Hmn.
    rewrite Forall_lookup in Han.
    pose proof (Hen _ _ Hxi) as H1. pose proof (Hmn _ _ Hmi) as H2.
    pose proof (Han _ _ Har) as H3.
    destruct (attn_square mi' ar n H2 H3) as [Hsq1 Hsq2].
    apply left_to_right_align_is_Some.
    - lia.
    - by rewrite Hsq1.
    - intros ->. simpl in H2. lia. }
  rewrite Hrows. cbn [mbind option_bind].
  eexists _, _, _. split; [done|].
  rewrite length_fmap. apply length_mapM in Hrows.
  rewrite <- Hrows, !length_zip. lia.
Qed.

End PrefillFacts.

Section ShapeFacts.
Import Decode.
Context (M : Backbone) (Rnd : Random).

(** What the decode loop needs from its collaborators: the language model
    answers with one row of logits per example, and the sampler draws one
    row of tokens per example. *)
Hypothesis llm_prefill_batch :
  forall e mask positions, length (llm_prefill M e mask positions).1 = length e.
Hypothesis llm_step_batch :
  forall e mask positions cache,
    length (llm_step M e mask positions cache).1 = length e.
Hypothesis categorical_batch :
  forall key logits, length (categorical Rnd key logits) = length logits.

Lemma step_batch temperature max_decoding_steps prefill_size prefill_len
    prefix_start (carry : Carry M Rnd) (b : nat) :
  length (c_last_logit carry) = b -> length (c_output_tokens carry) = b ->
  length (c_last_logit
            (step M Rnd temperature max_decoding_steps prefill_size prefill_len
               prefix_start carry)) = b /\
  length (c_output_tokens
            (step M Rnd temperature max_decoding_steps prefill_size prefill_len
               prefix_start carry)) = b.
Proof.
  intros Hl Ho. unfold step.
  destruct (split Rnd (c_rng carry)) as [rng rng_step].
  set (token := select_token Rnd temperature rng_step (c_last_logit carry)).
  assert (length token = b) as Htok.
  { unfold token, select_token. destruct (Rlt_dec 0 temperature).
    - by rewrite categorical_batch, length_fmap.
    - by rewrite length_fmap. }
  destruct (llm_step M _ _ _ _) as [last_logit' kv_cache] eqn:Hstep.
  cbn [c_last_logit c_output_tokens]. split.
  - change last_logit' with (last_logit', kv_cache).1.
    by rewrite <- Hstep, llm_step_batch, length_fmap.
  - unfold put_along_last_axis.
    rewrite length_zip_with, length_zip, length_replicate. lia.
Qed.

Lemma while_loop_batch temperature max_decoding_steps prefill_size prefill_len
    prefix_start fuel (carry : Carry M Rnd) (b : nat) :
  length (c_last_logit carry) = b -> length (c_output_tokens carry) = b ->
  length (c_output_tokens
            (while_loop M Rnd temperature max_decoding_steps prefill_size
               prefill_len prefix_start fuel carry)) = b.
Proof.
  revert carry. induction fuel as [|fuel IH]; intros carry Hl Ho; simpl; [done|].
  destruct (cond M Rnd max_decoding_steps carry); [|done].
  destruct (step_batch temperature max_decoding_steps prefill_size prefill_len
              prefix_start carry b Hl Ho) as [Hl' Ho'].
  by apply IH.
Qed.

(** The shape of the result of [sample_actions] for an embedder of the
    family both models use. *)
Lemma sample_actions_shape_general (proj : list R -> Emb M)
    (use_action_input : bool) (rng : Key Rnd) (observation : Observation (Image M))
    (actions : option Embedder.Array3) (max_decoding_steps : nat)
    (temperature : R) (b T : nat) prompt pmask par :
  Embedder.wf_obs M (preprocess_observation M false observation false) b T
    prompt pmask par ->
  Embedder.wf_actions actions b ->
  (1 <= T)%nat ->
  exists tokens,
    sample_actions M Rnd (Embedder.embed_inputs_with_action M proj use_action_input)
      rng observation actions max_decoding_steps temperature = Some tokens /\
    length tokens = b /\
    Forall (fun row : list Z => length row = max_decoding_steps) tokens.
Proof.
  intros Hobs Hact HT.
  destruct (embed_inputs_with_action_layout M proj use_action_input _ actions
              b T prompt pmask par Hobs Hact)
    as (e & m & a & Hemb & He & Hm & Ha & Hrows).
  set (n := (img_tokens M
             * length (images (preprocess_observation M false observation false))
             + Embedder.action_span use_action_input actions + T)%nat) in Hrows.
  assert (Forall (fun r => length r = n) e /\ Forall (fun r => length r = n) m /\
          Forall (fun r => length r = n) a) as (Hen & Hmn & Han).
  { split; [|split]; apply Forall_lookup; intros k r Hr;
      pose proof (lookup_lt_Some _ _ _ Hr) as Hk;
      (destruct (Hrows k) as (er & mr & ar & _ & _ & _ & H1 & H2 & H3 & _ & _ & _
                              & L1 & L2 & L3 & _); [lia|]);
      congruence. }
  destruct (align_batch_Some e m a b n He Hm Ha Hen Hmn Han) as
    (attn & e' & m' & attn' & Hattn & Halign & He'); [unfold n; lia|].
  assert (exists p, prefill M (Embedder.embed_inputs_with_action M proj
                                 use_action_input)
                      observation actions max_decoding_steps = Some p /\
                    length (p_last_logit p) = b) as (p & Hp & Hpl).
  { unfold prefill. cbv zeta. rewrite Hemb. cbn [mbind option_bind].
    rewrite Hattn. cbn [mbind option_bind]. rewrite Halign.
    cbn [mbind option_bind].
    destruct (llm_prefill M e' _ _) as [prefix_logits kv_cache] eqn:Hpre.
    eexists. split; [done|]. cbn [p_last_logit]. rewrite length_fmap.
    change prefix_logits with (prefix_logits, kv_cache).1.
    by rewrite <- Hpre, llm_prefill_batch. }
  exists (c_output_tokens (decode_loop M Rnd rng p max_decoding_steps temperature)).
  split; [|split].
  - unfold sample_actions. by rewrite Hp.
  - unfold decode_loop. apply while_loop_batch; simpl; [done|].
    by rewrite length_replicate.
  - apply Forall_lookup. intros k row Hrow.
    assert (buffer_ok M Rnd max_decoding_steps
              (decode_loop M Rnd rng p max_decoding_steps temperature)) as Hok.
    { apply buffer_ok_while. intros b' row' Hr. simpl in Hr.
      apply lookup_replicate in Hr as [-> _]. split.
      - apply length_replicate.
      - intros j' Hj'. apply lookup_replicate_2. lia. }
    by destruct (Hok k row Hrow).
Qed.

End ShapeFacts.

(** X18: on a well-formed batch of [b] examples with a non-empty prompt,
    and with a language model and a sampler that answer with one row per
    example, [sample_actions] returns a result, and that result is a
    [b x max_decoding_steps] token array, at any temperature. *)
Theorem sample_actions_shape (self : ObsDistilled.Model) (Rnd : Random)
    (rng : Key Rnd)
    (observation : Observation (Image (ObsDistilled.PaliGemma self)))
    (prev_actions : option Embedder.Array3) (max_decoding_steps : nat)
    (temperature : R) (b T : nat) (prompt : list (list Z))
    (pmask : list (list bool)) (par : list (list Z)) :
  let M := ObsDistilled.PaliGemma self in
  (forall e mask positions, length (llm_prefill M e mask positions).1 = length e) ->
  (forall e mask positions cache,
     length (llm_step M e mask positions cache).1 = length e) ->
  (forall key logits, length (categorical Rnd key logits) = length logits) ->
  Embedder.wf_obs M (preprocess_observation M false observation false) b T
    prompt pmask par ->
  Embedder.wf_actions prev_actions b ->
  (1 <= T)%nat ->
  exists tokens,
    ObsDistilled.sample_actions self Rnd rng observation prev_actions
      max_decoding_steps temperature = Some tokens /\
    length tokens = b /\
    Forall (fun row : list Z => length row = max_decoding_steps) tokens.
Proof.
  intros M Hprefill Hstep Hcat Hobs Hact HT.
  by apply (sample_actions_shape_general M Rnd Hprefill Hstep Hcat _ _ rng
              observation prev_actions max_decoding_steps temperature b T prompt
              pmask par).
Qed.

(** The toy model on a batch of two, sampling at temperature 1 with a
    sampler that always draws token 0. *)
Lemma sample_actions_shape_witness :
  exists tokens,
    ObsDistilled.sample_actions (Examples.toy_distilled true None)
      {| Key := unit; split := fun _ => (tt, tt);
         categorical := fun _ l => (fun _ => [0]) <$> l |}
      tt (Examples.toy_obs [[5; 5; 2]; [5; 5; 1]])
      (Some (Examples.toy_actions 2)) 3 1%R = Some tokens /\
    length tokens = 2%nat /\
    Forall (fun row : list Z => length row = 3%nat) tokens.
Proof.
  apply (sample_actions_shape (Examples.toy_distilled true None)
           {| Key := unit; split := fun _ => (tt, tt);
              categorical := fun _ l => (fun _ => [0]) <$> l |} tt
           (Examples.toy_obs [[5; 5; 2]; [5; 5; 1]])
           (Some (Examples.toy_actions 2)) 3 1%R 2 3 [[5; 5; 2]; [5; 5; 1]]
           ((fun row : list Z => (fun _ : Z => true) <$> row)
              <$> [[5; 5; 2]; [5; 5; 1]])
           ((fun row : list Z => (fun _ : Z => 1) <$> row)
              <$> [[5; 5; 2]; [5; 5; 1]])).
  - intros e mask positions. simpl. unfold Examples.logits_after.
    by rewrite length_fmap.
  - intros e mask positions cache. simpl. unfold Examples.logits_after.
    by rewrite length_fmap.
  - intros key logits. simpl. by rewrite length_fmap.
  - apply (toy_obs_wf [[5; 5; 2]; [5; 5; 1]] 3). by repeat constructor.
  - apply toy_actions_wf.
  - lia.
Defined.

Section InputsFacts.
Import ObsTransform LiberoObsDistillationInputs.
Context (pad_to_dim : Value -> nat -> option Value)
        (_parse_image : Value -> option (list nat * list R)).

Abbreviation read_observation :=
  (LiberoObsDistillationInputs.read_observation pad_to_dim _parse_image).
Abbreviation inputs_call :=
  (LiberoObsDistillationInputs.call pad_to_dim _parse_image).

(** Two records that agree on the six observation keys are read alike. *)
Lemma read_observation_ext (self : Inputs) (d d' : gmap string Value) :
  (forall k, k = "state"%string \/ k = "observation/state"%string \/
             k = "image"%string \/ k = "observation/image"%string \/
             k = "wrist_image"%string \/ k = "observation/wrist_image"%string ->
     d !! k = d' !! k) ->
  read_observation self d = read_observation self d'.
Proof.
  intros Heq. unfold LiberoObsDistillationInputs.read_observation, get2.
  by rewrite !Heq by auto 10.
Qed.

Lemma get2_fmap (f : Value -> Value) (d : gmap string Value) k1 k2 dflt :
  f dflt = dflt -> get2 (f <$> d) k1 k2 dflt = f (get2 d k1 k2 dflt).
Proof.
  intros Hf. unfold get2. rewrite !lookup_fmap.
  destruct (d !! k1); [done|]. by destruct (d !! k2).
Qed.

(** The entries of the result that do not depend on the optional keys. *)
Lemma inputs_call_fixed (self : Inputs) (data out : gmap string Value) :
  inputs_call self data = Some out ->
  exists cs cb cw ps pb pw pa,
    read_observation self data = Some (cs, cb, cw) /\
    match data !! "prev_observation"%string with
    | Some (VDict prev_data) => read_observation self prev_data
    | Some _ => None
    | None => Some (cs, cb, cw)
    end = Some (ps, pb, pw) /\
    match data !! "prev_actions"%string with
    | Some prev_actions => pad_to_dim prev_actions (action_dim self)
    | None => Some (np_zeros (action_dim self))
    end = Some pa /\
    out !! "state"%string = Some cs /\
    out !! "image"%string = Some (image_dict cb cw) /\
    out !! "prev_state"%string = Some ps /\
    out !! "prev_image"%string = Some (image_dict pb pw) /\
    out !! "image_mask"%string = out !! "prev_image_mask"%string /\
    out !! "prev_actions"%string = Some pa /\
    out !! "prompt"%string = data !! "prompt"%string /\
    (forall k, is_Some (out !! k) <->
       k = "state"%string \/ k = "image"%string \/ k = "image_mask"%string \/
       k = "prev_state"%string \/ k = "prev_image"%string \/
       k = "prev_image_mask"%string \/ k = "prev_actions"%string \/
       (k = "actions"%string /\ is_Some (data !! "actions"%string)) \/
       (k = "prompt"%string /\ is_Some (data !! "prompt"%string))).
Proof.
  unfold LiberoObsDistillationInputs.call. cbv zeta. intros H.
  destruct (read_observation self data) as [[[cs cb] cw]|] eqn:Hcur; [|done].
  cbn [mbind option_bind] in H.
  destruct (match data !! "prev_observation"%string with
            | Some (VDict prev_data) => read_observation self prev_data
            | Some _ => None
            | None => Some (cs, cb, cw)
            end) as [[[ps pb] pw]|] eqn:Hprev; [|done].
  cbn [mbind option_bind] in H.
  destruct (match data !! "prev_actions"%string with
            | Some prev_actions => pad_to_dim prev_actions (action_dim self)
            | None => Some (np_zeros (action_dim self))
            end) as [pa|] eqn:Hpa; [|done].
  cbn [mbind option_bind] in H.
  exists cs, cb, cw, ps, pb, pw, pa.
  split; [done|]. split; [exact Hprev|]. split; [done|].
  destruct (data !! "actions"%string) as [act|];
    [destruct (pad_to_dim act (action_dim self)) as [act'|]; [|done]|];
    cbn [mbind option_bind] in H;
    destruct (data !! "prompt"%string) as [prompt|];
    injection H as <-;
    (repeat split;
     [by simplify_map_eq..|
      intros [v Hk];
      repeat (rewrite lookup_insert_Some in Hk;
              destruct Hk as [[<- _]|[_ Hk]]; [by eauto 12|]);
      apply lookup_singleton_Some in Hk as [<- _]; by eauto 12|
      intros Hk; destruct_or?; destruct_and?; subst; by simplify_map_eq]).
Qed.

End InputsFacts.

(** X19: the result of [LiberoObsDistillationInputs] has the seven fixed
    keys, [actions] exactly when the input has it, and [prompt] exactly when
    the input has it, with the input's own prompt; every other key of the
    input, such as [skip_sample], [timestep] or [trajectory_data], is
    dropped. *)
Theorem inputs_keys (pad_to_dim : ObsTransform.Value -> nat -> option ObsTransform.Value)
    (_parse_image : ObsTransform.Value -> option (list nat * list R))
    (self : LiberoObsDistillationInputs.Inputs)
    (data out : gmap string ObsTransform.Value) :
  LiberoObsDistillationInputs.call pad_to_dim _parse_image self data = Some out ->
  (forall k, is_Some (out !! k) <->
     k = "state"%string \/ k = "image"%string \/ k = "image_mask"%string \/
     k = "prev_state"%string \/ k = "prev_image"%string \/
     k = "prev_image_mask"%string \/ k = "prev_actions"%string \/
     (k = "actions"%string /\ is_Some (data !! "actions"%string)) \/
     (k = "prompt"%string /\ is_Some (data !! "prompt"%string))) /\
  out !! "prompt"%string = data !! "prompt"%string /\
  out !! "skip_sample"%string = None.
Proof.
  intros Hcall.
  destruct (inputs_call_fixed pad_to_dim _parse_image self data out Hcall)
    as (cs & cb & cw & ps & pb & pw & pa & _ & _ & _ & _ & _ & _ & _ & _ & _
        & Hprompt & Hkeys).
  split; [exact Hkeys|]. split; [exact Hprompt|].
  destruct (out !! "skip_sample"%string) as [v|] eqn:Hv; [|done].
  assert (is_Some (out !! "skip_sample"%string)) as Hs by (by rewrite Hv).
  apply Hkeys in Hs. destruct_or?; destruct_and?; discriminate.
Qed.

(** A record that carries the [skip_sample] marker: the marker is not
    forwarded, the prompt is. *)
Lemma inputs_keys_witness :
  exists out,
    LiberoObsDistillationInputs.call Examples.toy_pad_to_dim
      Examples.toy_parse_image Examples.toy_inputs Examples.toy_frame = Some out /\
    out !! "prompt"%string = Some (ObsTransform.VStr "pick up the cup") /\
    out !! "skip_sample"%string = None.
Proof.
  eexists. split; [reflexivity|].
  exact (proj2 (inputs_keys Examples.toy_pad_to_dim Examples.toy_parse_image
                  Examples.toy_inputs Examples.toy_frame _ eq_refl)).
Defined.

(** X20: the transform in mode ["duplicate"] followed by the policy
    inputs, at a first timestep of a record without an [observation] entry:
    the student's previous state, images and image masks are exactly the
    teacher's current ones. *)
Theorem duplicate_then_inputs
    (pad_to_dim : ObsTransform.Value -> nat -> option ObsTransform.Value)
    (_parse_image : ObsTransform.Value -> option (list nat * list R))
    (transform : ObsTransform.Transform)
    (self : LiberoObsDistillationInputs.Inputs)
    (data result out : gmap string ObsTransform.Value) :
  data !! "trajectory_data"%string = None \/
    ObsTransform.gt_zero
      (default (ObsTransform.VInt 0) (data !! "timestep"%string)) = Some false ->
  ObsTransform.handle_first_timestep transform = "duplicate"%string ->
  data !! "observation"%string = None ->
  ObsTransform.call transform data = Some result ->
  LiberoObsDistillationInputs.call pad_to_dim _parse_image self result = Some out ->
  out !! "prev_state"%string = out !! "state"%string /\
  out !! "prev_image"%string = out !! "image"%string /\
  out !! "prev_image_mask"%string = out !! "image_mask"%string.
Proof.
  intros Hno Hmode Hobs Hcall Hin.
  rewrite (call_no_prev transform data Hno), Hmode in Hcall.
  rewrite decide_True in Hcall by done. rewrite Hobs in Hcall.
  destruct (ObsTransform.zero_prev_actions transform data) as [pa0|]; [|done].
  cbn [mbind option_bind default from_option] in Hcall. injection Hcall as <-.
  destruct (inputs_call_fixed pad_to_dim _parse_image self _ out Hin)
    as (cs & cb & cw & ps & pb & pw & pa & Hcur & Hprev & _ & Hs & Hi & Hps & Hpi
        & Hm & _).
  rewrite lookup_insert_ne, lookup_insert_eq in Hprev by done.
  rewrite (read_observation_ext pad_to_dim _parse_image self _ data) in Hcur.
  2:{ intros k Hk. rewrite !lookup_insert_ne; [done|..];
        intros <-; destruct_or?; discriminate. }
  rewrite Hcur in Hprev. injection Hprev as <- <- <-.
  by rewrite Hs, Hi, Hps, Hpi, Hm.
Qed.

Lemma duplicate_then_inputs_witness :
  exists result out,
    ObsTransform.call
      {| ObsTransform.action_dim := 2;
         ObsTransform.handle_first_timestep := "duplicate" |}
      Examples.toy_frame = Some result /\
    LiberoObsDistillationInputs.call Examples.toy_pad_to_dim
      Examples.toy_parse_image Examples.toy_inputs result = Some out /\
    out !! "prev_state"%string = out !! "state"%string.
Proof.
  eexists _, _. split; [reflexivity|]. split; [reflexivity|].
  exact (proj1 (duplicate_then_inputs Examples.toy_pad_to_dim
                  Examples.toy_parse_image
                  {| ObsTransform.action_dim := 2;
                     ObsTransform.handle_first_timestep := "duplicate" |}
                  Examples.toy_inputs Examples.toy_frame _ _
                  (or_introl eq_refl) eq_refl eq_refl eq_refl eq_refl)).
Defined.

(** X21: the transform in mode ["zero"] followed by the policy inputs, at
    a first timestep: the student's previous state is [pad_to_dim] of the
    zeroed current state entry, and its previous images are [_parse_image]
    of the zeroed current image entries. *)
Theorem zero_then_inputs
    (pad_to_dim : ObsTransform.Value -> nat -> option ObsTransform.Value)
    (_parse_image : ObsTransform.Value -> option (list nat * list R))
    (transform : ObsTransform.Transform)
    (self : LiberoObsDistillationInputs.Inputs)
    (data result out : gmap string ObsTransform.Value) :
  data !! "trajectory_data"%string = None \/
    ObsTransform.gt_zero
      (default (ObsTransform.VInt 0) (data !! "timestep"%string)) = Some false ->
  ObsTransform.handle_first_timestep transform = "zero"%string ->
  ObsTransform.call transform data = Some result ->
  LiberoObsDistillationInputs.call pad_to_dim _parse_image self result = Some out ->
  let zeroed k1 k2 dflt :=
    ObsTransform.zeros_like_array
      (LiberoObsDistillationInputs.get2 data k1 k2 dflt) in
  out !! "prev_state"%string
    = pad_to_dim (zeroed "state" "observation/state" (ObsTransform.np_zeros 8))%string
        (LiberoObsDistillationInputs.action_dim self) /\
  exists base wrist,
    _parse_image (zeroed "image" "observation/image"
                    LiberoObsDistillationInputs.zeros_image)%string = Some base /\
    _parse_image (zeroed "wrist_image" "observation/wrist_image"
                    LiberoObsDistillationInputs.zeros_image)%string = Some wrist /\
    out !! "prev_image"%string
      = Some (LiberoObsDistillationInputs.image_dict base wrist).
Proof.
  intros Hno Hmode Hcall Hin zeroed.
  rewrite (call_no_prev transform data Hno), Hmode in Hcall.
  rewrite decide_False, decide_True in Hcall by done.
  destruct (ObsTransform.zero_prev_actions transform data) as [pa0|]; [|done].
  cbn [mbind option_bind] in Hcall. injection Hcall as <-.
  destruct (inputs_call_fixed pad_to_dim _parse_image self _ out Hin)
    as (cs & cb & cw & ps & pb & pw & pa & _ & Hprev & _ & _ & _ & Hps & Hpi & _).
  rewrite lookup_insert_ne, lookup_insert_eq in Hprev by done.
  unfold LiberoObsDistillationInputs.read_observation in Hprev.
  rewrite !get2_fmap in Hprev
    by (try unfold LiberoObsDistillationInputs.zeros_image;
        try unfold ObsTransform.np_zeros;
        unfold ObsTransform.zeros_like_array; by rewrite fmap_replicate).
  fold (zeroed "state" "observation/state" (ObsTransform.np_zeros 8))%string in Hprev.
  fold (zeroed "image" "observation/image"
          LiberoObsDistillationInputs.zeros_image)%string in Hprev.
  fold (zeroed "wrist_image" "observation/wrist_image"
          LiberoObsDistillationInputs.zeros_image)%string in Hprev.
  destruct (pad_to_dim _ _) as [s|]; [|done]. cbn [mbind option_bind] in Hprev.
  destruct (_parse_image (zeroed "image" _ _)%string) as [b|]; [|done].
  cbn [mbind option_bind] in Hprev.
  destruct (_parse_image (zeroed "wrist_image" _ _)%string) as [w|]; [|done].
  cbn [mbind option_bind] in Hprev. injection Hprev as <- <- <-.
  split; [done|]. by exists b, w.
Qed.

Lemma zero_then_inputs_witness :
  exists result out,
    ObsTransform.call
      {| ObsTransform.action_dim := 2; ObsTransform.handle_first_timestep := "zero" |}
      Examples.toy_frame = Some result /\
    LiberoObsDistillationInputs.call Examples.toy_pad_to_dim
      Examples.toy_parse_image Examples.toy_inputs result = Some out /\
    out !! "prev_state"%string = Some (ObsTransform.VArr [2%nat] [0%R; 0%R]).
Proof.
  eexists _, _. split; [reflexivity|]. split; [reflexivity|].
  exact (proj1 (zero_then_inputs Examples.toy_pad_to_dim
                  Examples.toy_parse_image
                  {| ObsTransform.action_dim := 2;
                     ObsTransform.handle_first_timestep := "zero" |}
                  Examples.toy_inputs Examples.toy_frame _ _
                  (or_introl eq_refl) eq_refl eq_refl eq_refl)).
Defined.

Section PrefillLen.
Import AttnMask Align Decode.

Lemma count_true_app (l1 l2 : list bool) :
  count_true (l1 ++ l2) = count_true l1 + count_true l2.
Proof.
  unfold count_true. rewrite fmap_app, foldr_app.
  rewrite (foldr_add_acc ((fun v : bool => if v then 1 else 0) <$> l1)). lia.
Qed.

(** Rolling a mask does not change how many positions are valid. *)
Lemma count_true_roll (s : Z) (mask : list bool) :
  count_true (roll s mask) = count_true mask.
Proof.
  unfold roll. rewrite count_true_app, Z.add_comm, <- count_true_app.
  by rewrite take_drop.
Qed.

Lemma left_to_right_align_mask {E} (x : list E) (input_mask : list bool)
    (attn_mask : list (list bool)) res :
  left_to_right_align x input_mask attn_mask = Some res ->
  count_true res.1.2 = count_true input_mask /\ length res.1.1 = length x.
Proof.
  unfold left_to_right_align.
  destruct (negb _); [done|]. destruct (negb _); [done|].
  destruct (jnp_max _) as [mx|]; [|done]. cbn [mbind option_bind].
  intros [= <-]. cbn [fst snd]. split; [apply count_true_roll|].
  unfold roll. rewrite length_app, length_drop, length_take. lia.
Qed.

Lemma vmap_left_to_right_align_mask {E} (x : list (list E))
    (input_mask : list (list bool)) (attn_mask : list (list (list bool)))
    x' mask' attn' :
  vmap_left_to_right_align x input_mask attn_mask = Some (x', mask', attn') ->
  count_true <$> mask' = count_true <$> input_mask.
Proof.
  unfold vmap_left_to_right_align. case_decide as Hlen; [|done].
  destruct (mapM _ _) as [rows|] eqn:Hrows; [|done].
  cbn [mbind option_bind]. intros [= <- <- <-].
  apply mapM_Some_1 in Hrows. destruct Hlen as [Hl1 Hl2].
  pose proof (Forall2_length _ _ _ Hrows) as Hlr.
  rewrite !length_zip in Hlr.
  apply list_eq_same_length with (length input_mask);
    rewrite ?length_fmap; [lia|lia|].
  intros k c1 c2 Hk H1 H2.
  rewrite !list_lookup_fmap in H1. rewrite list_lookup_fmap in H2.
  destruct (rows !! k) as [row|] eqn:Hrow; [|done].
  destruct (input_mask !! k) as [mk|] eqn:Hmk; [|done].
  injection H1 as <-. injection H2 as <-.
  destruct (Forall2_lookup_r _ _ _ _ _ Hrows Hrow) as ([[xk mk'] ak] & Hz & Hal).
  apply lookup_zip_with_Some in Hz as (xm & ak' & Heq & Hxm & _).
  apply lookup_zip_with_Some in Hxm as (xk' & mk'' & -> & _ & Hmk').
  injection Heq as -> -> ->. rewrite Hmk in Hmk'. injection Hmk' as <-.
  by destruct (left_to_right_align_mask _ _ _ _ Hal).
Qed.

End PrefillLen.

(** X22: the prefill length [sample_actions] computes for each example
    after the left-to-right alignment is the number of valid positions in
    the mask the embedder returned: the alignment moves the padding but does
    not change the count.  The first cache slot of an example is the
    sequence length minus that count. *)
Theorem prefill_len_counts_valid (M : Backbone)
    (embed : Observation (Image M) -> option Embedder.Array3 ->
             option (list (list (Emb M)) * list (list bool) * list (list Z)))
    (observation : Observation (Image M)) (actions : option Embedder.Array3)
    (max_decoding_steps : nat) (p : Decode.Prefill M)
    (e : list (list (Emb M))) (m : list (list bool)) (a : list (list Z)) :
  embed (preprocess_observation M false observation false) actions
    = Some (e, m, a) ->
  Decode.prefill M embed observation actions max_decoding_steps = Some p ->
  Decode.p_prefill_len p = Decode.count_true <$> m /\
  Decode.p_prefix_start p
    = (fun len : Z => Z.of_nat (Decode.p_prefill_size p) - len)
        <$> (Decode.count_true <$> m).
Proof.
  intros Hemb Hp. unfold Decode.prefill in Hp. cbv zeta in Hp.
  rewrite Hemb in Hp. cbn [mbind option_bind] in Hp.
  destruct (AttnMask.make_attn_mask m (AttnMask.ArBatch a)) as [attn|]; [|done].
  cbn [mbind option_bind] in Hp.
  destruct (Decode.vmap_left_to_right_align e m attn) as [[[e' m'] attn']|]
    eqn:Hal; [|done].
  cbn [mbind option_bind] in Hp.
  destruct (llm_prefill M e' _ _) as [prefix_logits kv_cache].
  injection Hp as <-. cbn [Decode.p_prefill_len Decode.p_prefix_start
                           Decode.p_prefill_size].
  by rewrite (vmap_left_to_right_align_mask _ _ _ _ _ _ Hal).
Qed.

(** Two prompts of three tokens after one image token and two action
    tokens: six valid positions each. *)
Lemma prefill_len_counts_valid_witness :
  exists p,
    Decode.prefill Examples.toy_backbone
      (ObsDistilled.embed_inputs_with_prev_action (Examples.toy_distilled true None))
      (Examples.toy_obs [[5; 5; 2]; [5; 1; 2]]) (Some (Examples.toy_actions 2)) 3
      = Some p /\
    Decode.p_prefill_len p = [6; 6] /\ Decode.p_prefix_start p = [0; 0].
Proof.
  eexists. split; [vm_compute; reflexivity|].
  exact (prefill_len_counts_valid Examples.toy_backbone
           (ObsDistilled.embed_inputs_with_prev_action
              (Examples.toy_distilled true None))
           (Examples.toy_obs [[5; 5; 2]; [5; 1; 2]])
           (Some (Examples.toy_actions 2)) 3 _
           [[7; 9; 9; 5; 5; 2]; [7; 9; 9; 5; 1; 2]]
           (replicate 2 (replicate 6 true))
           (replicate 2 [0; 0; 0; 1; 1; 1]) eq_refl eq_refl).
Defined.

(** X23: [LiberoNextActionInputs] on a record that has [actions] but no
    [current_actions] (the next-action transform was not applied), whose
    [actions] entry is already an array: the [current_actions] handed to the
    model are the padded target [actions] themselves.  With neither key the
    result has no [current_actions]; [next_action_mask] and [prompt] are
    passed through unchanged. *)
Theorem next_action_inputs_fallback
    (pad_to_dim : ObsTransform.Value -> nat -> option ObsTransform.Value)
    (_parse_image : ObsTransform.Value -> option (list nat * list R))
    (np_asarray : ObsTransform.Value -> ObsTransform.Value)
    (self : LiberoNextActionInputs.Inputs)
    (data out : gmap string ObsTransform.Value) :
  LiberoNextActionInputs.call pad_to_dim _parse_image np_asarray self data
    = Some out ->
  data !! "current_actions"%string = None ->
  match data !! "actions"%string with
  | Some actions =>
      np_asarray actions = actions ->
      out !! "current_actions"%string = out !! "actions"%string /\
      out !! "actions"%string
        = pad_to_dim actions (LiberoNextActionInputs.action_dim self)
  | None =>
      out !! "current_actions"%string = None /\
      out !! "actions"%string = None
  end /\
  out !! "next_action_mask"%string = data !! "next_action_mask"%string /\
  out !! "prompt"%string = data !! "prompt"%string.
Proof.
  unfold LiberoNextActionInputs.call. cbv zeta. intros H.
  destruct (pad_to_dim _ _) as [state|]; [|done].
  cbn [mbind option_bind] in H.
  destruct (_parse_image (LiberoObsDistillationInputs.get2 data "image" _ _))
    as [base|]; [|done].
  cbn [mbind option_bind] in H.
  destruct (_parse_image _) as [wrist|]; [|done]. cbn [mbind option_bind] in H.
  intros Hcur. rewrite Hcur in H.
  destruct (data !! "actions"%string) as [actions|].
  - destruct (pad_to_dim (np_asarray actions) _) as [ca|] eqn:Hca; [|done].
    cbn [mbind option_bind] in H.
    destruct (pad_to_dim actions _) as [act|] eqn:Hact; [|done].
    cbn [mbind option_bind] in H.
    destruct (data !! "next_action_mask"%string) as [mask|];
      destruct (data !! "prompt"%string) as [prompt|];
      injection H as <-;
      (split; [intros Hid; rewrite Hid, Hact in Hca; injection Hca as ->|]);
      by simplify_map_eq.
  - cbn [mbind option_bind] in H.
    destruct (data !! "next_action_mask"%string) as [mask|];
      destruct (data !! "prompt"%string) as [prompt|];
      injection H as <-; by simplify_map_eq.
Qed.

Lemma next_action_inputs_fallback_witness :
  exists out,
    LiberoNextActionInputs.call Examples.toy_pad_to_dim Examples.toy_parse_image
      (fun x => x)
      {| LiberoNextActionInputs.action_dim := 2;
         LiberoNextActionInputs.model_type := LiberoObsDistillationInputs.PI0_FAST |}
      Examples.toy_frame = Some out /\
    out !! "current_actions"%string = out !! "actions"%string /\
    out !! "actions"%string
      = Some (ObsTransform.VArr [2%nat; 1%nat] [1%R; 2%R]).
Proof.
  eexists. split; [reflexivity|].
  exact (proj1 (next_action_inputs_fallback Examples.toy_pad_to_dim
                  Examples.toy_parse_image (fun x => x)
                  {| LiberoNextActionInputs.action_dim := 2;
                     LiberoNextActionInputs.model_type :=
                       LiberoObsDistillationInputs.PI0_FAST |}
                  Examples.toy_frame _ eq_refl eq_refl) eq_refl).
Defined.
